(** * ComEd pricing action: formatter, trend, state, icon renderer, poller

    Shallow embedding of [src/actions/comed-pricing.ts] (class [ComedPricing]).

    Representation choices.
    - A JavaScript string is a [string] holding its UTF-8 bytes; the program
      only compares, concatenates, trims, parses and percent-encodes strings,
      all of which are insensitive to the choice of code unit.
    - A JavaScript number is an IEEE-754 binary64 value, here a [spec_float]
      at precision 53 and maximal exponent 1024.  The built-ins the class
      calls ([parseFloat], [isNaN], [Number.prototype.toFixed], the
      relational operators, [String.prototype.trim], [encodeURIComponent])
      follow ECMA-262.
    - [updatePricing] runs in a monad carrying the calls made on the host
      action and a possible exception.  The network is an input: what each
      [fetch] settles to.  The host's methods are taken to resolve.
    - [Environment.updatePricing] is the same method run against more:
      a request or a body may stay pending, a body may be [null], and
      the host may reject a call or leave it pending.
    - The handlers [onWillAppear], [onWillDisappear] and [onKeyDown] are
      steps on the state of the one action object: the field
      [updateInterval], the intervals of the event loop, and the calls of
      [onWillAppear] that wait for their first run.
    - The test suite asserts on copies of the methods; the copies that
      differ from the class are embedded from [test/comed-pricing.test.js]. *)

From Stdlib Require Import String Ascii List Bool ZArith NArith Lia.
From Stdlib Require Import QArith Qround Qabs Qpower Lqa.
From Stdlib Require Import Decimal DecimalString DecimalN.
From Stdlib Require Import Floats.SpecFloat.
Import ListNotations.

Local Open Scope string_scope.

(* ================================================================= *)
(** ** Strings *)

Module JsString.

Definition code (c : ascii) : N := N_of_ascii c.

Definition chr (n : N) : string := String (ascii_of_N n) EmptyString.

(** The characters that cannot be written inside a literal here. *)
Definition dq : string := chr 34.
Definition nl : string := chr 10.
Definition tab : string := chr 9.

(** [q s] is [s] between double quotes. *)
Definition q (s : string) : string := dq ++ s ++ dq.

Definition is_empty (s : string) : bool :=
  match s with EmptyString => true | String _ _ => false end.

Fixpoint rev_append (s acc : string) : string :=
  match s with
  | EmptyString => acc
  | String c r => rev_append r (String c acc)
  end.

Definition rev (s : string) : string := rev_append s EmptyString.

(** WhiteSpace and LineTerminator of ECMA-262, by the length of their
    UTF-8 encoding.  [ws2 a b] and [ws3 a b c] take the bytes in reading
    order. *)
Definition ws1 (a : ascii) : bool :=
  let n := code a in
  ((9 <=? n) && (n <=? 13) || (n =? 32))%N.

Definition ws2 (a b : ascii) : bool :=
  ((code b =? 160) && (code a =? 194))%N.

Definition ws3 (a b c : ascii) : bool :=
  let x := code a in let y := code b in let z := code c in
  ((z =? 128) && (y =? 154) && (x =? 225)                       (* U+1680 *)
   || (128 <=? z) && (z <=? 138) && (y =? 128) && (x =? 226)    (* U+2000..U+200A *)
   || ((z =? 168) || (z =? 169) || (z =? 175)) && (y =? 128) && (x =? 226)
                                                 (* U+2028 U+2029 U+202F *)
   || (z =? 159) && (y =? 129) && (x =? 226)                    (* U+205F *)
   || (z =? 128) && (y =? 128) && (x =? 227)                    (* U+3000 *)
   || (z =? 191) && (y =? 187) && (x =? 239))%N.                (* U+FEFF *)

(** Drop leading white space.  With [fwd = false] the string is read
    backwards, so that the bytes of a character arrive last byte first. *)
Fixpoint strip (fwd : bool) (s : string) : string :=
  match s with
  | EmptyString => s
  | String c1 r1 =>
    if ws1 c1 then strip fwd r1 else
    match r1 with
    | EmptyString => s
    | String c2 r2 =>
      if (if fwd then ws2 c1 c2 else ws2 c2 c1) then strip fwd r2 else
      match r2 with
      | EmptyString => s
      | String c3 r3 =>
        if (if fwd then ws3 c1 c2 c3 else ws3 c3 c2 c1) then strip fwd r3 else s
      end
    end
  end.

Definition trimStart (s : string) : string := strip true s.
Definition trimEnd (s : string) : string := rev (strip false (rev s)).

(** [String.prototype.trim] *)
Definition trim (s : string) : string := trimEnd (trimStart s).

(** [String.prototype.includes] *)
Fixpoint includes (s pat : string) : bool :=
  prefix pat s ||
  match s with
  | EmptyString => false
  | String _ r => includes r pat
  end.

(** Every byte of [s] satisfies [p]. *)
Fixpoint all_chars (p : ascii -> bool) (s : string) : bool :=
  match s with
  | EmptyString => true
  | String c r => p c && all_chars p r
  end.

Definition hex_digit (n : N) : string :=
  chr (if (n <? 10)%N then 48 + n else 55 + n)%N.

(** Characters [encodeURIComponent] leaves alone: letters, digits and
    [- _ . ! ~ * ' ( )]. *)
Definition uri_unreserved (c : ascii) : bool :=
  let n := code c in
  ((65 <=? n) && (n <=? 90) || (97 <=? n) && (n <=? 122)
   || (48 <=? n) && (n <=? 57)
   || (n =? 45) || (n =? 95) || (n =? 46) || (n =? 33) || (n =? 126)
   || (n =? 42) || (n =? 39) || (n =? 40) || (n =? 41))%N.

(** [encodeURIComponent] on a well-formed string: every other byte of
    the UTF-8 encoding becomes [%XX]. *)
Fixpoint encodeURIComponent (s : string) : string :=
  match s with
  | EmptyString => EmptyString
  | String c r =>
    (if uri_unreserved c then String c EmptyString
     else "%" ++ hex_digit (code c / 16) ++ hex_digit (code c mod 16))
    ++ encodeURIComponent r
  end.

End JsString.

(* ================================================================= *)
(** ** Numbers *)

Module Float64.

Definition prec : Z := 53.
Definition emax : Z := 1024.

Definition float : Type := spec_float.

Definition NaN : float := S754_nan.

Definition isNaN (x : float) : bool :=
  match x with S754_nan => true | _ => false end.

Definition is_finite (x : float) : bool :=
  match x with S754_zero _ | S754_finite _ _ _ => true | _ => false end.

(** The relational operators; a comparison with NaN is false. *)
Definition num_lt (x y : float) : bool := SFltb x y.
Definition num_gt (x y : float) : bool := SFltb y x.
Definition num_ge (x y : float) : bool := SFleb y x.
Definition num_eq (x y : float) : bool := SFeqb x y.

Definition div (x y : float) : float := SFdiv prec emax x y.

(** The number nearest to the integer [n]. *)
Definition of_Z (n : Z) : float := binary_normalize prec emax n 0 false.

(** The number nearest to [m * 10^e] for [0 <= m], ties to even, with
    the sign [neg]. *)
Definition of_decimal (neg : bool) (m e : Z) : float :=
  match m with
  | Zpos p =>
    if (0 <=? e)%Z then binary_round prec emax neg (p * Z.to_pos (10 ^ e)) 0
    else
      let '(mz, ez, lz) :=
        SFdiv_core_binary prec emax (Zpos p) 0 (10 ^ (- e)) 0 in
      binary_round_aux prec emax neg mz ez lz
  | _ => S754_zero neg
  end.

(** The real number a finite float denotes. *)
Definition to_Q (x : float) : Q :=
  match x with
  | S754_finite s m e =>
    (if s then -1 else 1) * inject_Z (Zpos m) * Qpower 2 e
  | _ => 0
  end.

End Float64.

(** Exceptions the class can meet. *)
Inductive exn : Type :=
| Error (message : string)      (* [new Error(message)] *)
| RangeError
| TypeError
| SyntaxError.

Inductive Result (A : Type) : Type :=
| Ok (a : A)
| Throw (e : exn).

Arguments Ok {A} a.
Arguments Throw {A} e.

Module JsNumber.
Import JsString Float64.

Definition is_digit (c : ascii) : bool :=
  ((48 <=? code c) && (code c <=? 57))%N.

Definition digit_val (c : ascii) : Z := Z.of_N (code c) - 48.

(** DecimalDigits: the longest run of digits at the head of [s],
    accumulated onto [acc]; also its length and what follows. *)
Fixpoint read_digits (s : string) (acc len : Z) : Z * Z * string :=
  match s with
  | String c r =>
    if is_digit c then read_digits r (10 * acc + digit_val c)%Z (len + 1)%Z
    else (acc, len, s)
  | EmptyString => (acc, len, s)
  end.

(** ExponentPart, when one is there: [e] or [E], a sign, digits. *)
Definition read_exponent (s : string) : Z :=
  match s with
  | String c r =>
    if ((code c =? 101) || (code c =? 69))%N then
      let '(neg, r') :=
        match r with
        | String d r' =>
          if (code d =? 45)%N then (true, r')
          else if (code d =? 43)%N then (false, r')
          else (false, r)
        | EmptyString => (false, r)
        end in
      let '(v, n, _) := read_digits r' 0 0 in
      if (n =? 0)%Z then 0%Z else if neg then (- v)%Z else v
    else 0%Z
  | EmptyString => 0%Z
  end.

(** The longest prefix of [s] that is a StrUnsignedDecimalLiteral other
    than [Infinity], as [(m, e)] with value [m * 10^e]. *)
Definition read_decimal (s : string) : option (Z * Z) :=
  let '(ip, ilen, r1) := read_digits s 0 0 in
  match r1 with
  | String c r2 =>
    if (code c =? 46)%N then
      let '(m, flen, r3) := read_digits r2 ip 0 in
      if ((ilen =? 0) && (flen =? 0))%Z then None
      else Some (m, (read_exponent r3 - flen)%Z)
    else if (ilen =? 0)%Z then None
    else Some (ip, read_exponent r1)
  | EmptyString => if (ilen =? 0)%Z then None else Some (ip, 0%Z)
  end.

(** [parseFloat]: leading white space is skipped, the longest prefix
    that is a StrDecimalLiteral is read, what follows is ignored. *)
Definition parseFloat (input : string) : float :=
  let trimmed := trimStart input in
  let '(neg, body) :=
    match trimmed with
    | String c r =>
      if (code c =? 45)%N then (true, r)
      else if (code c =? 43)%N then (false, r)
      else (false, trimmed)
    | EmptyString => (false, trimmed)
    end in
  if prefix "Infinity" body then S754_infinity neg
  else match read_decimal body with
       | Some (m, e) => of_decimal neg m e
       | None => NaN
       end.

(** Decimal digits of a natural number. *)
Definition digits_of (n : Z) : string :=
  NilZero.string_of_uint (N.to_uint (Z.to_N n)).

Fixpoint zeros (k : nat) : string :=
  match k with
  | O => EmptyString
  | S k' => String "0" (zeros k')
  end.

Definition ndigits (n : Z) : Z := Z.of_nat (String.length (digits_of n)).

(** For [0 < a], the [n] with [10^(n-1) <= a < 10^n]. *)
Definition decimal_exponent (a : Q) : Z :=
  let d := (ndigits (Qnum a) - ndigits (Zpos (Qden a)))%Z in
  if Qle_bool (Qpower 10 d) a then (d + 1)%Z else d.

Definition same_float (x y : float) : bool :=
  match x, y with
  | S754_finite s1 m1 e1, S754_finite s2 m2 e2 =>
    Bool.eqb s1 s2 && (m1 =? m2)%positive && (e1 =? e2)%Z
  | _, _ => false
  end.

(** A [k]-digit integer [s] and an exponent [n] with [s * 10^(n-k)]
    rounding to [x], the nearest to [x] when two do. *)
Definition candidate (x : float) (a : Q) (n0 k : Z) : option (Z * Z) :=
  let scaled := a / Qpower 10 (n0 - k) in
  let lo := Qfloor scaled in
  let hi := (lo + 1)%Z in
  let ok_lo := same_float (of_decimal false lo (n0 - k)) x in
  let ok_hi := same_float (of_decimal false hi (n0 - k)) x in
  let norm s := if (s =? 10 ^ k)%Z then ((n0 + 1)%Z, (10 ^ (k - 1))%Z)
                else (n0, s) in
  if ok_lo && ok_hi then
    match Qcompare (scaled - inject_Z lo) (inject_Z hi - scaled) with
    | Lt => Some (norm lo)
    | Gt => Some (norm hi)
    | Eq => Some (norm (if Z.even lo then lo else hi))
    end
  else if ok_lo then Some (norm lo)
  else if ok_hi then Some (norm hi)
  else None.

(** The least [k] that has a candidate; seventeen digits always do. *)
Fixpoint shortest (fuel : nat) (x : float) (a : Q) (n0 k : Z) : Z * Z * Z :=
  match fuel with
  | O => (n0, k, Qfloor (a / Qpower 10 (n0 - k)))
  | S fuel' =>
    match candidate x a n0 k with
    | Some (n, s) => (n, k, s)
    | None => shortest fuel' x a n0 (k + 1)
    end
  end.

(** [Number::toString] in radix 10. *)
Definition Number_toString (x : float) : string :=
  match x with
  | S754_nan => "NaN"
  | S754_zero _ => "0"
  | S754_infinity s => if s then "-Infinity" else "Infinity"
  | S754_finite neg m e =>
    let ax := S754_finite false m e in
    let '(n, k, s) := shortest 17 ax (to_Q ax) (decimal_exponent (to_Q ax)) 1 in
    let ds := digits_of s in
    (if neg then "-" else EmptyString) ++
    (if ((k <=? n) && (n <=? 21))%Z then ds ++ zeros (Z.to_nat (n - k))
     else if ((0 <? n) && (n <=? 21))%Z then
       substring 0 (Z.to_nat n) ds ++ "." ++
       substring (Z.to_nat n) (Z.to_nat (k - n)) ds
     else if ((-6 <? n) && (n <=? 0))%Z then
       "0." ++ zeros (Z.to_nat (- n)) ++ ds
     else
       let ex := (if (n - 1 <? 0)%Z then "-" else "+")
                 ++ digits_of (Z.abs (n - 1)) in
       if (k =? 1)%Z then ds ++ "e" ++ ex
       else substring 0 1 ds ++ "." ++
            substring 1 (Z.to_nat (k - 1)) ds ++ "e" ++ ex)
  end.

(** The digits of [n] with a decimal point before the last [f]. *)
Definition fixed_digits (n : Z) (f : nat) : string :=
  let m := digits_of n in
  match f with
  | O => m
  | S _ =>
    let k := String.length m in
    let m := if (k <=? f)%nat then zeros (f + 1 - k) ++ m else m in
    let k := String.length m in
    substring 0 (k - f) m ++ "." ++ substring (k - f) f m
  end.

(** The integer [n] for which [n / 10^f - a] is closest to zero, the
    larger one when there are two. *)
Definition nearest_scaled (a : Q) (f : Z) : Z :=
  Qfloor (a * Qpower 10 f + (1 # 2)).

(** [Number.prototype.toFixed] *)
Definition toFixed (x : float) (fractionDigits : Z) : Result string :=
  if ((fractionDigits <? 0) || (100 <? fractionDigits))%Z then Throw RangeError
  else if negb (is_finite x) then Ok (Number_toString x)
  else
    let neg := num_lt x (S754_zero false) in
    let s := if neg then "-" else EmptyString in
    let ax := SFabs x in
    let m := if Qle_bool (Qpower 10 21) (to_Q ax) then Number_toString ax
             else fixed_digits (nearest_scaled (to_Q ax) fractionDigits)
                               (Z.to_nat fractionDigits) in
    Ok (s ++ m).

End JsNumber.

(* ================================================================= *)
(** ** The action *)

Module ComedPricing.
Import JsString Float64 JsNumber.

(** [interface ComedPriceData].  The feed is not validated, and the class
    guards every read of [price] with [?.] and [||]: [None] is an entry
    that carries no price. *)
Record ComedPriceData : Type := {
  millisUTC : string;
  price : option string
}.

Inductive Trend : Type := up | down | neutral.

Definition FIVE_MIN_API : string :=
  "https://hourlypricing.comed.com/api?type=5minutefeed&format=json".
Definition HOURLY_API : string :=
  "https://hourlypricing.comed.com/api?type=currenthouraverage&format=json".

(** *** Values of type [string | undefined] *)

Definition ToBoolean (v : option string) : bool :=
  match v with
  | Some s => negb (is_empty s)
  | None => false
  end.

Definition ToString (v : option string) : string :=
  match v with
  | Some s => s
  | None => "undefined"
  end.

(** [v === s] *)
Definition strict_eq (v : option string) (s : string) : bool :=
  match v with
  | Some s' => (s' =? s)%string
  | None => false
  end.

(** [v || d] *)
Definition or_else (v : option string) (d : string) : string :=
  match v with
  | Some s => if is_empty s then d else s
  | None => d
  end.

(** [data[i]?.price] *)
Definition price_at (data : list ComedPriceData) (i : nat) : option string :=
  match nth_error data i with
  | Some entry => price entry
  | None => None
  end.

(** *** calculateTrend *)

Definition calculateTrend (previousPrice : option string)
                          (currentPrice : string) : Trend :=
  if negb (ToBoolean previousPrice) || strict_eq previousPrice "N/A"
     || (currentPrice =? "N/A")%string
  then neutral
  else
    let prev := parseFloat (ToString previousPrice) in
    let current := parseFloat currentPrice in
    if isNaN prev || isNaN current then neutral
    else if num_gt current prev then up
    else if num_lt current prev then down
    else neutral.

(** *** formatPrice *)

Definition formatPrice (priceStr : string) : Result string :=
  if (priceStr =? "N/A")%string then Ok "N/A"
  else
    let cents := parseFloat priceStr in
    if isNaN cents then Ok "N/A"
    else
      let dollars := div cents (of_Z 100) in
      if num_ge dollars (of_Z 1) then
        match toFixed dollars 2 with
        | Ok d => Ok ("$" ++ d)
        | Throw e => Throw e
        end
      else
        match toFixed cents 1 with
        | Ok c => Ok (c ++ "¢")
        | Throw e => Throw e
        end.

(** *** generatePricingSVG *)

Definition isHighPrice (rawFiveMinPrice : string) : bool :=
  num_gt (parseFloat rawFiveMinPrice) (of_Z 10).

Definition primaryColor (rawFiveMinPrice : string) : string :=
  if isHighPrice rawFiveMinPrice then "#ff4444" else "#44ff44".

Definition secondaryColor : string := "#cccccc".
Definition backgroundColor : string := "#000000".

Definition trendColor (trend : Trend) : string :=
  match trend with
  | up => "#ff4444"
  | down => "#44ff44"
  | neutral => "#888888"
  end.

Definition trendSymbol (trend : Trend) : string :=
  match trend with
  | up => "▲"
  | down => "▼"
  | neutral => EmptyString
  end.

(** The interpolation on the trend line of the template. *)
Definition trendText (trend : Trend) : string :=
  match trend with
  | neutral => EmptyString
  | _ =>
    "<text x=" ++ q "60" ++ " y=" ++ q "28" ++ " text-anchor=" ++ q "middle"
    ++ " fill=" ++ q (trendColor trend)
    ++ " font-family=" ++ q "Arial, sans-serif" ++ " font-size=" ++ q "14"
    ++ ">" ++ trendSymbol trend ++ "</text>"
  end.

(** The template up to the fill colour of the 5-minute price. *)
Definition svgHead : string :=
  "<svg xmlns=" ++ q "http://www.w3.org/2000/svg" ++ " width=" ++ q "72"
  ++ " height=" ++ q "72" ++ " viewBox=" ++ q "0 0 72 72" ++ ">" ++ nl
  ++ tab ++ "<rect width=" ++ q "72" ++ " height=" ++ q "72"
  ++ " fill=" ++ q backgroundColor ++ " rx=" ++ q "8" ++ "/>" ++ nl
  ++ tab ++ nl
  ++ nl
  ++ tab ++ "<!-- 5-minute price (large, prominent) -->" ++ nl
  ++ tab ++ "<text x=" ++ q "26" ++ " y=" ++ q "28"
  ++ " text-anchor=" ++ q "middle" ++ " fill=" ++ dq.

(** From the closing quote of that colour to the 5-minute price. *)
Definition svgPrimary : string :=
  dq ++ " " ++ nl
  ++ tab ++ tab ++ "  font-family=" ++ q "Arial, sans-serif"
  ++ " font-size=" ++ q "18" ++ " font-weight=" ++ q "bold" ++ ">" ++ nl
  ++ tab ++ tab.

(** From the 5-minute price to the trend line. *)
Definition svgTrend : string :=
  nl ++ tab ++ "</text>" ++ nl ++ nl ++ "  ".

(** From the trend line to the hourly price. *)
Definition svgSecondary : string :=
  nl ++ nl
  ++ tab ++ "<!-- Hourly average (smaller) -->" ++ nl
  ++ tab ++ "<text x=" ++ q "36" ++ " y=" ++ q "54"
  ++ " text-anchor=" ++ q "middle" ++ " fill=" ++ q secondaryColor ++ " " ++ nl
  ++ tab ++ tab ++ "  font-family=" ++ q "Arial, sans-serif"
  ++ " font-size=" ++ q "14" ++ ">" ++ nl
  ++ tab ++ tab.

Definition svgTail : string :=
  " avg" ++ nl ++ tab ++ "</text>" ++ nl ++ "</svg>".

Definition generatePricingSVG (fiveMinPrice hourlyPrice rawFiveMinPrice : string)
                              (trend : Trend) : string :=
  trim (nl ++ svgHead ++ primaryColor rawFiveMinPrice ++ svgPrimary
        ++ fiveMinPrice ++ svgTrend ++ trendText trend ++ svgSecondary
        ++ hourlyPrice ++ svgTail).

(** *** generateErrorSVG *)

Definition generateErrorSVG : string :=
  trim (nl
    ++ "<svg xmlns=" ++ q "http://www.w3.org/2000/svg" ++ " width=" ++ q "72"
    ++ " height=" ++ q "72" ++ " viewBox=" ++ q "0 0 72 72" ++ ">" ++ nl
    ++ tab ++ "<rect width=" ++ q "72" ++ " height=" ++ q "72"
    ++ " fill=" ++ q "#000000" ++ " rx=" ++ q "8" ++ "/>" ++ nl
    ++ tab ++ "<text x=" ++ q "36" ++ " y=" ++ q "40"
    ++ " text-anchor=" ++ q "middle" ++ " fill=" ++ q "#ff4444" ++ " " ++ nl
    ++ tab ++ tab ++ "  font-family=" ++ q "Arial, sans-serif"
    ++ " font-size=" ++ q "14" ++ " font-weight=" ++ q "bold" ++ ">" ++ nl
    ++ tab ++ tab ++ "ERROR" ++ nl
    ++ tab ++ "</text>" ++ nl
    ++ "</svg>").

(** *** The host and the network *)

Record Settings : Type := {
  fiveMinPrice : string;
  hourlyPrice : string;
  fiveMinFormatted : string;
  hourlyFormatted : string;
  trend : Trend;
  lastUpdate : Z
}.

(** A call made on the host action, or on the console. *)
Inductive Call : Type :=
| setImage (image : string)
| setTitle (title : string)
| setSettings (settings : Settings)
| setState (state : Z)
| console_error (error : exn).

(** What [fetch] resolves to: the [ok] flag and what [json()] settles to. *)
Record Response : Type := {
  ok : bool;
  json : Result (list ComedPriceData)
}.

(** What one run of [updatePricing] reads from outside. *)
Record World : Type := {
  fetch : string -> Result Response;
  Date_now : Z
}.

(** State (the calls made so far) and exception. *)
Definition M (A : Type) : Type := list Call -> Result A * list Call.

Definition ret {A} (a : A) : M A := fun t => (Ok a, t).

Definition bind {A B} (m : M A) (k : A -> M B) : M B :=
  fun t =>
    match m t with
    | (Ok a, t') => k a t'
    | (Throw e, t') => (Throw e, t')
    end.

Definition throw {A} (e : exn) : M A := fun t => (Throw e, t).

(** [await] on a settled promise, or a call that may throw. *)
Definition await {A} (r : Result A) : M A := fun t => (r, t).

(** A call on the host, which is recorded. *)
Definition call (c : Call) : M unit := fun t => (Ok tt, (t ++ [c])%list).

Definition try_catch {A} (body : M A) (handler : exn -> M A) : M A :=
  fun t =>
    match body t with
    | (Throw e, t') => handler e t'
    | r => r
    end.

(** [Promise.all] of two promises; when both reject, the first in the
    array is reported. *)
Definition Promise_all {A B} (p1 : Result A) (p2 : Result B) : Result (A * B) :=
  match p1, p2 with
  | Ok a, Ok b => Ok (a, b)
  | Throw e, _ => Throw e
  | _, Throw e => Throw e
  end.

Notation "x <- m ;; k" := (bind m (fun x => k))
  (at level 61, m at next level, right associativity).
Notation "m ;;; k" := (bind m (fun _ => k))
  (at level 61, right associativity).

(** *** updatePricing *)

(** The state index: [fiveMinPriceNum > 10 ? 1 : 0]. *)
Definition state (currentFiveMinPrice : string) : Z :=
  let fiveMinPriceNum := parseFloat currentFiveMinPrice in
  if num_gt fiveMinPriceNum (of_Z 10) then 1%Z else 0%Z.

Definition dataURI (svg : string) : string :=
  "data:image/svg+xml," ++ encodeURIComponent svg.

Definition updatePricing (w : World) : M unit :=
  try_catch
    (responses <- await (Promise_all (fetch w FIVE_MIN_API) (fetch w HOURLY_API)) ;;
     let '(fiveMinResponse, hourlyResponse) := responses in
     if negb (ok fiveMinResponse) || negb (ok hourlyResponse)
     then throw (Error "API request failed")
     else
       fiveMinData <- await (json fiveMinResponse) ;;
       hourlyData <- await (json hourlyResponse) ;;
       let currentFiveMinPrice := or_else (price_at fiveMinData 0) "N/A" in
       let currentHourlyPrice := or_else (price_at hourlyData 0) "N/A" in
       let previousFiveMinPrice := price_at fiveMinData 1 in
       let trend := calculateTrend previousFiveMinPrice currentFiveMinPrice in
       fiveMinFormatted <- await (formatPrice currentFiveMinPrice) ;;
       hourlyFormatted <- await (formatPrice currentHourlyPrice) ;;
       let svg := generatePricingSVG fiveMinFormatted hourlyFormatted
                                     currentFiveMinPrice trend in
       call (setImage (dataURI svg)) ;;;
       call (setTitle EmptyString) ;;;
       let settings := {|
         fiveMinPrice := currentFiveMinPrice;
         hourlyPrice := currentHourlyPrice;
         fiveMinFormatted := fiveMinFormatted;
         hourlyFormatted := hourlyFormatted;
         trend := trend;
         lastUpdate := Date_now w
       |} in
       call (setSettings settings) ;;;
       call (setState (state currentFiveMinPrice)))
    (fun error =>
       call (console_error error) ;;;
       call (setTitle "Error") ;;;
       call (setImage (dataURI generateErrorSVG))).

(** The calls one run makes, in order. *)
Definition tick (w : World) : list Call := snd (updatePricing w []).

End ComedPricing.

(** The copy of [formatPrice] that [test/comed-pricing.test.js] asserts
    on; it has a third branch for prices under ten cents. *)
Module TestSuite.
Import JsString Float64 JsNumber.

Definition formatPrice (priceStr : string) : Result string :=
  if (priceStr =? "N/A")%string then Ok "N/A"
  else
    let cents := parseFloat priceStr in
    if isNaN cents then Ok "N/A"
    else
      let dollars := div cents (of_Z 100) in
      if num_ge dollars (of_Z 1) then
        match toFixed dollars 2 with
        | Ok d => Ok ("$" ++ d)
        | Throw e => Throw e
        end
      else if num_ge dollars (of_decimal false 1 (-1)) then
        match toFixed cents 1 with
        | Ok c => Ok (c ++ "¢")
        | Throw e => Throw e
        end
      else
        match toFixed cents 2 with
        | Ok c => Ok (c ++ "¢")
        | Throw e => Throw e
        end.

End TestSuite.

(* ================================================================= *)
(** ** Vocabulary of the statements *)

Module Spec.
Import JsString Float64 JsNumber ComedPricing.

(** An ASCII character other than white space: [strip] stops on it in
    either direction. *)
Definition plain_char (c : ascii) : bool :=
  negb (ws1 c) && (code c <? 128)%N.

Definition ascii7 (c : ascii) : bool := (code c <? 128)%N.

(** Any byte but the one that both triangles start with in UTF-8. *)
Definition no_glyph_lead (c : ascii) : bool := negb (code c =? 226)%N.

(** What rounding can return, the sign being given. *)
Definition has_sign (s : bool) (x : float) : Prop :=
  match x with
  | S754_zero s' | S754_infinity s' | S754_finite s' _ _ => s' = s
  | S754_nan => True
  end.

(** The up triangle in red and the down triangle in green, as the trend
    line of the icon draws them. *)
Definition redUpGlyph : string :=
  "<text x=" ++ q "60" ++ " y=" ++ q "28" ++ " text-anchor=" ++ q "middle"
  ++ " fill=" ++ q "#ff4444" ++ " font-family=" ++ q "Arial, sans-serif"
  ++ " font-size=" ++ q "14" ++ ">▲</text>".

Definition greenDownGlyph : string :=
  "<text x=" ++ q "60" ++ " y=" ++ q "28" ++ " text-anchor=" ++ q "middle"
  ++ " fill=" ++ q "#44ff44" ++ " font-family=" ++ q "Arial, sans-serif"
  ++ " font-size=" ++ q "14" ++ ">▼</text>".

(** The text element of the trend line, cut at its triangle. *)
Definition trendOpen (t : Trend) : string :=
  substring 0 (String.length (trendText t) - 10) (trendText t).

(** The request to [api] succeeded and its body holds [data]. *)
Definition fetched (w : World) (api : string) (data : list ComedPriceData) : Prop :=
  exists r, fetch w api = Ok r /\ ok r = true /\ json r = Ok data.

(** The entry at index [i] of a feed is missing, or has an empty or
    missing price. *)
Definition no_price (data : list ComedPriceData) (i : nat) : Prop :=
  nth_error data i = None \/
  exists entry, nth_error data i = Some entry /\
                (price entry = Some EmptyString \/ price entry = None).

(** [n] is the integer nearest to [a * 10^f], the larger one of two. *)
Definition nearest (a : Q) (f : nat) (n : Z) : Prop :=
  (inject_Z n - (1 # 2) <= a * Qpower 10 (Z.of_nat f)
   /\ a * Qpower 10 (Z.of_nat f) < inject_Z n + (1 # 2))%Q.

(** [r] is [x] rounded to [f] decimals: the sign of [x], then the integer
    nearest to [|x| * 10^f] with a decimal point before its last [f]
    digits. *)
Definition rounded (x : float) (f : nat) (r : string) : Prop :=
  is_finite x = true /\
  exists n, nearest (Qabs (to_Q x)) f n /\
            r = (if Qle_bool 0 (to_Q x) then EmptyString else "-")
                ++ fixed_digits n f.

(** The two upper branches of [format] as section 4.1 of the
    specification words them, for a price that parses. *)
Definition formats_as_documented (priceStr : string) : Prop :=
  let cents := parseFloat priceStr in
  let dollars := div cents (of_Z 100) in
  (num_ge dollars (of_Z 1) = true ->
   exists r, rounded dollars 2 r /\ formatPrice priceStr = Ok ("$" ++ r)) /\
  (num_ge dollars (of_decimal false 1 (-1)) = true -> num_lt dollars (of_Z 1) = true ->
   exists r, rounded cents 1 r /\ formatPrice priceStr = Ok (r ++ "¢")).

(** Sample runs. *)
Definition sample (p : string) : ComedPriceData :=
  {| millisUTC := "1640995200000"; price := Some p |}.

Definition feed (prices : list string) : Result Response :=
  Ok {| ok := true; json := Ok (map sample prices) |}.

Definition world (fiveMin hourly : Result Response) (now : Z) : World :=
  {| fetch := fun api => if (api =? FIVE_MIN_API)%string then fiveMin else hourly;
     Date_now := now |}.

End Spec.

(* ================================================================= *)
(** ** The copies in the test suite *)

(** The copies of [generatePricingSVG] and of the trend computation that
    [test/comed-pricing.test.js] asserts on.  The template is not the
    one of the class: other font sizes, the triangle further left, and
    a text element of its own for the label [avg].  The colours and the
    symbols are computed by the same statements as in the class. *)
Module TestSuiteCopies.
Import JsString Float64 JsNumber ComedPricing.

Definition trendText (trend : Trend) : string :=
  match trend with
  | neutral => EmptyString
  | _ =>
    "<text x=" ++ q "30" ++ " y=" ++ q "28" ++ " text-anchor=" ++ q "middle"
    ++ " fill=" ++ q (trendColor trend)
    ++ " font-family=" ++ q "Arial, sans-serif" ++ " font-size=" ++ q "14"
    ++ ">" ++ trendSymbol trend ++ "</text>"
  end.

(** The template up to the fill colour of the 5-minute price. *)
Definition svgHead : string :=
  "<svg xmlns=" ++ q "http://www.w3.org/2000/svg" ++ " width=" ++ q "72"
  ++ " height=" ++ q "72" ++ " viewBox=" ++ q "0 0 72 72" ++ ">" ++ nl
  ++ tab ++ "<rect width=" ++ q "72" ++ " height=" ++ q "72"
  ++ " fill=" ++ q backgroundColor ++ " rx=" ++ q "8" ++ "/>" ++ nl
  ++ tab ++ nl
  ++ tab ++ "<!-- 5-minute price (large, prominent) -->" ++ nl
  ++ tab ++ "<text x=" ++ q "26" ++ " y=" ++ q "28"
  ++ " text-anchor=" ++ q "middle" ++ " fill=" ++ dq.

(** From the closing quote of that colour to the 5-minute price. *)
Definition svgPrimary : string :=
  dq ++ " " ++ nl
  ++ tab ++ tab ++ "  font-family=" ++ q "Arial, sans-serif"
  ++ " font-size=" ++ q "17" ++ " font-weight=" ++ q "bold" ++ ">" ++ nl
  ++ tab ++ tab.

(** From the 5-minute price to the trend line. *)
Definition svgTrend : string :=
  nl ++ tab ++ "</text>" ++ nl
  ++ nl
  ++ tab ++ "<!-- Trend indicator triangle -->" ++ nl
  ++ tab.

(** From the trend line to the hourly price. *)
Definition svgSecondary : string :=
  nl ++ tab ++ nl
  ++ tab ++ "<!-- Hourly average (smaller) -->" ++ nl
  ++ tab ++ "<text x=" ++ q "36" ++ " y=" ++ q "54"
  ++ " text-anchor=" ++ q "middle" ++ " fill=" ++ q secondaryColor ++ " " ++ nl
  ++ tab ++ tab ++ "  font-family=" ++ q "Arial, sans-serif"
  ++ " font-size=" ++ q "12" ++ ">" ++ nl
  ++ tab ++ tab.

(** The end of the hourly text, and the label under it. *)
Definition svgTail : string :=
  nl ++ tab ++ "</text>" ++ nl
  ++ tab ++ nl
  ++ tab ++ "<!-- " ++ q "avg" ++ " label -->" ++ nl
  ++ tab ++ "<text x=" ++ q "36" ++ " y=" ++ q "65"
  ++ " text-anchor=" ++ q "middle" ++ " fill=" ++ q secondaryColor ++ " " ++ nl
  ++ tab ++ tab ++ "  font-family=" ++ q "Arial, sans-serif"
  ++ " font-size=" ++ q "10" ++ ">" ++ nl
  ++ tab ++ tab ++ "avg" ++ nl
  ++ tab ++ "</text>" ++ nl
  ++ "</svg>".

Definition generatePricingSVG (fiveMinPrice hourlyPrice rawFiveMinPrice : string)
                              (trend : Trend) : string :=
  trim (nl ++ svgHead ++ primaryColor rawFiveMinPrice ++ svgPrimary
        ++ fiveMinPrice ++ svgTrend ++ trendText trend ++ svgSecondary
        ++ hourlyPrice ++ svgTail).

Definition calculateTrendFromApi (apiData : list ComedPriceData) : Trend :=
  let currentPrice := or_else (price_at apiData 0) "N/A" in
  let previousPrice := price_at apiData 1 in
  if negb (ToBoolean previousPrice) || strict_eq previousPrice "N/A"
     || (currentPrice =? "N/A")%string
  then neutral
  else
    let prev := parseFloat (ToString previousPrice) in
    let current := parseFloat currentPrice in
    if isNaN prev || isNaN current then neutral
    else if num_gt current prev then up
    else if num_lt current prev then down
    else neutral.

End TestSuiteCopies.

(* ================================================================= *)
(** ** The timer of the action *)

(** [plugin.ts] registers one [ComedPricing] object, and every event of
    the action reaches that object: the field [updateInterval] is shared
    by all the keys that show the action.  [onWillAppear] is [async]: it
    runs up to its [await], and the rest of its body is a later step of
    the event loop, taken once the first run of [updatePricing] has
    settled.  Time is not measured: an interval fires when the event
    loop says so. *)
Module Lifecycle.

(** [ev.action], the key an event is for. *)
Definition Action : Type := nat.

(** What [setInterval] returns.  Every handle counts as true in
    [if (this.updateInterval)]. *)
Definition Timeout : Type := nat.

Definition UPDATE_INTERVAL_MS : Z := 60000.

(** An interval that was set and has not been cleared: its callback
    calls [updatePricing] on [target]. *)
Record Interval : Type := {
  handle : Timeout;
  target : Action;
  period : Z
}.

Record Plugin : Type := {
  updateInterval : option Timeout;    (* [this.updateInterval] *)
  intervals : list Interval;          (* the intervals of the event loop *)
  next_timeout : Timeout;             (* the handle [setInterval] gives next *)
  awaiting : list Action;             (* calls of [onWillAppear] at their [await] *)
  started : list Action               (* the runs of [updatePricing] begun *)
}.

Definition init : Plugin :=
  {| updateInterval := None; intervals := []; next_timeout := 0%nat;
     awaiting := []; started := [] |}.

(** [this.updatePricing(action)] is called. *)
Definition updatePricing_begins (a : Action) (p : Plugin) : Plugin :=
  {| updateInterval := updateInterval p; intervals := intervals p;
     next_timeout := next_timeout p; awaiting := awaiting p;
     started := (started p ++ [a])%list |}.

Definition setInterval (a : Action) (ms : Z) (p : Plugin) : Timeout * Plugin :=
  (next_timeout p,
   {| updateInterval := updateInterval p;
      intervals := (intervals p ++ [{| handle := next_timeout p; target := a;
                                       period := ms |}])%list;
      next_timeout := S (next_timeout p); awaiting := awaiting p;
      started := started p |}).

Definition clearInterval (h : Timeout) (p : Plugin) : Plugin :=
  {| updateInterval := updateInterval p;
     intervals := filter (fun i => negb (Nat.eqb (handle i) h)) (intervals p);
     next_timeout := next_timeout p; awaiting := awaiting p;
     started := started p |}.

Definition set_updateInterval (v : option Timeout) (p : Plugin) : Plugin :=
  {| updateInterval := v; intervals := intervals p;
     next_timeout := next_timeout p; awaiting := awaiting p;
     started := started p |}.

Definition set_awaiting (l : list Action) (p : Plugin) : Plugin :=
  {| updateInterval := updateInterval p; intervals := intervals p;
     next_timeout := next_timeout p; awaiting := l; started := started p |}.

(** Remove one occurrence. *)
Fixpoint remove_one (a : Action) (l : list Action) : list Action :=
  match l with
  | [] => []
  | b :: r => if Nat.eqb b a then r else b :: remove_one a r
  end.

(** [onWillAppear] up to its [await]. *)
Definition onWillAppear (a : Action) (p : Plugin) : Plugin :=
  set_awaiting (a :: awaiting p) (updatePricing_begins a p).

(** The rest of [onWillAppear], for a call that is at its [await]. *)
Definition onWillAppear_resumed (a : Action) (p : Plugin) : Plugin :=
  if existsb (Nat.eqb a) (awaiting p) then
    let '(h, p') := setInterval a UPDATE_INTERVAL_MS
                                (set_awaiting (remove_one a (awaiting p)) p) in
    set_updateInterval (Some h) p'
  else p.

Definition onWillDisappear (p : Plugin) : Plugin :=
  match updateInterval p with
  | Some h => set_updateInterval None (clearInterval h p)
  | None => p
  end.

Definition onKeyDown (a : Action) (p : Plugin) : Plugin :=
  updatePricing_begins a p.

(** The callback of the interval [h], when [h] is running. *)
Definition elapsed (h : Timeout) (p : Plugin) : Plugin :=
  match find (fun i => Nat.eqb (handle i) h) (intervals p) with
  | Some i => updatePricing_begins (target i) p
  | None => p
  end.

Inductive Event : Type :=
| WillAppear (a : Action)
| Resumed (a : Action)
| WillDisappear
| KeyDown (a : Action)
| Elapsed (h : Timeout).

Definition step (p : Plugin) (e : Event) : Plugin :=
  match e with
  | WillAppear a => onWillAppear a p
  | Resumed a => onWillAppear_resumed a p
  | WillDisappear => onWillDisappear p
  | KeyDown a => onKeyDown a p
  | Elapsed h => elapsed h p
  end.

Definition run (es : list Event) (p : Plugin) : Plugin := fold_left step es p.

(** The keys of [keys] appear one after the other, each first run
    settling before the next key appears. *)
Definition appear_all (keys : list Action) : list Event :=
  flat_map (fun a => [WillAppear a; Resumed a]) keys.

(** The handles in use are distinct and were given out by
    [setInterval]; the one held, if any, is of a running interval. *)
Definition consistent (p : Plugin) : Prop :=
  NoDup (map handle (intervals p)) /\
  (forall i, In i (intervals p) ->
             (handle i < next_timeout p)%nat /\ period i = UPDATE_INTERVAL_MS) /\
  (forall h, updateInterval p = Some h -> In h (map handle (intervals p))).

End Lifecycle.

(* ================================================================= *)
(** ** More vocabulary *)

Module Notions.
Import JsString Float64 JsNumber ComedPricing Spec.

(** The calls of a run that went wrong, and of one that went through. *)
Definition error_calls (e : exn) : list Call :=
  [ console_error e; setTitle "Error"; setImage (dataURI generateErrorSVG) ].

Definition display_calls (s : Settings) : list Call :=
  [ setImage (dataURI (generatePricingSVG (fiveMinFormatted s) (hourlyFormatted s)
                                          (fiveMinPrice s) (trend s)));
    setTitle EmptyString;
    setSettings s;
    setState (state (fiveMinPrice s)) ].

(** The trend of the same two prices taken in the other order. *)
Definition opposite (t : Trend) : Trend :=
  match t with
  | up => down
  | down => up
  | neutral => neutral
  end.

(** The comparison at the end of [calculateTrend], on the two numbers. *)
Definition trend_of_numbers (prev current : float) : Trend :=
  if isNaN prev || isNaN current then neutral
  else if num_gt current prev then up
  else if num_lt current prev then down
  else neutral.

(** The characters [toFixed] prints: digits, [. - + e], and the letters
    of [NaN] and [Infinity]. *)
Definition numeral_char (c : ascii) : bool :=
  is_digit c ||
  existsb (fun n => (code c =? n)%N)
          [46; 45; 43; 101; 78; 97; 73; 110; 102; 105; 116; 121]%N.

(** The bytes of a formatted price: those of a numeral, [$], the [/] and
    [A] of [N/A], and the two bytes of the cent sign. *)
Definition price_char (c : ascii) : bool :=
  numeral_char c || existsb (fun n => (code c =? n)%N) [36; 47; 65; 194; 162]%N.

(** The characters that open or close markup in SVG, and white space. *)
Definition markup_char (c : ascii) : bool :=
  existsb (fun n => (code c =? n)%N) [60; 62; 38; 34; 39]%N || ws1 c.

(** The bytes of [s] that satisfy [p], in order. *)
Fixpoint filter_chars (p : ascii -> bool) (s : string) : string :=
  match s with
  | EmptyString => EmptyString
  | String c r => if p c then String c (filter_chars p r) else filter_chars p r
  end.

(** What a percent-encoded string is made of. *)
Definition uri_char (c : ascii) : bool :=
  uri_unreserved c || (code c =? 37)%N.

(** The value of a hexadecimal digit as [hex_digit] writes it. *)
Definition hex_value (c : ascii) : N :=
  if (code c <? 58)%N then (code c - 48)%N else (code c - 55)%N.

(** The bytes that a percent-encoded string stands for. *)
Fixpoint percent_decode (s : string) : string :=
  match s with
  | EmptyString => EmptyString
  | String c r =>
    if (code c =? 37)%N then
      match r with
      | String h (String l r') =>
        String (ascii_of_N (16 * hex_value h + hex_value l)) (percent_decode r')
      | _ => s
      end
    else String c (percent_decode r)
  end.

(** The exponent of a binary64 number whose leading bit has the weight
    [2^(t-1)]. *)
Definition canonical_exponent (t : Z) : Z := Z.max (t - 53) (-1074).

(** A finite number is written in the one way binary64 allows: with the
    exponent of its magnitude. *)
Definition canonical (x : float) : Prop :=
  match x with
  | S754_finite _ m e => e = canonical_exponent (Zdigits2 (Zpos m) + e)
  | _ => True
  end.

(** A feed whose entries carry their own time stamps. *)
Definition stamped (entries : list (string * string)) : Result Response :=
  Ok {| ok := true;
        json := Ok (map (fun e => {| millisUTC := fst e; price := Some (snd e) |})
                        entries) |}.

End Notions.

(* ================================================================= *)
(** ** Runs in an environment that can fail *)

(** [updatePricing] once more, without the assumptions made above: a
    request or a body can stay pending, a body can be [null], and a call
    on the host action can be rejected or stay pending.  The code is the
    same; only what it runs against is wider. *)
Module Environment.
Import JsString Float64 JsNumber ComedPricing.

(** What a promise comes to. *)
Inductive Promise (A : Type) : Type :=
| fulfilled (a : A)
| rejected (e : exn)
| pending.
Arguments fulfilled {A} a.
Arguments rejected {A} e.
Arguments pending {A}.

(** What [json()] resolves to: [null], or a value with entries at its
    indices (an array; any other value that is not [null] is read the
    same way, through what it holds at [0] and [1]). *)
Inductive Body : Type :=
| null
| entries (data : list ComedPriceData).

Record Response : Type := {
  ok : bool;
  json : Promise Body
}.

(** What a run meets: the network, the clock, and the host.
    [hourly_first] tells which rejection came first when both requests
    are rejected.  [host t c] is what the call [c] on the action comes
    to when the calls [t] were made before it. *)
Record Env : Type := {
  fetch : string -> Promise Response;
  hourly_first : bool;
  Date_now : Z;
  host : list Call -> Call -> Promise unit
}.

(** The calls made so far, and what the computation has come to. *)
Definition M (A : Type) : Type := list Call -> Promise A * list Call.

Definition ret {A} (a : A) : M A := fun t => (fulfilled a, t).

Definition bind {A B} (m : M A) (k : A -> M B) : M B :=
  fun t =>
    match m t with
    | (fulfilled a, t') => k a t'
    | (rejected e, t') => (rejected e, t')
    | (pending, t') => (pending, t')
    end.

Definition throw {A} (e : exn) : M A := fun t => (rejected e, t).

(** [await p] *)
Definition await {A} (p : Promise A) : M A := fun t => (p, t).

(** An expression that may throw. *)
Definition eval {A} (r : Result A) : M A :=
  fun t => match r with
           | Ok a => (fulfilled a, t)
           | Throw e => (rejected e, t)
           end.

(** [await action.method(...)]: the call is made, then awaited. *)
Definition call (env : Env) (c : Call) : M unit :=
  fun t => (host env t c, (t ++ [c])%list).

(** [console.error(...)], which returns at once. *)
Definition log (e : exn) : M unit :=
  fun t => (fulfilled tt, (t ++ [console_error e])%list).

Definition try_catch {A} (body : M A) (handler : exn -> M A) : M A :=
  fun t =>
    match body t with
    | (rejected e, t') => handler e t'
    | r => r
    end.

(** [Promise.all] of two promises: rejected as soon as one is, fulfilled
    when both are, pending otherwise.  When both are rejected, the one
    that was rejected first is reported. *)
Definition Promise_all {A B} (second_first : bool)
                       (p1 : Promise A) (p2 : Promise B) : Promise (A * B) :=
  match p1, p2 with
  | rejected e1, rejected e2 => rejected (if second_first then e2 else e1)
  | rejected e, _ => rejected e
  | _, rejected e => rejected e
  | fulfilled a, fulfilled b => fulfilled (a, b)
  | _, _ => pending
  end.

(** [data[i]?.price]: reading an index of [null] throws. *)
Definition price_of (data : Body) (i : nat) : Result (option string) :=
  match data with
  | null => Throw TypeError
  | entries l => Ok (price_at l i)
  end.

Notation "x <== m ;; k" := (bind m (fun x => k))
  (at level 61, m at next level, right associativity).
Notation "m >>> k" := (bind m (fun _ => k))
  (at level 61, right associativity).

Definition updatePricing (env : Env) : M unit :=
  try_catch
    (responses <== await (Promise_all (hourly_first env)
                                     (fetch env FIVE_MIN_API)
                                     (fetch env HOURLY_API)) ;;
     let '(fiveMinResponse, hourlyResponse) := responses in
     if negb (ok fiveMinResponse) || negb (ok hourlyResponse)
     then throw (Error "API request failed")
     else
       fiveMinData <== await (json fiveMinResponse) ;;
       hourlyData <== await (json hourlyResponse) ;;
       first5 <== eval (price_of fiveMinData 0) ;;
       let currentFiveMinPrice := or_else first5 "N/A" in
       firstHourly <== eval (price_of hourlyData 0) ;;
       let currentHourlyPrice := or_else firstHourly "N/A" in
       previousFiveMinPrice <== eval (price_of fiveMinData 1) ;;
       let trend := calculateTrend previousFiveMinPrice currentFiveMinPrice in
       fiveMinFormatted <== eval (formatPrice currentFiveMinPrice) ;;
       hourlyFormatted <== eval (formatPrice currentHourlyPrice) ;;
       let svg := generatePricingSVG fiveMinFormatted hourlyFormatted
                                     currentFiveMinPrice trend in
       call env (setImage (dataURI svg)) >>>
       call env (setTitle EmptyString) >>>
       let settings := {|
         fiveMinPrice := currentFiveMinPrice;
         hourlyPrice := currentHourlyPrice;
         fiveMinFormatted := fiveMinFormatted;
         hourlyFormatted := hourlyFormatted;
         trend := trend;
         lastUpdate := Date_now env
       |} in
       call env (setSettings settings) >>>
       call env (setState (state currentFiveMinPrice)))
    (fun error =>
       log error >>>
       call env (setTitle "Error") >>>
       call env (setImage (dataURI generateErrorSVG))).

(** The calls one run makes, in order. *)
Definition tick (env : Env) : list Call := snd (updatePricing env []).

(** *** Vocabulary *)

(** Every call on the host is answered. *)
Definition host_answers (env : Env) : Prop :=
  forall t c, host env t c = fulfilled tt.

(** The request to [api] settles, and so does the body of its response
    when it is read. *)
Definition settled (env : Env) (api : string) : Prop :=
  fetch env api <> pending /\
  forall r, fetch env api = fulfilled r -> json r <> pending.

(** The request to [api] was answered with a success and an array. *)
Definition delivered (env : Env) (api : string) (data : list ComedPriceData)
  : Prop :=
  exists r, fetch env api = fulfilled r /\ ok r = true
            /\ json r = fulfilled (entries data).

(** [shown] is an initial part of [all]. *)
Definition initial (shown all : list Call) : Prop :=
  exists rest, all = (shown ++ rest)%list.

(** The part of the [try] block that makes no call: from the requests
    to the record that is stored. *)
Definition gather (env : Env) : M Settings :=
  responses <== await (Promise_all (hourly_first env)
                                     (fetch env FIVE_MIN_API)
                                   (fetch env HOURLY_API)) ;;
  let '(fiveMinResponse, hourlyResponse) := responses in
  if negb (ok fiveMinResponse) || negb (ok hourlyResponse)
  then throw (Error "API request failed")
  else
    fiveMinData <== await (json fiveMinResponse) ;;
    hourlyData <== await (json hourlyResponse) ;;
    first5 <== eval (price_of fiveMinData 0) ;;
    let currentFiveMinPrice := or_else first5 "N/A" in
    firstHourly <== eval (price_of hourlyData 0) ;;
    let currentHourlyPrice := or_else firstHourly "N/A" in
    previousFiveMinPrice <== eval (price_of fiveMinData 1) ;;
    let trend := calculateTrend previousFiveMinPrice currentFiveMinPrice in
    fiveMinFormatted <== eval (formatPrice currentFiveMinPrice) ;;
    hourlyFormatted <== eval (formatPrice currentHourlyPrice) ;;
    ret {| fiveMinPrice := currentFiveMinPrice;
           hourlyPrice := currentHourlyPrice;
           fiveMinFormatted := fiveMinFormatted;
           hourlyFormatted := hourlyFormatted;
           trend := trend;
           lastUpdate := Date_now env |}.

(** The four calls of the [try] block, for the record [s]. *)
Definition show (env : Env) (s : Settings) : M unit :=
  call env (setImage (dataURI (generatePricingSVG
                                 (fiveMinFormatted s) (hourlyFormatted s)
                                 (fiveMinPrice s) (trend s)))) >>>
  call env (setTitle EmptyString) >>>
  call env (setSettings s) >>>
  call env (setState (state (fiveMinPrice s))).

(** The [catch] block. *)
Definition report (env : Env) (error : exn) : M unit :=
  log error >>>
  call env (setTitle "Error") >>>
  call env (setImage (dataURI generateErrorSVG)).




(** A host that rejects every [setImage] with [e] and answers the other
    calls. *)
Definition no_image (e : exn) (t : list Call) (c : Call) : Promise unit :=
  match c with
  | setImage _ => rejected e
  | _ => fulfilled tt
  end.

(** An answer with the status [200] and the body [body]. *)
Definition answer (body : Body) : Promise Response :=
  fulfilled {| ok := true; json := fulfilled body |}.

Definition environment (fiveMin hourly : Promise Response) (now : Z)
                       (h : list Call -> Call -> Promise unit) : Env :=
  {| fetch := fun api => if (api =? FIVE_MIN_API)%string then fiveMin else hourly;
     hourly_first := false;
     Date_now := now;
     host := h |}.

End Environment.

(* ================================================================= *)
(** ** Facts about strings *)

Module StringFacts.
Import JsString Spec.

Lemma append_nil_r (s : string) : s ++ EmptyString = s.
Proof. induction s as [|c s IH]; simpl; [reflexivity | now rewrite IH]. Qed.

Lemma append_assoc (a b c : string) : (a ++ b) ++ c = a ++ (b ++ c).
Proof. induction a as [|x a IH]; simpl; [reflexivity | now rewrite IH]. Qed.

Lemma rev_append_app (a b acc : string) :
  rev_append (a ++ b) acc = rev_append b (rev_append a acc).
Proof.
  revert acc; induction a as [|x a IH]; intros acc; simpl; [reflexivity | apply IH].
Qed.

Lemma rev_append_rev_append (s a b : string) :
  rev_append (rev_append s a) b = rev_append a (s ++ b).
Proof.
  revert a b; induction s as [|x s IH]; intros a b; simpl; [reflexivity |].
  now rewrite IH.
Qed.

Lemma rev_involutive (s : string) : rev (rev s) = s.
Proof.
  unfold rev. rewrite rev_append_rev_append. simpl. apply append_nil_r.
Qed.

Lemma strip_stops (fwd : bool) (c : ascii) (r : string) :
  plain_char c = true -> strip fwd (String c r) = String c r.
Proof.
  unfold plain_char. intros H.
  apply andb_true_iff in H as [H1 H2].
  apply negb_true_iff in H1. apply N.ltb_lt in H2.
  assert (N160 : (code c =? 160)%N = false) by (apply N.eqb_neq; lia).
  assert (N194 : (code c =? 194)%N = false) by (apply N.eqb_neq; lia).
  assert (N128 : (code c =? 128)%N = false) by (apply N.eqb_neq; lia).
  assert (L128 : (128 <=? code c)%N = false) by (apply N.leb_gt; lia).
  assert (N168 : (code c =? 168)%N = false) by (apply N.eqb_neq; lia).
  assert (N169 : (code c =? 169)%N = false) by (apply N.eqb_neq; lia).
  assert (N175 : (code c =? 175)%N = false) by (apply N.eqb_neq; lia).
  assert (N159 : (code c =? 159)%N = false) by (apply N.eqb_neq; lia).
  assert (N191 : (code c =? 191)%N = false) by (apply N.eqb_neq; lia).
  assert (N225 : (code c =? 225)%N = false) by (apply N.eqb_neq; lia).
  assert (N226 : (code c =? 226)%N = false) by (apply N.eqb_neq; lia).
  assert (N227 : (code c =? 227)%N = false) by (apply N.eqb_neq; lia).
  assert (N239 : (code c =? 239)%N = false) by (apply N.eqb_neq; lia).
  simpl. rewrite H1.
  destruct r as [|c2 r2]; [reflexivity |].
  assert (E2 : (if fwd then ws2 c c2 else ws2 c2 c) = false).
  { unfold ws2. rewrite N160, N194, andb_false_r. now destruct fwd. }
  rewrite E2.
  destruct r2 as [|c3 r3]; [reflexivity |].
  assert (E3 : (if fwd then ws3 c c2 c3 else ws3 c3 c2 c) = false).
  { unfold ws3. cbv zeta.
    rewrite N128, L128, N168, N169, N175, N159, N191, N225, N226, N227, N239.
    rewrite !andb_false_r. now destruct fwd. }
  now rewrite E3.
Qed.

Lemma trimEnd_stops (s : string) (c : ascii) :
  plain_char c = true ->
  trimEnd (s ++ String c EmptyString) = s ++ String c EmptyString.
Proof.
  intros H. unfold trimEnd.
  assert (E : rev (s ++ String c EmptyString) = String c (rev s)).
  { unfold rev. rewrite rev_append_app. reflexivity. }
  rewrite E, (strip_stops _ _ _ H), <- E.
  apply rev_involutive.
Qed.

(** [trim] on a template literal that opens with a line break before
    its first tag and closes on a tag. *)
Lemma trim_markup (body : string) :
  trim (nl ++ "<" ++ body ++ ">") = "<" ++ body ++ ">".
Proof.
  unfold trim.
  assert (E : trimStart (nl ++ "<" ++ body ++ ">") = ("<" ++ body) ++ ">").
  { rewrite append_assoc.
    unfold trimStart, nl, chr. simpl.
    apply (strip_stops true "<"). reflexivity. }
  rewrite E. apply trimEnd_stops. reflexivity.
Qed.

Lemma all_chars_app (p : ascii -> bool) (a b : string) :
  all_chars p (a ++ b) = all_chars p a && all_chars p b.
Proof.
  induction a as [|x a IH]; simpl; [reflexivity |].
  now rewrite IH, andb_assoc.
Qed.

Lemma all_chars_impl (p r : ascii -> bool) (s : string) :
  (forall c, p c = true -> r c = true) ->
  all_chars p s = true -> all_chars r s = true.
Proof.
  intros Hpr. induction s as [|x s IH]; simpl; [reflexivity |].
  intros H. apply andb_true_iff in H as [H1 H2].
  now rewrite (Hpr _ H1), (IH H2).
Qed.

Lemma all_chars_substring (p : ascii -> bool) (s : string) (n m : nat) :
  all_chars p s = true -> all_chars p (substring n m s) = true.
Proof.
  revert n m. induction s as [|x s IH]; intros n m H.
  - destruct n, m; reflexivity.
  - simpl in H. apply andb_true_iff in H as [H1 H2].
    destruct n as [|n]; simpl.
    + destruct m as [|m]; simpl; [reflexivity |].
      now rewrite H1, (IH 0%nat m H2).
    + now apply IH.
Qed.

Lemma prefix_app (p z : string) : prefix p (p ++ z) = true.
Proof.
  induction p as [|x p IH]; simpl; [now destruct z |].
  destruct (ascii_dec x x); [exact IH | congruence].
Qed.

Lemma prefix_inv (p s : string) :
  prefix p s = true -> exists z, s = p ++ z.
Proof.
  revert s. induction p as [|x p IH]; intros s H.
  - now exists s.
  - destruct s as [|y s]; simpl in H; [discriminate |].
    destruct (ascii_dec x y) as [->|]; [| discriminate].
    destruct (IH _ H) as [z ->]. now exists z.
Qed.

Lemma includes_prefix (s p : string) :
  prefix p s = true -> includes s p = true.
Proof. intros H. destruct s; cbn [includes]; now rewrite H. Qed.

Lemma includes_here (a p z : string) : includes (a ++ p ++ z) p = true.
Proof.
  induction a as [|x a IH].
  - change (EmptyString ++ p ++ z) with (p ++ z). apply includes_prefix, prefix_app.
  - simpl. rewrite IH. apply orb_true_r.
Qed.

Lemma includes_inv (s p : string) :
  includes s p = true -> exists a z, s = a ++ p ++ z.
Proof.
  induction s as [|x s IH]; cbn [includes]; intros H.
  - rewrite orb_false_r in H. apply prefix_inv in H as [z ->].
    now exists EmptyString, z.
  - apply orb_true_iff in H as [H | H].
    + apply prefix_inv in H as [z ->]. now exists EmptyString, z.
    + destruct (IH H) as (a & z & ->). now exists (String x a), z.
Qed.

(** An occurrence of [a ++ b] holds an occurrence of [b]. *)
Lemma includes_suffix (s a b : string) :
  includes s (a ++ b) = true -> includes s b = true.
Proof.
  intros H. apply includes_inv in H as (u & z & ->).
  rewrite append_assoc, <- (append_assoc u a). apply includes_here.
Qed.

(** A pattern whose first byte is nowhere in [s] is not in [s]. *)
Lemma includes_absent (p : ascii -> bool) (c : ascii) (pat s : string) :
  p c = false -> all_chars p s = true -> includes s (String c pat) = false.
Proof.
  intros Hc. induction s as [|x s IH]; simpl; intros H; [reflexivity |].
  apply andb_true_iff in H as [H1 H2].
  rewrite (IH H2), orb_false_r.
  destruct (ascii_dec c x) as [->|]; [congruence | reflexivity].
Qed.

(** ... and is not found before the end of such an [s]. *)
Lemma includes_skip (p : ascii -> bool) (c : ascii) (pat s z : string) :
  p c = false -> all_chars p s = true ->
  includes (s ++ z) (String c pat) = includes z (String c pat).
Proof.
  intros Hc. induction s as [|x s IH]; simpl; intros H; [reflexivity |].
  apply andb_true_iff in H as [H1 H2].
  rewrite (IH H2).
  destruct (ascii_dec c x) as [->|]; [congruence | reflexivity].
Qed.

End StringFacts.

(* ================================================================= *)
(** ** Facts about numbers *)

Module FloatFacts.
Import Float64 Spec.

(** *** Comparison *)

Lemma SFcompare_antisym (x y : float) :
  SFcompare y x = option_map CompOpp (SFcompare x y).
Proof.
  destruct x as [sx|sx| |sx mx ex], y as [sy|sy| |sy my ey]; simpl;
    try reflexivity;
    try (destruct sx; reflexivity);
    try (destruct sy; reflexivity);
    try (destruct sx, sy; reflexivity).
  destruct sx, sy; try reflexivity;
    rewrite (Z.compare_antisym ey ex);
    destruct (ey ?= ex)%Z; simpl; try reflexivity;
    rewrite (Pos.compare_cont_antisym mx my Eq); simpl;
    try rewrite CompOpp_involutive; reflexivity.
Qed.

Lemma gt_lt_exclusive (x y : float) : num_gt x y = true -> num_lt x y = false.
Proof.
  unfold num_gt, num_lt, SFltb. rewrite (SFcompare_antisym x y).
  destruct (SFcompare x y) as [[]|]; simpl; congruence.
Qed.

Lemma eq_not_gt (x y : float) : num_eq x y = true -> num_gt x y = false.
Proof.
  unfold num_gt, num_eq, SFltb, SFeqb. rewrite (SFcompare_antisym x y).
  destruct (SFcompare x y) as [[]|]; simpl; congruence.
Qed.

Lemma eq_not_lt (x y : float) : num_eq x y = true -> num_lt x y = false.
Proof.
  unfold num_lt, num_eq, SFltb, SFeqb.
  destruct (SFcompare x y) as [[]|]; simpl; congruence.
Qed.

Lemma SFcompare_defined (x y : float) :
  isNaN x = false -> isNaN y = false -> exists c, SFcompare x y = Some c.
Proof.
  destruct x, y; simpl; try discriminate; intros _ _; eexists; reflexivity.
Qed.

(** Two numbers are ordered or equal. *)
Lemma trichotomy (x y : float) :
  isNaN x = false -> isNaN y = false ->
  num_gt x y = true \/ num_lt x y = true \/ num_eq x y = true.
Proof.
  intros Hx Hy. destruct (SFcompare_defined x y Hx Hy) as [c Hc].
  unfold num_gt, num_lt, num_eq, SFltb, SFeqb. rewrite (SFcompare_antisym x y), Hc.
  destruct c; simpl; auto.
Qed.

Lemma binary_round_aux_sign (s : bool) (m e : Z) (l : location) :
  has_sign s (binary_round_aux prec emax s m e l).
Proof.
  unfold binary_round_aux.
  destruct (shr_fexp prec emax m e l) as [mrs' e'].
  destruct (shr_fexp prec emax _ e' loc_Exact) as [mrs'' e''].
  destruct (shr_m mrs''); simpl; [reflexivity | | exact I].
  match goal with |- context [if ?b then _ else _] => destruct b end; reflexivity.
Qed.

Lemma div_sign (s : bool) (m : positive) (e : Z) (my : positive) (ey : Z) :
  has_sign s (div (S754_finite s m e) (S754_finite false my ey)).
Proof.
  unfold div, SFdiv.
  destruct (SFdiv_core_binary _ _ _ _ _ _) as [[mz ez] lz].
  replace (xorb s false) with s by now destruct s.
  apply binary_round_aux_sign.
Qed.

Lemma lt_not_ge (x y : float) : num_lt x y = true -> num_ge x y = false.
Proof.
  unfold num_lt, num_ge, SFltb, SFleb. rewrite (SFcompare_antisym x y).
  destruct (SFcompare x y) as [[]|]; simpl; congruence.
Qed.

(** A number that is at least a positive one is positive. *)
Lemma ge_positive (x : float) (m : positive) (e : Z) :
  num_ge x (S754_finite false m e) = true ->
  x = S754_infinity false \/ exists m' e', x = S754_finite false m' e'.
Proof.
  unfold num_ge, SFleb.
  destruct x as [s|s| |s m' e']; try discriminate.
  - destruct s; [discriminate | now left].
  - destruct s; [discriminate |]. right. now exists m', e'.
Qed.

(** *** Rounding keeps large values large *)

Local Open Scope Z_scope.

Lemma digits2_pos_bounds (p : positive) :
  2 ^ (Zpos (digits2_pos p) - 1) <= Zpos p < 2 ^ Zpos (digits2_pos p).
Proof.
  induction p as [p IH | p IH |]; cbn [digits2_pos].
  - rewrite Pos2Z.inj_succ, (Pos2Z.inj_xI p).
    replace (Z.succ (Zpos (digits2_pos p)) - 1)
      with (Z.succ (Zpos (digits2_pos p) - 1)) by lia.
    rewrite !Z.pow_succ_r by lia.
    generalize dependent (2 ^ (Zpos (digits2_pos p) - 1)).
    generalize (2 ^ Zpos (digits2_pos p)). intros; lia.
  - rewrite Pos2Z.inj_succ, (Pos2Z.inj_xO p).
    replace (Z.succ (Zpos (digits2_pos p)) - 1)
      with (Z.succ (Zpos (digits2_pos p) - 1)) by lia.
    rewrite !Z.pow_succ_r by lia.
    generalize dependent (2 ^ (Zpos (digits2_pos p) - 1)).
    generalize (2 ^ Zpos (digits2_pos p)). intros; lia.
  - cbn. lia.
Qed.

Lemma Zdigits2_bounds (m : Z) :
  0 < m -> 0 < Zdigits2 m /\ 2 ^ (Zdigits2 m - 1) <= m < 2 ^ Zdigits2 m.
Proof.
  destruct m as [|p|p]; try lia. intros _. cbn [Zdigits2].
  split; [lia | apply digits2_pos_bounds].
Qed.

Lemma shr_1_m (r : shr_record) :
  0 <= shr_m r -> shr_m (shr_1 r) = shr_m r / 2.
Proof.
  destruct r as [m rb sb]. cbn [shr_m]. intros Hm.
  destruct m as [|[p|p|]|p]; cbn [shr_1 shr_m]; try lia.
  - reflexivity.
  - rewrite (Pos2Z.inj_xI p). apply Z.div_unique with 1; lia.
  - rewrite (Pos2Z.inj_xO p). apply Z.div_unique with 0; lia.
  - reflexivity.
Qed.

Lemma iter_pos_shr_m (n : positive) (r : shr_record) :
  0 <= shr_m r ->
  shr_m (iter_pos shr_1 n r) = shr_m r / 2 ^ Zpos n.
Proof.
  revert r. induction n as [n IH | n IH |]; intros r Hr; cbn [iter_pos].
  - assert (H1 : 0 <= shr_m (shr_1 r))
      by (rewrite shr_1_m by exact Hr; apply Z.div_pos; lia).
    assert (H2 : 0 <= shr_m (iter_pos shr_1 n (shr_1 r)))
      by (rewrite IH by exact H1; apply Z.div_pos; lia).
    rewrite IH by exact H2. rewrite IH by exact H1. rewrite shr_1_m by exact Hr.
    rewrite !Z.div_div by lia. f_equal.
    rewrite (Pos2Z.inj_xI n).
    replace (2 * Zpos n + 1) with (1 + Zpos n + Zpos n) by lia.
    rewrite !Z.pow_add_r by lia. lia.
  - assert (H2 : 0 <= shr_m (iter_pos shr_1 n r))
      by (rewrite IH by exact Hr; apply Z.div_pos; lia).
    rewrite IH by exact H2. rewrite IH by exact Hr.
    rewrite Z.div_div by lia. f_equal.
    rewrite (Pos2Z.inj_xO n).
    replace (2 * Zpos n) with (Zpos n + Zpos n) by lia.
    rewrite Z.pow_add_r by lia. lia.
  - rewrite shr_1_m by exact Hr. reflexivity.
Qed.

Lemma shr_record_of_loc_m (m : Z) (l : location) :
  shr_m (shr_record_of_loc m l) = m.
Proof. destruct l as [|[]]; reflexivity. Qed.

(** Shifting to the canonical exponent keeps a mantissa positive, unless
    the value is below the least subnormal number. *)
Lemma shr_fexp_lower (m e : Z) (l : location) (mrs : shr_record) (e' : Z) :
  0 < m -> -1074 < Zdigits2 m + e ->
  shr_fexp prec emax m e l = (mrs, e') ->
  0 < shr_m mrs /\ e <= e' /\ Zdigits2 m + e - 53 <= e'.
Proof.
  intros Hm Hd. destruct (Zdigits2_bounds m Hm) as [Dp [Dl Du]].
  unfold shr_fexp, shr, fexp, emin, prec, emax.
  set (d := Zdigits2 m) in *.
  destruct (Z.max (d + e - 53) (3 - 1024 - 53) - e) as [|n|n] eqn:En;
    intros [= <- <-].
  - rewrite shr_record_of_loc_m. lia.
  - rewrite iter_pos_shr_m by (rewrite shr_record_of_loc_m; lia).
    rewrite shr_record_of_loc_m. split; [| lia].
    apply Z.div_str_pos. split; [apply Z.pow_pos_nonneg; lia |].
    apply Z.le_trans with (2 ^ (d - 1)); [| exact Dl].
    apply Z.pow_le_mono_r; lia.
  - rewrite shr_record_of_loc_m. lia.
Qed.

Lemma round_nearest_even_lower (m : Z) (l : location) :
  m <= round_nearest_even m l.
Proof.
  unfold round_nearest_even. destruct l as [|[]]; try lia.
  destruct (Z.even m); lia.
Qed.

(** A value of at least one rounds to a number with a non-negative
    exponent, or to infinity. *)
Lemma binary_round_aux_lower (s : bool) (m e : Z) (l : location) :
  0 < m -> 0 <= e \/ 53 <= Zdigits2 m + e ->
  match binary_round_aux prec emax s m e l with
  | S754_infinity _ => True
  | S754_finite _ _ e2 => 0 <= e2
  | _ => False
  end.
Proof.
  intros Hm He. destruct (Zdigits2_bounds m Hm) as [Dp _].
  unfold binary_round_aux.
  destruct (shr_fexp prec emax m e l) as [mrs1 e1] eqn:E1.
  apply shr_fexp_lower in E1 as (M1 & L1 & L1'); [| exact Hm | lia].
  set (r := round_nearest_even (shr_m mrs1) (loc_of_shr_record mrs1)).
  assert (Hr : 0 < r)
    by (pose proof (round_nearest_even_lower (shr_m mrs1) (loc_of_shr_record mrs1));
        fold r in H; lia).
  destruct (Zdigits2_bounds r Hr) as [Dr _].
  destruct (shr_fexp prec emax r e1 loc_Exact) as [mrs2 e2] eqn:E2.
  apply shr_fexp_lower in E2 as (M2 & L2 & _); [| exact Hr | lia].
  destruct (shr_m mrs2); try lia.
  destruct (e2 <=? emax - prec); [lia | exact I].
Qed.

Local Close Scope Z_scope.

(** *** Division by one hundred *)

Lemma hundred_eq : of_Z 100 = S754_finite false 7036874417766400 (-46).
Proof. reflexivity. Qed.

Lemma one_eq : of_Z 1 = S754_finite false 4503599627370496 (-52).
Proof. reflexivity. Qed.

(** A positive number of at least [10^21] has its leading bit at
    position 70 or above. *)
Lemma large_has_70_bits (m : positive) (e : Z) :
  Qle_bool (Qpower 10 21) (to_Q (S754_finite false m e)) = true ->
  (70 <= Zpos (digits2_pos m) + e)%Z.
Proof.
  intros H. apply Qle_bool_iff in H.
  destruct (Z_le_gt_dec 70 (Zpos (digits2_pos m) + e)) as [|G]; [assumption |].
  exfalso. revert H. apply Qlt_not_le.
  pose proof (digits2_pos_bounds m) as [_ B].
  set (d := Zpos (digits2_pos m)) in *.
  cbn [to_Q].
  apply Qlt_le_trans with (Qpower 2 d * Qpower 2 e).
  - rewrite Qmult_1_l. apply Qmult_lt_r; [now apply Qpower_0_lt |].
    rewrite <- (Zpower_Qpower 2 d) by (unfold d; lia).
    rewrite <- Zlt_Qlt. exact B.
  - rewrite <- Qpower_plus by discriminate.
    apply Qle_trans with (Qpower 2 69).
    + apply Qpower_le_compat_l; [lia | discriminate].
    + discriminate.
Qed.

Local Open Scope Z_scope.

Lemma div_core_large (m : positive) (e : Z) :
  70 <= Zpos (digits2_pos m) + e ->
  exists q e' l,
    SFdiv_core_binary prec emax (Zpos m) e 7036874417766400 (-46) = (q, e', l)
    /\ 0 < q /\ (0 <= e' \/ 53 <= Zdigits2 q + e').
Proof.
  intros H70.
  pose proof (digits2_pos_bounds m) as [Bl Bu].
  unfold SFdiv_core_binary.
  change (Zdigits2 7036874417766400) with 53.
  change (Zdigits2 (Zpos m)) with (Zpos (digits2_pos m)).
  set (d := Zpos (digits2_pos m)) in *.
  unfold fexp, emin, prec, emax.
  set (e' := Z.min (Z.max (d + e - (53 + -46) - 53) (3 - 1024 - 53)) (e - -46)).
  set (s := e - -46 - e').
  set (m' := match s with
             | 0 => Zpos m
             | Zpos _ => Z.shiftl (Zpos m) s
             | Zneg _ => 0
             end).
  destruct (Z.div_eucl m' 7036874417766400) as [q r] eqn:E.
  assert (Q : q = m' / 7036874417766400) by (unfold Z.div; now rewrite E).
  exists q, e', (new_location 7036874417766400 r).
  split; [reflexivity |].
  assert (P105 : 2 ^ 105 = 40564819207303340847894502572032) by reflexivity.
  assert (P53 : 2 ^ 53 = 9007199254740992) by reflexivity.
  destruct (Z_le_gt_dec (d + e - 60) (e + 46)) as [A | B].
  - (* the quotient is computed on 106 bits *)
    assert (Ee : e' = d + e - 60) by (unfold e'; lia).
    assert (Es : s = 106 - d) by (unfold s; lia).
    assert (Hm' : 2 ^ 105 <= m').
    { assert (M : m' = Zpos m * 2 ^ s).
      { unfold m'. destruct s as [|p|p] eqn:S; try lia.
        apply Z.shiftl_mul_pow2. lia. }
      rewrite M.
      replace 105 with ((d - 1) + s) by lia.
      rewrite Z.pow_add_r by lia.
      apply Z.mul_le_mono_nonneg_r; [apply Z.pow_nonneg; lia | exact Bl]. }
    split; [| left; lia].
    rewrite Q. apply Z.div_str_pos. lia.
  - (* the mantissa is divided as it is *)
    assert (Ee : e' = e + 46) by (unfold e'; lia).
    assert (Es : s = 0) by (unfold s; lia).
    assert (M : m' = Zpos m) by (unfold m'; now rewrite Es).
    assert (Hq : 2 ^ (d - 54) <= q).
    { rewrite Q, M. apply Z.div_le_lower_bound; [lia |].
      apply Z.le_trans with (2 ^ (d - 1)); [| exact Bl].
      replace (d - 1) with (53 + (d - 54)) by lia.
      rewrite Z.pow_add_r by lia.
      apply Z.mul_le_mono_nonneg_r; [apply Z.pow_nonneg; lia | lia]. }
    assert (Hq0 : 0 < q).
    { apply Z.lt_le_trans with (2 ^ (d - 54)); [| exact Hq].
      apply Z.pow_pos_nonneg; lia. }
    split; [exact Hq0 | right].
    destruct (Zdigits2_bounds q Hq0) as [_ [_ Du]].
    assert (d - 54 < Zdigits2 q).
    { apply (Z.pow_lt_mono_r_iff 2); [lia | | lia].
      destruct (Zdigits2_bounds q Hq0); lia. }
    lia.
Qed.

(** Dividing a number of at least [10^21] by 100 does not go below 1. *)
Lemma div_hundred_large (m : positive) (e : Z) :
  Qle_bool (Qpower 10 21) (to_Q (S754_finite false m e)) = true ->
  num_lt (div (S754_finite false m e) (of_Z 100)) (of_Z 1) = false.
Proof.
  intros H. apply large_has_70_bits in H.
  destruct (div_core_large m e H) as (q & e' & l & E & Hq & He).
  rewrite hundred_eq, one_eq. unfold div, SFdiv. rewrite E.
  pose proof (binary_round_aux_lower (xorb false false) q e' l Hq He) as L.
  pose proof (binary_round_aux_sign (xorb false false) q e' l) as S.
  destruct (binary_round_aux prec emax (xorb false false) q e' l)
    as [s'|s'| |s' m2 e2]; try contradiction; cbn in S; subst s'.
  - reflexivity.
  - unfold num_lt, SFltb, SFcompare.
    destruct (Z.compare_spec e2 (-52)); try lia; reflexivity.
Qed.

End FloatFacts.

Module NumberFacts.
Import JsString Float64 JsNumber Spec StringFacts FloatFacts.

(** *** What the printers print *)

Lemma is_digit_ascii7 (c : ascii) : is_digit c = true -> ascii7 c = true.
Proof.
  unfold is_digit, ascii7. intros H. apply andb_true_iff in H as [_ H].
  apply N.leb_le in H. apply N.ltb_lt. lia.
Qed.

Lemma string_of_uint_digits (d : uint) :
  all_chars is_digit (NilEmpty.string_of_uint d) = true.
Proof. induction d; simpl; auto. Qed.

Lemma digits_of_digits (n : Z) : all_chars is_digit (digits_of n) = true.
Proof.
  unfold digits_of, NilZero.string_of_uint.
  destruct (N.to_uint (Z.to_N n)) eqn:E; try reflexivity;
    rewrite <- E; apply string_of_uint_digits.
Qed.

Lemma zeros_digits (k : nat) : all_chars is_digit (zeros k) = true.
Proof. induction k; simpl; auto. Qed.

Lemma digits_of_ascii7 (n : Z) : all_chars ascii7 (digits_of n) = true.
Proof.
  apply (all_chars_impl is_digit); [exact is_digit_ascii7 | apply digits_of_digits].
Qed.

Lemma zeros_ascii7 (k : nat) : all_chars ascii7 (zeros k) = true.
Proof.
  apply (all_chars_impl is_digit); [exact is_digit_ascii7 | apply zeros_digits].
Qed.

Ltac chars :=
  repeat first
    [ reflexivity
    | apply digits_of_ascii7
    | apply zeros_ascii7
    | apply all_chars_substring
    | rewrite all_chars_app
    | apply andb_true_iff; split ].

Lemma Number_toString_ascii7 (x : float) :
  all_chars ascii7 (Number_toString x) = true.
Proof.
  unfold Number_toString.
  destruct x as [s|s| |s m e]; try reflexivity; [now destruct s |].
  destruct (shortest _ _ _ _ _) as [[n k] d].
  repeat match goal with
         | |- context [if ?b then _ else _] => destruct b
         end; chars.
Qed.

Lemma fixed_digits_ascii7 (n : Z) (f : nat) :
  all_chars ascii7 (fixed_digits n f) = true.
Proof.
  unfold fixed_digits. destruct f as [|f]; [apply digits_of_ascii7 |].
  cbv zeta.
  match goal with
  | |- context [if ?b then _ else _] => destruct b
  end; chars.
Qed.

Lemma toFixed_total (x : float) (f : Z) :
  (0 <= f <= 100)%Z -> exists r, toFixed x f = Ok r.
Proof.
  intros Hf. unfold toFixed.
  replace ((f <? 0)%Z || (100 <? f)%Z) with false.
  - destruct (negb (is_finite x)); eexists; reflexivity.
  - symmetry. apply orb_false_iff. split; [apply Z.ltb_ge | apply Z.ltb_ge]; lia.
Qed.

Lemma toFixed_ascii7 (x : float) (f : Z) (r : string) :
  toFixed x f = Ok r -> all_chars ascii7 r = true.
Proof.
  unfold toFixed.
  destruct ((f <? 0)%Z || (100 <? f)%Z); [discriminate |].
  destruct (negb (is_finite x)); intros [= <-].
  - apply Number_toString_ascii7.
  - repeat match goal with
           | |- context [if ?b then _ else _] => destruct b
           end; chars;
      try apply Number_toString_ascii7; try apply fixed_digits_ascii7.
Qed.

(** A number below zero is printed with a minus sign. *)
Lemma toFixed_negative (x : float) (f : Z) (r : string) :
  num_lt x (S754_zero false) = true -> toFixed x f = Ok r ->
  exists r', r = String "-" r'.
Proof.
  unfold toFixed.
  destruct ((f <? 0)%Z || (100 <? f)%Z); [discriminate |].
  destruct x as [s|s| |s m e]; simpl; try discriminate.
  - destruct s; [| discriminate]. intros _ [= <-]. eexists; reflexivity.
  - destruct s; [| discriminate]. intros _ [= <-]. eexists; reflexivity.
Qed.

Lemma toFixed_large (m : positive) (e f : Z) :
  (0 <= f <= 100)%Z ->
  Qle_bool (Qpower 10 21) (to_Q (S754_finite false m e)) = true ->
  toFixed (S754_finite false m e) f = Ok (Number_toString (S754_finite false m e)).
Proof.
  intros Hf Big. unfold toFixed.
  replace ((f <? 0)%Z || (100 <? f)%Z) with false
    by (symmetry; apply orb_false_iff; split; apply Z.ltb_ge; lia).
  cbn [is_finite negb SFabs]. rewrite Big. reflexivity.
Qed.

(** *** [toFixed] against rounding *)

Lemma nearest_scaled_nearest (a : Q) (f : nat) :
  nearest a f (nearest_scaled a (Z.of_nat f)).
Proof.
  unfold nearest, nearest_scaled.
  set (y := (a * Qpower 10 (Z.of_nat f))%Q).
  pose proof (Qfloor_le (y + (1 # 2))) as L.
  pose proof (Qlt_floor (y + (1 # 2))) as U.
  rewrite inject_Z_plus in U. change (inject_Z 1) with 1%Q in U.
  split; lra.
Qed.

Lemma nearest_unique (a : Q) (f : nat) (n : Z) :
  nearest a f n -> n = nearest_scaled a (Z.of_nat f).
Proof.
  unfold nearest, nearest_scaled.
  set (y := (a * Qpower 10 (Z.of_nat f))%Q). intros [L U].
  pose proof (Qfloor_le (y + (1 # 2))) as L'.
  pose proof (Qlt_floor (y + (1 # 2))) as U'.
  rewrite inject_Z_plus in U'. change (inject_Z 1) with 1%Q in U'.
  set (k := Qfloor (y + (1 # 2))) in *.
  assert (A : (inject_Z n < inject_Z (k + 1))%Q)
    by (rewrite inject_Z_plus; change (inject_Z 1) with 1%Q; lra).
  assert (B : (inject_Z k < inject_Z (n + 1))%Q)
    by (rewrite inject_Z_plus; change (inject_Z 1) with 1%Q; lra).
  rewrite <- Zlt_Qlt in A, B. lia.
Qed.

Lemma nearest_comp (a b : Q) (f : nat) (n : Z) :
  (a == b)%Q -> nearest a f n -> nearest b f n.
Proof. unfold nearest. intros E. now rewrite E. Qed.

Lemma to_Q_positive (m : positive) (e : Z) :
  (0 < to_Q (S754_finite false m e))%Q.
Proof.
  cbn [to_Q]. rewrite Qmult_1_l.
  apply Qmult_lt_0_compat; [reflexivity | now apply Qpower_0_lt].
Qed.

Lemma to_Q_negative (m : positive) (e : Z) :
  (to_Q (S754_finite true m e) == - to_Q (S754_finite false m e))%Q.
Proof. cbn [to_Q]. ring. Qed.

Lemma Qabs_to_Q (s : bool) (m : positive) (e : Z) :
  (Qabs (to_Q (S754_finite s m e)) == to_Q (S754_finite false m e))%Q.
Proof.
  pose proof (to_Q_positive m e) as P. destruct s.
  - rewrite Qabs_neg; rewrite to_Q_negative; [ring | lra].
  - apply Qabs_pos. lra.
Qed.

Lemma to_Q_sign (s : bool) (m : positive) (e : Z) :
  Qle_bool 0 (to_Q (S754_finite s m e)) = negb s.
Proof.
  pose proof (to_Q_positive m e) as P. destruct s; cbn [negb].
  - destruct (Qle_bool 0 (to_Q (S754_finite true m e))) eqn:E; [| reflexivity].
    apply Qle_bool_iff in E. rewrite to_Q_negative in E. lra.
  - apply Qle_bool_iff. lra.
Qed.

(** Below [10^21], [toFixed] is rounding to [f] decimals. *)
Lemma toFixed_rounded (x : float) (f : nat) :
  (f <= 100)%nat -> is_finite x = true ->
  Qle_bool (Qpower 10 21) (Qabs (to_Q x)) = false ->
  exists r, toFixed x (Z.of_nat f) = Ok r /\ rounded x f r.
Proof.
  intros Hf Fin Small. unfold toFixed, rounded.
  replace ((Z.of_nat f <? 0)%Z || (100 <? Z.of_nat f)%Z) with false
    by (symmetry; apply orb_false_iff; split; apply Z.ltb_ge; lia).
  rewrite Fin. cbn [negb]. rewrite Nat2Z.id.
  destruct x as [s|s| |s m e]; try discriminate Fin.
  - eexists. split; [reflexivity |]. split; [reflexivity |].
    exists (nearest_scaled 0 (Z.of_nat f)). split; [| reflexivity].
    apply nearest_scaled_nearest.
  - rewrite (Qleb_comp _ _ (Qeq_refl _) _ _ (Qabs_to_Q s m e)) in Small.
    cbn [SFabs]. rewrite Small, to_Q_sign.
    eexists. split; [reflexivity |]. split; [reflexivity |].
    exists (nearest_scaled (to_Q (S754_finite false m e)) (Z.of_nat f)). split.
    + apply (nearest_comp (to_Q (S754_finite false m e))).
      * symmetry. apply Qabs_to_Q.
      * apply nearest_scaled_nearest.
    + unfold num_lt, SFltb. now destruct s.
Qed.

Lemma rounded_inv (x : float) (f : nat) (r : string) :
  rounded x f r ->
  r = (if Qle_bool 0 (to_Q x) then EmptyString else "-")
      ++ fixed_digits (nearest_scaled (Qabs (to_Q x)) (Z.of_nat f)) f.
Proof. intros (_ & n & N & ->). now rewrite (nearest_unique _ _ _ N). Qed.

(** *** Reading back what was printed *)

Lemma read_digits_len (s : string) (acc len : Z) :
  read_digits s acc len =
  let '(v, l, r) := read_digits s acc 0 in (v, (len + l)%Z, r).
Proof.
  revert acc len. induction s as [|c s IH]; intros acc len; cbn [read_digits].
  - now rewrite Z.add_0_r.
  - destruct (is_digit c); [| now rewrite Z.add_0_r].
    rewrite (IH _ (len + 1)%Z), (IH _ (0 + 1)%Z).
    destruct (read_digits s _ 0) as [[v l] r]. f_equal. f_equal. lia.
Qed.

Lemma read_digits_app (s rest : string) (acc len : Z) :
  all_chars is_digit s = true ->
  read_digits (s ++ rest) acc len =
  let '(v, l, _) := read_digits s acc len in read_digits rest v l.
Proof.
  revert acc len. induction s as [|c s IH]; intros acc len H.
  - reflexivity.
  - cbn [all_chars] in H. apply andb_true_iff in H as [Hc Hs].
    cbn [append read_digits]. rewrite Hc. now apply IH.
Qed.

Lemma read_digits_all (s : string) (acc len : Z) :
  all_chars is_digit s = true ->
  exists v, read_digits s acc len = (v, (len + Z.of_nat (String.length s))%Z, EmptyString).
Proof.
  revert acc len. induction s as [|c s IH]; intros acc len H.
  - exists acc. cbn. now rewrite Z.add_0_r.
  - cbn [all_chars] in H. apply andb_true_iff in H as [Hc Hs].
    cbn [read_digits String.length]. rewrite Hc.
    destruct (IH (10 * acc + digit_val c)%Z (len + 1)%Z Hs) as [v ->].
    exists v. f_equal. f_equal. lia.
Qed.

Ltac digit_case IH :=
  cbn [NilEmpty.string_of_uint read_digits String.length Pos.of_uint_acc Pos.of_uint];
  match goal with
  | |- context [is_digit ?c] =>
    let k := eval compute in (digit_val c) in
    change (is_digit c) with true; change (digit_val c) with k
  end;
  cbv iota.

Lemma read_digits_uint_acc (d : uint) (acc : positive) (len : Z) :
  read_digits (NilEmpty.string_of_uint d) (Zpos acc) len =
  (Zpos (Pos.of_uint_acc d acc),
   (len + Z.of_nat (String.length (NilEmpty.string_of_uint d)))%Z,
   EmptyString).
Proof.
  revert acc len. induction d as [|d IH|d IH|d IH|d IH|d IH|d IH|d IH|d IH|d IH|d IH];
    intros acc len;
    [ cbn; now rewrite Z.add_0_r | .. ];
    digit_case IH;
    match goal with
    | |- read_digits _ ?a _ = (Zpos (Pos.of_uint_acc _ ?b), _, _) =>
      replace a with (Zpos b) by lia
    end;
    rewrite IH; f_equal; f_equal; lia.
Qed.

Lemma read_digits_uint (d : uint) (len : Z) :
  read_digits (NilEmpty.string_of_uint d) 0 len =
  (Z.of_N (Pos.of_uint d),
   (len + Z.of_nat (String.length (NilEmpty.string_of_uint d)))%Z,
   EmptyString).
Proof.
  revert len. induction d as [|d IH|d IH|d IH|d IH|d IH|d IH|d IH|d IH|d IH|d IH];
    intros len;
    [ cbn; now rewrite Z.add_0_r | .. ];
    digit_case IH;
    [ rewrite IH; f_equal; f_equal; lia | .. ];
    match goal with
    | |- read_digits _ ?a _ = (Z.of_N (Npos (Pos.of_uint_acc _ ?b)), _, _) =>
      replace a with (Zpos b) by lia
    end;
    rewrite read_digits_uint_acc; cbn [Z.of_N]; f_equal; f_equal; lia.
Qed.

Lemma digits_of_nonempty (n : Z) : (1 <= String.length (digits_of n))%nat.
Proof.
  unfold digits_of, NilZero.string_of_uint.
  destruct (N.to_uint (Z.to_N n)); cbn; lia.
Qed.

(** The digits printed for a natural number read back as that number. *)
Lemma read_digits_of (n len : Z) :
  (0 <= n)%Z ->
  read_digits (digits_of n) 0 len =
  (n, (len + Z.of_nat (String.length (digits_of n)))%Z, EmptyString).
Proof.
  intros Hn. unfold digits_of, NilZero.string_of_uint.
  pose proof (DecimalN.Unsigned.of_to (Z.to_N n)) as R. unfold N.of_uint in R.
  destruct (N.to_uint (Z.to_N n)) as [|d|d|d|d|d|d|d|d|d|d] eqn:E;
    [ cbn in R |- * | rewrite read_digits_uint, R .. ];
    f_equal; f_equal; lia.
Qed.

Lemma length_append (a b : string) :
  String.length (a ++ b) = (String.length a + String.length b)%nat.
Proof. induction a as [|c a IH]; cbn; [reflexivity | now rewrite IH]. Qed.

Lemma length_zeros (k : nat) : String.length (zeros k) = k.
Proof. induction k as [|k IH]; cbn; [reflexivity | now rewrite IH]. Qed.

Lemma read_digits_zeros (k : nat) (s : string) (len : Z) :
  read_digits (zeros k ++ s) 0 len = read_digits s 0 (len + Z.of_nat k).
Proof.
  revert len. induction k as [|k IH]; intros len.
  - cbn. now rewrite Z.add_0_r.
  - cbn [zeros append read_digits].
    change (is_digit "0") with true. change (digit_val "0") with 0%Z. cbv iota.
    change (10 * 0 + 0)%Z with 0%Z. rewrite IH. f_equal. lia.
Qed.

Lemma substring_all (s : string) : substring 0 (String.length s) s = s.
Proof. induction s as [|c s IH]; cbn; [reflexivity | now rewrite IH]. Qed.

(** A string cut in two. *)
Lemma substring_split (s : string) (a b : nat) :
  (a + b)%nat = String.length s ->
  substring 0 a s ++ substring a b s = s.
Proof.
  revert a. induction s as [|c s IH]; intros a H; cbn in H.
  - assert (a = 0%nat) by lia. assert (b = 0%nat) by lia. now subst.
  - destruct a as [|a].
    + cbn in H. subst b. cbn. now rewrite substring_all.
    + cbn. rewrite IH by lia. reflexivity.
Qed.

Lemma length_substring_prefix (s : string) (a : nat) :
  (a <= String.length s)%nat -> String.length (substring 0 a s) = a.
Proof.
  revert a. induction s as [|c s IH]; intros a H; cbn in H.
  - assert (a = 0%nat) by lia. now subst.
  - destruct a as [|a]; [reflexivity |]. cbn. rewrite IH by lia. reflexivity.
Qed.

(** The numeral printed for [n] with [f] decimals reads back as
    [n * 10^(-f)]. *)
Lemma fixed_digits_reads_back (n : Z) (f : nat) :
  (0 <= n)%Z -> read_decimal (fixed_digits n f) = Some (n, (- Z.of_nat f)%Z).
Proof.
  intros Hn. unfold fixed_digits, read_decimal.
  pose proof (digits_of_nonempty n) as Hk.
  destruct f as [|f].
  - rewrite (read_digits_of n 0 Hn).
    replace (0 + Z.of_nat (String.length (digits_of n)) =? 0)%Z with false
      by (symmetry; apply Z.eqb_neq; lia).
    reflexivity.
  - cbv zeta.
    set (m := if (String.length (digits_of n) <=? S f)%nat
              then zeros (S f + 1 - String.length (digits_of n)) ++ digits_of n
              else digits_of n).
    assert (Dm : all_chars is_digit m = true).
    { unfold m. destruct (_ <=? _)%nat; [| apply digits_of_digits].
      now rewrite all_chars_app, zeros_digits, digits_of_digits. }
    assert (Lm : (S f < String.length m)%nat).
    { unfold m. destruct (String.length (digits_of n) <=? S f)%nat eqn:E.
      - apply Nat.leb_le in E. rewrite length_append, length_zeros. lia.
      - apply Nat.leb_gt in E. exact E. }
    assert (Rm : read_digits m 0 0 = (n, Z.of_nat (String.length m), EmptyString)).
    { unfold m. destruct (_ <=? _)%nat.
      - rewrite read_digits_zeros, (read_digits_of n _ Hn).
        rewrite length_append, length_zeros. f_equal. f_equal. lia.
      - now rewrite (read_digits_of n 0 Hn). }
    set (a := (String.length m - S f)%nat).
    pose proof (substring_split m a (S f) ltac:(unfold a; lia)) as Split.
    set (ip := substring 0 a m) in *. set (fp := substring a (S f) m) in *.
    assert (Dip : all_chars is_digit ip = true) by now apply all_chars_substring.
    assert (Lip : String.length ip = a)
      by (apply length_substring_prefix; unfold a; lia).
    destruct (read_digits_all ip 0 0 Dip) as [v Rip].
    rewrite (read_digits_app ip ("." ++ fp) 0 0 Dip), Rip.
    cbn [append read_digits]. change (is_digit ".") with false. cbv iota.
    change (code "." =? 46)%N with true. cbv iota.
    (* the digits after the point continue the ones before it *)
    rewrite <- Split, (read_digits_app ip fp 0 0 Dip), Rip in Rm.
    rewrite read_digits_len in Rm.
    destruct (read_digits fp v 0) as [[m' flen] r3].
    injection Rm as -> Hl ->.
    rewrite Split, Lip in Hl.
    assert (flen = Z.of_nat (S f)) by (unfold a in Hl; lia). subst flen.
    match goal with
    | |- (if ?b then _ else _) = _ =>
      replace b with false
        by (symmetry; apply andb_false_iff; right; apply Z.eqb_neq; lia)
    end.
    reflexivity.
Qed.

Lemma nearest_nonneg (a : Q) (f : nat) (n : Z) :
  (0 <= a)%Q -> nearest a f n -> (0 <= n)%Z.
Proof.
  intros Ha [_ U].
  assert (P : (0 <= a * Qpower 10 (Z.of_nat f))%Q).
  { apply Qmult_le_0_compat; [exact Ha |]. apply Qpower_pos. discriminate. }
  assert (L : (inject_Z (-1) < inject_Z n)%Q)
    by (change (inject_Z (-1)) with (-1)%Q; lra).
  rewrite <- Zlt_Qlt in L. lia.
Qed.

(** What [rounded] accepts is a numeral of the nearest integer scaled
    back by [10^f]. *)
Lemma rounded_reads_back (x : float) (f : nat) (r : string) :
  rounded x f r ->
  exists n body,
    nearest (Qabs (to_Q x)) f n /\
    r = (if Qle_bool 0 (to_Q x) then EmptyString else "-") ++ body /\
    read_decimal body = Some (n, (- Z.of_nat f)%Z).
Proof.
  intros (_ & n & N & ->). exists n, (fixed_digits n f).
  split; [exact N |]. split; [reflexivity |].
  apply fixed_digits_reads_back.
  exact (nearest_nonneg _ _ _ (Qabs_nonneg _) N).
Qed.

End NumberFacts.

(* ================================================================= *)
(** ** Facts about the action *)

Module ComedFacts.
Import JsString Float64 JsNumber ComedPricing Spec.
Import StringFacts FloatFacts NumberFacts.

Lemma formatPrice_total (s : string) : exists r, formatPrice s = Ok r.
Proof.
  unfold formatPrice.
  destruct (s =? "N/A")%string; [eexists; reflexivity |].
  destruct (isNaN (parseFloat s)); [eexists; reflexivity |].
  destruct (num_ge _ _).
  - destruct (toFixed_total (div (parseFloat s) (of_Z 100)) 2) as [r ->]; [lia |].
    eexists; reflexivity.
  - destruct (toFixed_total (parseFloat s) 1) as [r ->]; [lia |].
    eexists; reflexivity.
Qed.

Lemma ascii7_no_glyph_lead (c : ascii) : ascii7 c = true -> no_glyph_lead c = true.
Proof.
  unfold ascii7, no_glyph_lead. intros H. apply N.ltb_lt in H.
  apply negb_true_iff, N.eqb_neq. lia.
Qed.

Lemma formatPrice_no_glyph (s r : string) :
  formatPrice s = Ok r -> all_chars no_glyph_lead r = true.
Proof.
  unfold formatPrice.
  destruct (s =? "N/A")%string; [intros [= <-]; reflexivity |].
  destruct (isNaN (parseFloat s)); [intros [= <-]; reflexivity |].
  destruct (num_ge _ _).
  - destruct (toFixed _ 2) as [d|] eqn:E; [| discriminate]. intros [= <-].
    simpl. apply (all_chars_impl ascii7); [exact ascii7_no_glyph_lead |].
    exact (toFixed_ascii7 _ _ _ E).
  - destruct (toFixed _ 1) as [c|] eqn:E; [| discriminate]. intros [= <-].
    rewrite all_chars_app. apply andb_true_iff; split; [| reflexivity].
    apply (all_chars_impl ascii7); [exact ascii7_no_glyph_lead |].
    exact (toFixed_ascii7 _ _ _ E).
Qed.

(** The icon is the template with its five holes filled; [trim] only
    removes the line break the template literal starts with. *)
Lemma generatePricingSVG_eq (f5 fh raw : string) (t : Trend) :
  generatePricingSVG f5 fh raw t =
  svgHead ++ primaryColor raw ++ svgPrimary ++ f5 ++ svgTrend
  ++ trendText t ++ svgSecondary ++ fh ++ svgTail.
Proof.
  unfold generatePricingSVG.
  pose (h := substring 1 (String.length svgHead - 1) svgHead).
  pose (tl := substring 0 (String.length svgTail - 1) svgTail).
  assert (EH : svgHead = "<" ++ h) by (vm_compute; reflexivity).
  assert (ET : svgTail = tl ++ ">") by (vm_compute; reflexivity).
  rewrite EH, ET. clearbody h tl.
  pose (body := h ++ primaryColor raw ++ svgPrimary ++ f5 ++ svgTrend
                  ++ trendText t ++ svgSecondary ++ fh ++ tl).
  transitivity (trim (nl ++ "<" ++ body ++ ">")).
  - f_equal. f_equal. unfold body. rewrite !append_assoc. reflexivity.
  - rewrite trim_markup. unfold body. rewrite !append_assoc. reflexivity.
Qed.

Lemma tick_success (w : World) (d5 dh : list ComedPriceData) :
  fetched w FIVE_MIN_API d5 -> fetched w HOURLY_API dh ->
  let cur5 := or_else (price_at d5 0) "N/A" in
  let curh := or_else (price_at dh 0) "N/A" in
  let tr := calculateTrend (price_at d5 1) cur5 in
  exists f5 fh,
    formatPrice cur5 = Ok f5 /\ formatPrice curh = Ok fh /\
    updatePricing w [] =
    (Ok tt,
     [ setImage (dataURI (generatePricingSVG f5 fh cur5 tr));
       setTitle EmptyString;
       setSettings {| fiveMinPrice := cur5; hourlyPrice := curh;
                      fiveMinFormatted := f5; hourlyFormatted := fh;
                      trend := tr; lastUpdate := Date_now w |};
       setState (state cur5) ]).
Proof.
  intros (r5 & F5 & O5 & J5) (rh & Fh & Oh & Jh) cur5 curh tr.
  destruct (formatPrice_total cur5) as [f5 E5].
  destruct (formatPrice_total curh) as [fh Eh].
  exists f5, fh. repeat split; try assumption.
  unfold updatePricing, try_catch, bind, await, Promise_all.
  rewrite F5, Fh, O5, Oh. cbv beta iota. cbn [negb orb].
  rewrite J5, Jh. fold cur5 curh. rewrite E5, Eh.
  reflexivity.
Qed.

Lemma tick_failure (w : World) :
  (exists e, fetch w FIVE_MIN_API = Throw e) \/
  (exists e, fetch w HOURLY_API = Throw e) \/
  (exists r, fetch w FIVE_MIN_API = Ok r /\ ok r = false) \/
  (exists r, fetch w HOURLY_API = Ok r /\ ok r = false) ->
  exists e,
    updatePricing w [] =
    (Ok tt, [ console_error e; setTitle "Error";
              setImage (dataURI generateErrorSVG) ]).
Proof.
  unfold updatePricing, try_catch, bind, await, Promise_all, throw, call.
  intros [[e H] | [[e H] | [(r & H & O) | (r & H & O)]]].
  - rewrite H. eexists. reflexivity.
  - rewrite H. destruct (fetch w FIVE_MIN_API); eexists; reflexivity.
  - rewrite H. destruct (fetch w HOURLY_API) as [rh|e].
    + rewrite O. eexists. reflexivity.
    + eexists. reflexivity.
  - rewrite H. destruct (fetch w FIVE_MIN_API) as [r5|e].
    + rewrite O, orb_true_r. eexists. reflexivity.
    + eexists. reflexivity.
Qed.

Lemma includes_infix (s a p c : string) :
  includes s (a ++ p ++ c) = true -> includes s p = true.
Proof.
  intros H. apply includes_inv in H as (u & z & ->).
  replace (u ++ (a ++ p ++ c) ++ z) with ((u ++ a) ++ p ++ (c ++ z))
    by (rewrite !append_assoc; reflexivity).
  apply includes_here.
Qed.

Lemma primaryColor_no_glyph (raw : string) :
  all_chars no_glyph_lead (primaryColor raw) = true.
Proof. unfold primaryColor. now destruct (isHighPrice raw). Qed.

(** Everything in the icon before the trend line, and everything after. *)
Lemma before_trend_no_glyph (f5 raw : string) :
  all_chars no_glyph_lead f5 = true ->
  all_chars no_glyph_lead
    (svgHead ++ primaryColor raw ++ svgPrimary ++ f5 ++ svgTrend) = true.
Proof.
  intros H. rewrite !all_chars_app, H, primaryColor_no_glyph. reflexivity.
Qed.

Lemma after_trend_no_glyph (fh : string) :
  all_chars no_glyph_lead fh = true ->
  all_chars no_glyph_lead (svgSecondary ++ fh ++ svgTail) = true.
Proof. intros H. rewrite !all_chars_app, H. reflexivity. Qed.

Lemma icon_split (f5 fh raw : string) (t : Trend) :
  generatePricingSVG f5 fh raw t =
  (svgHead ++ primaryColor raw ++ svgPrimary ++ f5 ++ svgTrend)
  ++ trendText t ++ (svgSecondary ++ fh ++ svgTail).
Proof. rewrite generatePricingSVG_eq, !append_assoc. reflexivity. Qed.

Lemma glyph_lead : no_glyph_lead "226"%char = false.
Proof. reflexivity. Qed.

(** Whether a triangle is in the icon is decided on the trend line. *)
Lemma includes_triangle (f5 fh raw : string) (t : Trend) (tri : string) :
  all_chars no_glyph_lead f5 = true -> all_chars no_glyph_lead fh = true ->
  includes (generatePricingSVG f5 fh raw t) (String "226" tri) =
  includes (trendText t ++ svgSecondary ++ fh ++ svgTail) (String "226" tri).
Proof.
  intros H5 Hh. rewrite icon_split.
  apply (includes_skip no_glyph_lead); [reflexivity |].
  now apply before_trend_no_glyph.
Qed.

Lemma other_triangle_up (z : string) :
  includes ("▲" ++ z) "▼" = includes z "▼".
Proof.
  cbn [append includes prefix].
  destruct (ascii_dec "226" "226"); [| congruence].
  destruct (ascii_dec "150" "150"); [| congruence].
  destruct (ascii_dec "188" "178"); [discriminate |].
  destruct (ascii_dec "226" "150"); [discriminate |].
  destruct (ascii_dec "226" "178"); [discriminate |].
  reflexivity.
Qed.

Lemma other_triangle_down (z : string) :
  includes ("▼" ++ z) "▲" = includes z "▲".
Proof.
  cbn [append includes prefix].
  destruct (ascii_dec "226" "226"); [| congruence].
  destruct (ascii_dec "150" "150"); [| congruence].
  destruct (ascii_dec "178" "188"); [discriminate |].
  destruct (ascii_dec "226" "150"); [discriminate |].
  destruct (ascii_dec "226" "188"); [discriminate |].
  reflexivity.
Qed.

Lemma trendText_up : trendText up = trendOpen up ++ "▲" ++ "</text>".
Proof. vm_compute. reflexivity. Qed.

Lemma trendText_down : trendText down = trendOpen down ++ "▼" ++ "</text>".
Proof. vm_compute. reflexivity. Qed.

Lemma trend_line_up (t : Trend) (y : string) :
  all_chars no_glyph_lead y = true ->
  includes (trendText t ++ y) "▲" = match t with up => true | _ => false end.
Proof.
  intros Hy. destruct t.
  - rewrite trendText_up, !append_assoc. apply includes_here.
  - rewrite trendText_down, !append_assoc.
    rewrite (includes_skip no_glyph_lead); [| reflexivity | reflexivity].
    rewrite other_triangle_down.
    apply (includes_absent no_glyph_lead); [reflexivity |].
    rewrite all_chars_app, Hy. reflexivity.
  - apply (includes_absent no_glyph_lead); [reflexivity | exact Hy].
Qed.

Lemma trend_line_down (t : Trend) (y : string) :
  all_chars no_glyph_lead y = true ->
  includes (trendText t ++ y) "▼" = match t with down => true | _ => false end.
Proof.
  intros Hy. destruct t.
  - rewrite trendText_up, !append_assoc.
    rewrite (includes_skip no_glyph_lead); [| reflexivity | reflexivity].
    rewrite other_triangle_up.
    apply (includes_absent no_glyph_lead); [reflexivity |].
    rewrite all_chars_app, Hy. reflexivity.
  - rewrite trendText_down, !append_assoc. apply includes_here.
  - apply (includes_absent no_glyph_lead); [reflexivity | exact Hy].
Qed.

Lemma parsed_not_NA (s : string) :
  isNaN (parseFloat s) = false -> (s =? "N/A")%string = false.
Proof.
  intros H. destruct (s =? "N/A")%string eqn:E; [| reflexivity].
  apply String.eqb_eq in E. subst. discriminate H.
Qed.

Lemma formatPrice_dollars (s : string) :
  isNaN (parseFloat s) = false ->
  num_ge (div (parseFloat s) (of_Z 100)) (of_Z 1) = true ->
  exists d, toFixed (div (parseFloat s) (of_Z 100)) 2 = Ok d /\
            formatPrice s = Ok ("$" ++ d).
Proof.
  intros P G. unfold formatPrice. rewrite (parsed_not_NA s P), P, G.
  destruct (toFixed_total (div (parseFloat s) (of_Z 100)) 2) as [d E]; [lia |].
  exists d. now rewrite E.
Qed.

Lemma formatPrice_cents (s : string) :
  isNaN (parseFloat s) = false ->
  num_ge (div (parseFloat s) (of_Z 100)) (of_Z 1) = false ->
  exists c, toFixed (parseFloat s) 1 = Ok c /\
            formatPrice s = Ok (c ++ "¢").
Proof.
  intros P G. unfold formatPrice. rewrite (parsed_not_NA s P), P, G.
  destruct (toFixed_total (parseFloat s) 1) as [c E]; [lia |].
  exists c. now rewrite E.
Qed.

(** A price under one dollar is a positive number of cents under [10^21]. *)
Lemma dimes_are_small (cents : float) :
  num_ge (div cents (of_Z 100)) (of_decimal false 1 (-1)) = true ->
  num_lt (div cents (of_Z 100)) (of_Z 1) = true ->
  is_finite cents = true /\
  Qle_bool (Qpower 10 21) (Qabs (to_Q cents)) = false.
Proof.
  intros G L.
  change (of_decimal false 1 (-1))
    with (S754_finite false 7205759403792794 (-56)) in G.
  apply ge_positive in G as [I | (m' & e' & E)].
  { rewrite I in L. discriminate L. }
  destruct cents as [s|s| |s m e]; try discriminate E.
  pose proof (div_sign s m e 7036874417766400 (-46)) as S.
  change (S754_finite false 7036874417766400 (-46)) with (of_Z 100) in S.
  rewrite E in S. cbn in S. subst s.
  split; [reflexivity |].
  rewrite (Qleb_comp _ _ (Qeq_refl _) _ _ (Qabs_to_Q false m e)).
  destruct (Qle_bool (Qpower 10 21) (to_Q (S754_finite false m e))) eqn:B;
    [| reflexivity].
  rewrite (div_hundred_large m e B) in L. discriminate L.
Qed.

End ComedFacts.

(* ================================================================= *)
(** ** Facts about the percent-encoding *)

Module UriFacts.
Import JsString Notions StringFacts.

Lemma encode_char_uri (c : ascii) :
  all_chars uri_char
    (if uri_unreserved c then String c EmptyString
     else "%" ++ hex_digit (code c / 16) ++ hex_digit (code c mod 16)) = true.
Proof. destruct c as [[] [] [] [] [] [] [] []]; reflexivity. Qed.

Lemma encodeURIComponent_uri (s : string) :
  all_chars uri_char (encodeURIComponent s) = true.
Proof.
  induction s as [|c s IH]; [reflexivity |].
  cbn [encodeURIComponent]. rewrite all_chars_app, IH, encode_char_uri. reflexivity.
Qed.

Lemma percent_decode_char (c : ascii) (r : string) :
  percent_decode
    ((if uri_unreserved c then String c EmptyString
      else "%" ++ hex_digit (code c / 16) ++ hex_digit (code c mod 16)) ++ r)
  = String c (percent_decode r).
Proof. destruct c as [[] [] [] [] [] [] [] []]; reflexivity. Qed.

Lemma percent_decode_encode (s : string) :
  percent_decode (encodeURIComponent s) = s.
Proof.
  induction s as [|c s IH]; [reflexivity |].
  cbn [encodeURIComponent]. rewrite percent_decode_char, IH. reflexivity.
Qed.

End UriFacts.

(* ================================================================= *)
(** ** The claims *)

Import JsString Float64 JsNumber ComedPricing Spec Notions.
Import StringFacts FloatFacts NumberFacts ComedFacts UriFacts.

(** C1.  The specification and the test suite give prices under ten
    cents two decimals, so that [format("3.25")] is ["3.25¢"].  The
    class has no such branch: every price under one dollar is printed
    with one decimal, and ["3.25"] comes out as ["3.3¢"].  The copy of
    the function that the test suite asserts on does return ["3.25¢"]. *)
Theorem formatPrice_low_price_one_decimal :
  num_lt (div (parseFloat "3.25") (of_Z 100)) (of_decimal false 1 (-1)) = true /\
  formatPrice "3.25" = Ok "3.3¢" /\
  TestSuite.formatPrice "3.25" = Ok "3.25¢".
Proof. vm_compute. repeat split; reflexivity. Qed.

(** C2.  When either request is rejected or answers with a status that
    is not a success, the run logs the error, sets the title to
    ["Error"], sets the image to the error icon, and does nothing else:
    no [setSettings], no [setState].  The image is
    ["data:image/svg+xml,"] followed by the percent-encoding of the error
    icon: a text of characters that need no escape and of [%XX] groups,
    which decodes to the icon byte for byte.  The error icon is a 72 by
    72 SVG whose text is ERROR, bold, filled with [#ff4444]. *)
Theorem failed_fetch_shows_error (w : World) :
  (exists e, fetch w FIVE_MIN_API = Throw e) \/
  (exists e, fetch w HOURLY_API = Throw e) \/
  (exists r, fetch w FIVE_MIN_API = Ok r /\ ok r = false) \/
  (exists r, fetch w HOURLY_API = Ok r /\ ok r = false) ->
  (exists e,
     updatePricing w [] =
     (Ok tt, [ console_error e; setTitle "Error";
               setImage (dataURI generateErrorSVG) ])) /\
  (exists body,
     dataURI generateErrorSVG = "data:image/svg+xml," ++ body /\
     all_chars uri_char body = true /\
     percent_decode body = generateErrorSVG) /\
  (forall c, In c (tick w) ->
             (forall s, c <> setSettings s) /\ (forall n, c <> setState n)) /\
  includes generateErrorSVG
    ("<svg xmlns=" ++ q "http://www.w3.org/2000/svg" ++ " width=" ++ q "72"
     ++ " height=" ++ q "72") = true /\
  includes generateErrorSVG
    ("fill=" ++ q "#ff4444" ++ " " ++ nl ++ tab ++ tab
     ++ "  font-family=" ++ q "Arial, sans-serif" ++ " font-size=" ++ q "14"
     ++ " font-weight=" ++ q "bold" ++ ">" ++ nl ++ tab ++ tab ++ "ERROR"
     ++ nl ++ tab ++ "</text>") = true.
Proof.
  intros H. destruct (tick_failure w H) as [e E].
  split; [now exists e |].
  split.
  { exists (encodeURIComponent generateErrorSVG).
    split; [reflexivity |].
    split; [apply encodeURIComponent_uri | apply percent_decode_encode]. }
  split; [| split; vm_compute; reflexivity].
  unfold tick. rewrite E. cbn [snd In].
  intros c [<- | [<- | [<- | []]]]; split; discriminate.
Qed.

Lemma failed_fetch_shows_error_witness :
  (exists e,
     updatePricing
       (world (feed ["8.5"; "7.2"])
              (Ok {| ok := false; json := Ok [sample "7.0"] |}) 0) [] =
     (Ok tt, [ console_error e; setTitle "Error";
               setImage (dataURI generateErrorSVG) ])) /\
  (exists body,
     dataURI generateErrorSVG = "data:image/svg+xml," ++ body /\
     percent_decode body = generateErrorSVG).
Proof.
  destruct (failed_fetch_shows_error
              (world (feed ["8.5"; "7.2"])
                     (Ok {| ok := false; json := Ok [sample "7.0"] |}) 0))
    as (T & (body & D & _ & P) & _).
  - right. right. right. eexists. split; reflexivity.
  - split; [exact T |]. exists body. split; [exact D | exact P].
Defined.

(** C3.  [calculateTrend] returns a trend for every pair of arguments
    (it is a function into [Trend], nothing is thrown).  It is [neutral]
    when the previous price is absent, empty or ["N/A"], when the current
    price is ["N/A"], and when either fails to parse.  Otherwise it is
    [up] exactly when the current number is greater than the previous
    one, [down] exactly when it is less, [neutral] exactly when they are
    equal. *)
Theorem calculateTrend_spec (previous : option string) (current : string) :
  let degenerate :=
    previous = None \/ previous = Some EmptyString \/ previous = Some "N/A"
    \/ current = "N/A"
    \/ isNaN (parseFloat (ToString previous)) = true
    \/ isNaN (parseFloat current) = true in
  let p := parseFloat (ToString previous) in
  let c := parseFloat current in
  (degenerate -> calculateTrend previous current = neutral) /\
  (~ degenerate ->
   (calculateTrend previous current = up <-> num_gt c p = true) /\
   (calculateTrend previous current = down <-> num_lt c p = true) /\
   (calculateTrend previous current = neutral <-> num_eq c p = true)).
Proof.
  intros degenerate p c. unfold calculateTrend. fold p c. split.
  - intros [-> | [-> | [-> | [-> | [H | H]]]]]; try reflexivity.
    + destruct previous as [[|x s]|]; try reflexivity.
      cbn [ToBoolean is_empty negb orb strict_eq].
      now rewrite String.eqb_refl, orb_true_r.
    + destruct (_ || _ || _); [reflexivity |].
      change (isNaN p = true) in H. now rewrite H.
    + destruct (_ || _ || _); [reflexivity |].
      change (isNaN c = true) in H. now rewrite H, orb_true_r.
  - intros ND.
    assert (Hp : isNaN p = false).
    { destruct (isNaN p) eqn:E; [| reflexivity]. exfalso. apply ND.
      unfold degenerate. do 4 right. left. exact E. }
    assert (Hc : isNaN c = false).
    { destruct (isNaN c) eqn:E; [| reflexivity]. exfalso. apply ND.
      unfold degenerate. do 5 right. exact E. }
    assert (G : negb (ToBoolean previous) || strict_eq previous "N/A"
                || (current =? "N/A")%string = false).
    { destruct previous as [[|x s]|].
      - exfalso. apply ND. unfold degenerate. right. left. reflexivity.
      - cbn [ToBoolean is_empty negb orb strict_eq].
        apply orb_false_iff. split; apply String.eqb_neq; intros E;
          apply ND; unfold degenerate.
        + rewrite E. do 2 right. left. reflexivity.
        + do 3 right. left. exact E.
      - exfalso. apply ND. unfold degenerate. left. reflexivity. }
    rewrite G, Hp, Hc. cbn [orb].
    destruct (trichotomy c p Hc Hp) as [T | [T | T]].
    + rewrite T, (gt_lt_exclusive _ _ T).
      assert (num_eq c p = false).
      { destruct (num_eq c p) eqn:E; [| reflexivity].
        now rewrite (eq_not_gt _ _ E) in T. }
      repeat split; congruence.
    + assert (G' : num_gt c p = false).
      { destruct (num_gt c p) eqn:E; [| reflexivity].
        now rewrite (gt_lt_exclusive _ _ E) in T. }
      assert (num_eq c p = false).
      { destruct (num_eq c p) eqn:E; [| reflexivity].
        now rewrite (eq_not_lt _ _ E) in T. }
      rewrite G', T. repeat split; congruence.
    + rewrite (eq_not_gt _ _ T), (eq_not_lt _ _ T), T.
      repeat split; congruence.
Qed.

Lemma calculateTrend_spec_witness :
  calculateTrend (Some "5.0") "5.5" = up /\
  calculateTrend None "5.0" = neutral.
Proof.
  split.
  - destruct (calculateTrend_spec (Some "5.0") "5.5") as [_ H].
    destruct H as [[_ U] _].
    + intros [H | [H | [H | [H | [H | H]]]]]; discriminate H.
    + apply U. vm_compute. reflexivity.
  - destruct (calculateTrend_spec None "5.0") as [H _].
    apply H. left. reflexivity.
Defined.

(** C4.  On a run where both requests succeed, the last call is
    [setState] and no other call sets the state.  The state index the
    run emits is 1 exactly when the 5-minute price parses to a number
    greater than 10, and 0 otherwise: a price equal to 10 gives 0, and so
    does a price that does not parse.  The index is computed by [state],
    for which the same holds on every string. *)
Theorem state_threshold (w : World) (d5 dh : list ComedPriceData) :
  fetched w FIVE_MIN_API d5 -> fetched w HOURLY_API dh ->
  let current := or_else (price_at d5 0) "N/A" in
  let cents := parseFloat current in
  (exists image settings n,
     tick w = [ setImage image; setTitle EmptyString; setSettings settings;
                setState n ] /\
     n = state current /\
     (n = 1%Z <-> num_gt cents (of_Z 10) = true) /\
     (n = 0%Z <-> num_gt cents (of_Z 10) = false) /\
     (num_eq cents (of_Z 10) = true -> n = 0%Z) /\
     (isNaN cents = true -> n = 0%Z)) /\
  (forall price : string,
     (state price = 1%Z <-> num_gt (parseFloat price) (of_Z 10) = true) /\
     (state price = 0%Z <-> num_gt (parseFloat price) (of_Z 10) = false) /\
     (num_eq (parseFloat price) (of_Z 10) = true -> state price = 0%Z) /\
     (isNaN (parseFloat price) = true -> state price = 0%Z)).
Proof.
  intros H5 Hh current cents.
  assert (S : forall price : string,
     (state price = 1%Z <-> num_gt (parseFloat price) (of_Z 10) = true) /\
     (state price = 0%Z <-> num_gt (parseFloat price) (of_Z 10) = false) /\
     (num_eq (parseFloat price) (of_Z 10) = true -> state price = 0%Z) /\
     (isNaN (parseFloat price) = true -> state price = 0%Z)).
  { intros price. unfold state. repeat split.
    - destruct (num_gt (parseFloat price) (of_Z 10)); [reflexivity | discriminate].
    - now intros ->.
    - destruct (num_gt (parseFloat price) (of_Z 10)); [discriminate | reflexivity].
    - now intros ->.
    - intros E. now rewrite (eq_not_gt _ _ E).
    - intros E. destruct (parseFloat price); try discriminate. reflexivity. }
  split; [| exact S].
  destruct (tick_success w d5 dh H5 Hh) as (f5 & fh & _ & _ & E).
  eexists. eexists. exists (state current).
  split; [unfold tick; rewrite E; reflexivity |].
  split; [reflexivity |]. exact (S current).
Qed.

Lemma state_threshold_witness :
  (exists image settings,
     tick (world (feed ["15.7"; "7.2"]) (feed ["7.0"]) 1640995260000) =
     [ setImage image; setTitle EmptyString; setSettings settings;
       setState 1 ]) /\
  (exists image settings,
     tick (world (feed ["10.0"; "7.2"]) (feed ["7.0"]) 1640995260000) =
     [ setImage image; setTitle EmptyString; setSettings settings;
       setState 0 ]) /\
  state "invalid" = 0%Z.
Proof.
  pose (w1 := world (feed ["15.7"; "7.2"]) (feed ["7.0"]) 1640995260000).
  pose (w0 := world (feed ["10.0"; "7.2"]) (feed ["7.0"]) 1640995260000).
  assert (A5 : fetched w1 FIVE_MIN_API (map sample ["15.7"; "7.2"]))
    by (eexists; split; [reflexivity | split; reflexivity]).
  assert (Ah : fetched w1 HOURLY_API (map sample ["7.0"]))
    by (eexists; split; [reflexivity | split; reflexivity]).
  assert (B5 : fetched w0 FIVE_MIN_API (map sample ["10.0"; "7.2"]))
    by (eexists; split; [reflexivity | split; reflexivity]).
  assert (Bh : fetched w0 HOURLY_API (map sample ["7.0"]))
    by (eexists; split; [reflexivity | split; reflexivity]).
  destruct (state_threshold w1 _ _ A5 Ah)
    as ((i1 & s1 & n1 & T1 & _ & [_ U1] & _) & _).
  destruct (state_threshold w0 _ _ B5 Bh)
    as ((i0 & s0 & n0 & T0 & _ & _ & _ & Q0 & _) & S).
  unfold w1 in T1. unfold w0 in T0.
  split; [| split].
  - exists i1, s1. rewrite T1. rewrite (U1 ltac:(vm_compute; reflexivity)).
    reflexivity.
  - exists i0, s0. rewrite T0. rewrite (Q0 ltac:(vm_compute; reflexivity)).
    reflexivity.
  - destruct (S "invalid") as (_ & _ & _ & H). apply H. vm_compute. reflexivity.
Defined.

(** C5, as amended.  For a price that parses: when the dollars value is
    at least 1 and below [10^21], [formatPrice] returns ["$"] followed by
    the dollars rounded to two decimals; from [10^21] on, and for an
    infinite value, it returns ["$"] followed by the number as
    [Number::toString] prints it; when the dollars value is at least 0.1
    and below 1 it returns the cents rounded to one decimal followed by
    ["¢"].  In particular ["250.5"] gives ["$2.50"] and ["15.7"] gives
    ["15.7¢"]. *)
Theorem formatPrice_dollars_and_dimes (priceStr : string) :
  isNaN (parseFloat priceStr) = false ->
  let cents := parseFloat priceStr in
  let dollars := div cents (of_Z 100) in
  (num_ge dollars (of_Z 1) = true ->
   is_finite dollars = true -> (to_Q dollars < Qpower 10 21)%Q ->
   exists r, rounded dollars 2 r /\ formatPrice priceStr = Ok ("$" ++ r)) /\
  (num_ge dollars (of_Z 1) = true ->
   is_finite dollars = false \/ (Qpower 10 21 <= to_Q dollars)%Q ->
   formatPrice priceStr = Ok ("$" ++ Number_toString dollars)) /\
  (num_ge dollars (of_decimal false 1 (-1)) = true -> num_lt dollars (of_Z 1) = true ->
   exists r, rounded cents 1 r /\ formatPrice priceStr = Ok (r ++ "¢")) /\
  formatPrice "250.5" = Ok "$2.50" /\
  formatPrice "15.7" = Ok "15.7¢".
Proof.
  intros P cents dollars.
  split; [| split; [| split; [| split; vm_compute; reflexivity]]].
  - intros G Fin Small.
    destruct (formatPrice_dollars priceStr P G) as (d & T & F).
    fold cents dollars in T.
    assert (B : Qle_bool (Qpower 10 21) (Qabs (to_Q dollars)) = false).
    { rewrite one_eq in G.
      apply ge_positive in G as [I | (m & e & E)];
        [rewrite I in Fin; discriminate Fin |].
      rewrite E in Small |- *.
      rewrite (Qleb_comp _ _ (Qeq_refl _) _ _ (Qabs_to_Q false m e)).
      destruct (Qle_bool _ _) eqn:B; [| reflexivity].
      apply Qle_bool_iff in B. lra. }
    destruct (toFixed_rounded dollars 2 ltac:(lia) Fin B) as (r & T' & R).
    change (Z.of_nat 2) with 2%Z in T'. rewrite T in T'. injection T' as ->.
    now exists r.
  - intros G Big.
    destruct (formatPrice_dollars priceStr P G) as (d & T & F).
    fold cents dollars in T. rewrite F. do 2 f_equal.
    rewrite one_eq in G.
    apply ge_positive in G as [I | (m & e & E)].
    + rewrite I in T |- *. injection T as <-. reflexivity.
    + rewrite E in T, Big |- *. destruct Big as [Big | Big]; [discriminate Big |].
      apply Qle_bool_iff in Big.
      rewrite (toFixed_large m e 2 ltac:(lia) Big) in T. now injection T as <-.
  - intros G L.
    destruct (dimes_are_small cents G L) as [Fin B].
    destruct (formatPrice_cents priceStr P (lt_not_ge _ _ L)) as (c & T & F).
    fold cents in T.
    destruct (toFixed_rounded cents 1 ltac:(lia) Fin B) as (r & T' & R).
    change (Z.of_nat 1) with 1%Z in T'. rewrite T in T'. injection T' as ->.
    now exists r.
Qed.

Lemma formatPrice_dollars_and_dimes_witness :
  (exists r, rounded (div (parseFloat "250.5") (of_Z 100)) 2 r /\
             formatPrice "250.5" = Ok ("$" ++ r)) /\
  formatPrice "1e24" =
    Ok ("$" ++ Number_toString (div (parseFloat "1e24") (of_Z 100))) /\
  (exists r, rounded (parseFloat "15.7") 1 r /\
             formatPrice "15.7" = Ok (r ++ "¢")).
Proof.
  split; [| split].
  - destruct (formatPrice_dollars_and_dimes "250.5") as (A & _);
      [vm_compute; reflexivity |].
    apply A; vm_compute; reflexivity.
  - destruct (formatPrice_dollars_and_dimes "1e24") as (_ & A & _);
      [vm_compute; reflexivity |].
    apply A; [vm_compute; reflexivity |].
    right. vm_compute. discriminate.
  - destruct (formatPrice_dollars_and_dimes "15.7") as (_ & _ & A & _);
      [vm_compute; reflexivity |].
    apply A; vm_compute; reflexivity.
Defined.

(** C5, as the specification states it, fails on a price of [10^24]
    cents: the dollars value is [10^22], and it is printed as ["$1e+22"],
    not with two decimals. *)
Lemma huge_price_is_not_two_decimals :
  isNaN (parseFloat "1e24") = false /\
  formatPrice "1e24" = Ok "$1e+22" /\
  ~ formats_as_documented "1e24".
Proof.
  split; [reflexivity |]. split; [vm_compute; reflexivity |].
  intros [H _]. destruct H as (r & R & F); [vm_compute; reflexivity |].
  apply rounded_inv in R. subst r. vm_compute in F. discriminate F.
Qed.

(** C6.  [formatPrice] returns a string for every string and throws
    nothing.  ["N/A"] and every input that does not parse give ["N/A"];
    an input that parses to a number below zero gives a string that
    starts with a minus sign. *)
Theorem formatPrice_never_throws (priceStr : string) :
  exists r,
    formatPrice priceStr = Ok r /\
    (priceStr = "N/A" -> r = "N/A") /\
    (isNaN (parseFloat priceStr) = true -> r = "N/A") /\
    (num_lt (parseFloat priceStr) (S754_zero false) = true ->
     exists digits, r = "-" ++ digits).
Proof.
  destruct (formatPrice_total priceStr) as [r E]. exists r.
  split; [exact E |]. unfold formatPrice in E. repeat split.
  - intros ->. simpl in E. congruence.
  - intros N. rewrite N in E. destruct (_ =? _)%string; congruence.
  - intros L.
    destruct (priceStr =? "N/A")%string eqn:EN.
    { apply String.eqb_eq in EN. subst. vm_compute in L. discriminate. }
    destruct (parseFloat priceStr) as [s|s| |s m e] eqn:EP;
      try discriminate L.
    + destruct s; [| discriminate L]. cbn in E. injection E as <-.
      eexists. reflexivity.
    + destruct s; [| discriminate L].
      cbn [isNaN] in E.
      pose proof (div_sign true m e 7036874417766400 (-46)) as S.
      rewrite <- hundred_eq in S.
      assert (G : num_ge (div (S754_finite true m e) (of_Z 100)) (of_Z 1) = false).
      { destruct (div (S754_finite true m e) (of_Z 100)) as [s'|s'| |s' m' e'];
          cbn in S; subst; reflexivity. }
      rewrite G in E.
      destruct (toFixed (S754_finite true m e) 1) as [c|] eqn:T; [| discriminate].
      injection E as <-.
      destruct (toFixed_negative _ _ _ L T) as [c' ->].
      eexists. reflexivity.
Qed.

Lemma formatPrice_never_throws_witness :
  (exists r, formatPrice "-5" = Ok r /\ exists digits, r = "-" ++ digits) /\
  formatPrice EmptyString = Ok "N/A" /\
  formatPrice "invalid" = Ok "N/A".
Proof.
  split; [| split].
  - destruct (formatPrice_never_throws "-5") as (r & E & _ & _ & H).
    exists r. split; [exact E |]. apply H. vm_compute. reflexivity.
  - destruct (formatPrice_never_throws EmptyString) as (r & E & _ & H & _).
    rewrite E. f_equal. apply H. vm_compute. reflexivity.
  - destruct (formatPrice_never_throws "invalid") as (r & E & _ & H & _).
    rewrite E. f_equal. apply H. vm_compute. reflexivity.
Defined.

(** C7.  A rendering input is two formatted prices (results of
    [formatPrice]), a raw price and a trend.  For every one of them the
    icon holds the up triangle in red exactly when the trend is [up], and
    the down triangle in green exactly when it is [down]; it holds no up
    triangle at all unless the trend is [up], and no down triangle unless
    it is [down], so that a [neutral] icon holds neither. *)
Theorem trend_glyph_iff (p5 ph raw f5 fh : string) (t : Trend) :
  formatPrice p5 = Ok f5 -> formatPrice ph = Ok fh ->
  let svg := generatePricingSVG f5 fh raw t in
  (includes svg redUpGlyph = true <-> t = up) /\
  (includes svg greenDownGlyph = true <-> t = down) /\
  (includes svg "▲" = true <-> t = up) /\
  (includes svg "▼" = true <-> t = down).
Proof.
  intros E5 Eh svg.
  pose proof (formatPrice_no_glyph _ _ E5) as N5.
  pose proof (formatPrice_no_glyph _ _ Eh) as Nh.
  assert (U : includes svg "▲" = match t with up => true | _ => false end).
  { unfold svg. rewrite (includes_triangle f5 fh raw t _ N5 Nh).
    apply trend_line_up. now apply after_trend_no_glyph. }
  assert (D : includes svg "▼" = match t with down => true | _ => false end).
  { unfold svg. rewrite (includes_triangle f5 fh raw t _ N5 Nh).
    apply trend_line_down. now apply after_trend_no_glyph. }
  assert (RU : redUpGlyph = trendOpen up ++ "▲" ++ "</text>")
    by (vm_compute; reflexivity).
  assert (GD : greenDownGlyph = trendOpen down ++ "▼" ++ "</text>")
    by (vm_compute; reflexivity).
  repeat split.
  - intros H. rewrite RU in H. apply includes_infix in H.
    rewrite U in H. now destruct t.
  - intros ->. unfold svg. rewrite icon_split.
    change (trendText up) with redUpGlyph. apply includes_here.
  - intros H. rewrite GD in H. apply includes_infix in H.
    rewrite D in H. now destruct t.
  - intros ->. unfold svg. rewrite icon_split.
    change (trendText down) with greenDownGlyph. apply includes_here.
  - rewrite U. now destruct t.
  - intros ->. now rewrite U.
  - rewrite D. now destruct t.
  - intros ->. now rewrite D.
Qed.

Lemma trend_glyph_iff_witness :
  includes (generatePricingSVG "8.5¢" "7.0¢" "8.5" up) redUpGlyph = true.
Proof.
  destruct (trend_glyph_iff "8.5" "7.0" "8.5" "8.5¢" "7.0¢" up) as ([_ H] & _).
  - vm_compute. reflexivity.
  - vm_compute. reflexivity.
  - apply H. reflexivity.
Defined.



(** C9.  Two runs that succeed and differ only in what the hourly
    request returned set the same title and the same state; their images
    are the same template up to the hourly text, which is the only part
    that differs; and their settings agree on the 5-minute price, its
    formatted text, the trend and the time.  The hourly feed reaches the
    hourly text of the icon and the two hourly settings fields only. *)
Theorem hourly_feed_reaches_only_secondary
    (w1 w2 : World) (d5 dh1 dh2 : list ComedPriceData) :
  fetched w1 FIVE_MIN_API d5 -> fetched w2 FIVE_MIN_API d5 ->
  fetched w1 HOURLY_API dh1 -> fetched w2 HOURLY_API dh2 ->
  Date_now w1 = Date_now w2 ->
  let raw := or_else (price_at d5 0) "N/A" in
  let tr := calculateTrend (price_at d5 1) raw in
  exists f5 fh1 fh2 s1 s2,
    let upper := svgHead ++ primaryColor raw ++ svgPrimary ++ f5 ++ svgTrend
                 ++ trendText tr ++ svgSecondary in
    formatPrice raw = Ok f5 /\
    formatPrice (or_else (price_at dh1 0) "N/A") = Ok fh1 /\
    formatPrice (or_else (price_at dh2 0) "N/A") = Ok fh2 /\
    tick w1 = [ setImage (dataURI (upper ++ fh1 ++ svgTail));
                setTitle EmptyString; setSettings s1; setState (state raw) ] /\
    tick w2 = [ setImage (dataURI (upper ++ fh2 ++ svgTail));
                setTitle EmptyString; setSettings s2; setState (state raw) ] /\
    fiveMinPrice s1 = raw /\ fiveMinPrice s2 = raw /\
    fiveMinFormatted s1 = f5 /\ fiveMinFormatted s2 = f5 /\
    trend s1 = tr /\ trend s2 = tr /\
    lastUpdate s1 = lastUpdate s2 /\
    hourlyPrice s1 = or_else (price_at dh1 0) "N/A" /\
    hourlyPrice s2 = or_else (price_at dh2 0) "N/A" /\
    hourlyFormatted s1 = fh1 /\ hourlyFormatted s2 = fh2.
Proof.
  intros A1 A2 B1 B2 T raw tr.
  destruct (tick_success w1 d5 dh1 A1 B1) as (f5 & fh1 & F5 & F1 & E1).
  destruct (tick_success w2 d5 dh2 A2 B2) as (f5' & fh2 & F5' & F2 & E2).
  fold raw in F5, F5'. rewrite F5 in F5'. injection F5' as <-.
  eexists f5, fh1, fh2, _, _. cbv zeta.
  split; [exact F5 |]. split; [exact F1 |]. split; [exact F2 |].
  split.
  { unfold tick. rewrite E1. cbn [snd]. rewrite generatePricingSVG_eq.
    rewrite !append_assoc. reflexivity. }
  split.
  { unfold tick. rewrite E2. cbn [snd]. rewrite generatePricingSVG_eq.
    rewrite !append_assoc. reflexivity. }
  cbn. repeat split; try reflexivity. exact T.
Qed.

Lemma hourly_feed_reaches_only_secondary_witness :
  exists image1 image2 s1 s2 st,
    tick (world (feed ["8.5"; "7.2"]) (feed ["7.0"]) 1640995260000) =
      [ setImage image1; setTitle EmptyString; setSettings s1; setState st ] /\
    tick (world (feed ["8.5"; "7.2"]) (feed ["125.0"]) 1640995260000) =
      [ setImage image2; setTitle EmptyString; setSettings s2; setState st ] /\
    trend s1 = trend s2.
Proof.
  pose (w1 := world (feed ["8.5"; "7.2"]) (feed ["7.0"]) 1640995260000).
  pose (w2 := world (feed ["8.5"; "7.2"]) (feed ["125.0"]) 1640995260000).
  assert (A1 : fetched w1 FIVE_MIN_API (map sample ["8.5"; "7.2"]))
    by (eexists; split; [reflexivity | split; reflexivity]).
  assert (A2 : fetched w2 FIVE_MIN_API (map sample ["8.5"; "7.2"]))
    by (eexists; split; [reflexivity | split; reflexivity]).
  assert (B1 : fetched w1 HOURLY_API (map sample ["7.0"]))
    by (eexists; split; [reflexivity | split; reflexivity]).
  assert (B2 : fetched w2 HOURLY_API (map sample ["125.0"]))
    by (eexists; split; [reflexivity | split; reflexivity]).
  destruct (hourly_feed_reaches_only_secondary w1 w2 _ _ _ A1 A2 B1 B2 eq_refl)
    as (f5 & fh1 & fh2 & s1 & s2 & T).
  cbv zeta in T.
  destruct T as (_ & _ & _ & E1 & E2 & _ & _ & _ & _ & T1 & T2 & _).
  eexists _, _, s1, s2, _. split; [exact E1 |]. split; [exact E2 |].
  now rewrite T1, T2.
Defined.

(** C10.  On a run where both requests succeed, a first entry whose
    price is the empty string, or is missing, is read as ["N/A"] exactly
    as a feed without a first entry is: the price stored is ["N/A"] and
    so is its formatted text.  When the 5-minute feed has no usable
    second price, the trend is [neutral]. *)
Theorem falsy_price_reads_as_missing
    (w : World) (d5 dh : list ComedPriceData) :
  fetched w FIVE_MIN_API d5 -> fetched w HOURLY_API dh ->
  exists image s st,
    tick w = [ setImage image; setTitle EmptyString; setSettings s; setState st ] /\
    (no_price d5 0%nat -> fiveMinPrice s = "N/A" /\ fiveMinFormatted s = "N/A") /\
    (no_price dh 0%nat -> hourlyPrice s = "N/A" /\ hourlyFormatted s = "N/A") /\
    (no_price d5 1%nat -> trend s = neutral).
Proof.
  intros H5 Hh.
  destruct (tick_success w d5 dh H5 Hh) as (f5 & fh & F5 & Fh & E).
  eexists _, _, _. split; [unfold tick; rewrite E; reflexivity |].
  assert (P : forall d i, no_price d i -> price_at d i = None \/
                                         price_at d i = Some EmptyString).
  { intros d i [N | (e & N & [P | P])]; unfold price_at; rewrite N; auto. }
  cbn [fiveMinPrice fiveMinFormatted hourlyPrice hourlyFormatted trend].
  split; [| split].
  - intros A. apply P in A.
    assert (R : or_else (price_at d5 0) "N/A" = "N/A")
      by (destruct A as [-> | ->]; reflexivity).
    rewrite R in F5 |- *. split; [reflexivity |].
    cbn in F5. congruence.
  - intros A. apply P in A.
    assert (R : or_else (price_at dh 0) "N/A" = "N/A")
      by (destruct A as [-> | ->]; reflexivity).
    rewrite R in Fh |- *. split; [reflexivity |].
    cbn in Fh. congruence.
  - intros A. apply P in A. unfold calculateTrend.
    destruct A as [-> | ->]; reflexivity.
Qed.

Lemma falsy_price_reads_as_missing_witness :
  exists image s st,
    tick (world (feed [EmptyString; EmptyString]) (feed ["7.0"]) 1640995260000) =
      [ setImage image; setTitle EmptyString; setSettings s; setState st ] /\
    fiveMinPrice s = "N/A" /\ fiveMinFormatted s = "N/A" /\ trend s = neutral.
Proof.
  pose (w := world (feed [EmptyString; EmptyString]) (feed ["7.0"]) 1640995260000).
  assert (H5 : fetched w FIVE_MIN_API (map sample [EmptyString; EmptyString]))
    by (eexists; split; [reflexivity | split; reflexivity]).
  assert (Hh : fetched w HOURLY_API (map sample ["7.0"]))
    by (eexists; split; [reflexivity | split; reflexivity]).
  destruct (falsy_price_reads_as_missing w _ _ H5 Hh)
    as (image & s & st & E & P0 & _ & P1).
  exists image, s, st. split; [exact E |].
  assert (N0 : no_price (map sample [EmptyString; EmptyString]) 0)
    by (right; eexists; split; [reflexivity | left; reflexivity]).
  assert (N1 : no_price (map sample [EmptyString; EmptyString]) 1)
    by (right; eexists; split; [reflexivity | left; reflexivity]).
  destruct (P0 N0) as [Q1 Q2]. split; [exact Q1 |]. split; [exact Q2 |].
  exact (P1 N1).
Defined.

(* ================================================================= *)
(** ** Facts about runs *)

Module RunFacts.
Import JsString Float64 JsNumber ComedPricing Spec Notions.
Import StringFacts FloatFacts NumberFacts ComedFacts.

(** Calls already made stay as they are: a run adds its own after them. *)
Lemma updatePricing_appends (w : World) (t : list Call) :
  updatePricing w t = (fst (updatePricing w []), (t ++ tick w)%list).
Proof.
  unfold tick, updatePricing, try_catch, bind, await, Promise_all, throw, call.
  destruct (fetch w FIVE_MIN_API) as [r5|e5], (fetch w HOURLY_API) as [rh|eh];
    cbn [fst snd]; try (rewrite <- !app_assoc; reflexivity).
  destruct (negb (ok r5) || negb (ok rh));
    cbn [fst snd]; try (rewrite <- !app_assoc; reflexivity).
  destruct (json r5) as [d5|e5]; cbn [fst snd];
    try (rewrite <- !app_assoc; reflexivity).
  destruct (json rh) as [dh|eh]; cbn [fst snd];
    try (rewrite <- !app_assoc; reflexivity).
  destruct (formatPrice (or_else (price_at d5 0) "N/A")) as [f5|e5]; cbn [fst snd];
    try (rewrite <- !app_assoc; reflexivity).
  destruct (formatPrice (or_else (price_at dh 0) "N/A")) as [fh|eh]; cbn [fst snd];
    try (rewrite <- !app_assoc; reflexivity).
Qed.

(** What a run does, by what the two requests came to. *)
Lemma tick_cases (w : World) :
  (exists d5 dh s,
     fetched w FIVE_MIN_API d5 /\ fetched w HOURLY_API dh /\
     updatePricing w [] = (Ok tt, display_calls s) /\
     fiveMinPrice s = or_else (price_at d5 0) "N/A" /\
     hourlyPrice s = or_else (price_at dh 0) "N/A" /\
     formatPrice (fiveMinPrice s) = Ok (fiveMinFormatted s) /\
     formatPrice (hourlyPrice s) = Ok (hourlyFormatted s) /\
     trend s = calculateTrend (price_at d5 1) (fiveMinPrice s) /\
     lastUpdate s = Date_now w) \/
  (exists e,
     ~ (exists d5 dh, fetched w FIVE_MIN_API d5 /\ fetched w HOURLY_API dh) /\
     updatePricing w [] = (Ok tt, error_calls e)).
Proof.
  destruct (fetch w FIVE_MIN_API) as [r5|e5] eqn:F5.
  2:{ right. exists e5. split.
      - intros (x & y & (r & F & _) & _). congruence.
      - unfold updatePricing, try_catch, bind, await, Promise_all. rewrite F5.
        reflexivity. }
  destruct (fetch w HOURLY_API) as [rh|eh] eqn:Fh.
  2:{ right. exists eh. split.
      - intros (x & y & _ & (r & F & _)). congruence.
      - unfold updatePricing, try_catch, bind, await, Promise_all. rewrite F5, Fh.
        reflexivity. }
  destruct (ok r5) eqn:O5.
  2:{ right. exists (Error "API request failed"). split.
      - intros (x & y & (r & F & O & _) & _). congruence.
      - unfold updatePricing, try_catch, bind, await, Promise_all. rewrite F5, Fh, O5.
        reflexivity. }
  destruct (ok rh) eqn:Oh.
  2:{ right. exists (Error "API request failed"). split.
      - intros (x & y & _ & (r & F & O & _)). congruence.
      - unfold updatePricing, try_catch, bind, await, Promise_all.
        rewrite F5, Fh, O5, Oh. reflexivity. }
  destruct (json r5) as [d5|e5] eqn:J5.
  2:{ right. exists e5. split.
      - intros (x & y & (r & F & _ & J) & _). congruence.
      - unfold updatePricing, try_catch, bind, await, Promise_all.
        rewrite F5, Fh, O5, Oh. cbn [negb orb]. rewrite J5. reflexivity. }
  destruct (json rh) as [dh|eh] eqn:Jh.
  2:{ right. exists eh. split.
      - intros (x & y & _ & (r & F & _ & J)). congruence.
      - unfold updatePricing, try_catch, bind, await, Promise_all.
        rewrite F5, Fh, O5, Oh. cbn [negb orb]. rewrite J5, Jh. reflexivity. }
  left.
  assert (H5 : fetched w FIVE_MIN_API d5) by (exists r5; auto).
  assert (Hh : fetched w HOURLY_API dh) by (exists rh; auto).
  destruct (tick_success w d5 dh H5 Hh) as (f5 & fh & E5 & Eh & E).
  exists d5, dh.
  eexists {| fiveMinPrice := _; hourlyPrice := _; fiveMinFormatted := f5;
             hourlyFormatted := fh; trend := _; lastUpdate := _ |}.
  split; [exact H5 |]. split; [exact Hh |]. split; [exact E |].
  cbn. repeat split; assumption.
Qed.

Lemma stamped_fetched (five hourly : list (string * string)) (now : Z) :
  fetched (world (stamped five) (stamped hourly) now) FIVE_MIN_API
          (map (fun e => {| millisUTC := fst e; price := Some (snd e) |}) five) /\
  fetched (world (stamped five) (stamped hourly) now) HOURLY_API
          (map (fun e => {| millisUTC := fst e; price := Some (snd e) |}) hourly).
Proof.
  split; eexists; (split; [reflexivity | split; reflexivity]).
Qed.

End RunFacts.

(* ================================================================= *)
(** ** Facts about the comparison of two prices *)

Module TrendFacts.
Import JsString Float64 JsNumber ComedPricing Spec Notions.
Import StringFacts FloatFacts NumberFacts ComedFacts.

Lemma num_eq_refl (x : float) : isNaN x = false -> num_eq x x = true.
Proof.
  intros H. unfold num_eq, SFeqb.
  destruct x as [s|s| |s m e]; try discriminate; cbn.
  - reflexivity.
  - now destruct s.
  - destruct s; rewrite Z.compare_refl, Pos.compare_cont_refl; reflexivity.
Qed.

(** The guards of [calculateTrend] on the empty string and on ["N/A"]
    select prices that do not parse. *)
Lemma calculateTrend_numbers (a b : string) :
  calculateTrend (Some a) b = trend_of_numbers (parseFloat a) (parseFloat b).
Proof.
  unfold calculateTrend, trend_of_numbers. cbn [ToBoolean ToString strict_eq].
  destruct a as [|ca a'].
  - reflexivity.
  - cbn [is_empty negb orb].
    destruct (String ca a' =? "N/A")%string eqn:Ea.
    + apply String.eqb_eq in Ea. rewrite Ea. reflexivity.
    + destruct (b =? "N/A")%string eqn:Eb; [| reflexivity].
      apply String.eqb_eq in Eb. rewrite Eb.
      change (parseFloat "N/A") with NaN. cbn [isNaN orb].
      now rewrite orb_true_r.
Qed.

Lemma trend_of_numbers_swap (p c : float) :
  trend_of_numbers p c = opposite (trend_of_numbers c p).
Proof.
  unfold trend_of_numbers. rewrite (orb_comm (isNaN c)).
  destruct (isNaN p) eqn:Hp; [reflexivity |].
  destruct (isNaN c) eqn:Hc; [reflexivity |]. cbn [orb].
  destruct (trichotomy c p Hc Hp) as [T | [T | T]].
  - rewrite T. pose proof (gt_lt_exclusive _ _ T) as L.
    unfold num_gt, num_lt in *. rewrite L, T. reflexivity.
  - assert (G : num_gt c p = false).
    { destruct (num_gt c p) eqn:E; [| reflexivity].
      now rewrite (gt_lt_exclusive _ _ E) in T. }
    rewrite G, T. unfold num_gt, num_lt in *. rewrite T. reflexivity.
  - rewrite (eq_not_gt _ _ T), (eq_not_lt _ _ T).
    pose proof (eq_not_gt _ _ T) as G. pose proof (eq_not_lt _ _ T) as L.
    unfold num_gt, num_lt in *. rewrite L, G. reflexivity.
Qed.

Lemma trend_of_numbers_same (x : float) : trend_of_numbers x x = neutral.
Proof.
  unfold trend_of_numbers. destruct (isNaN x) eqn:H; [reflexivity |]. cbn [orb].
  pose proof (num_eq_refl x H) as E.
  now rewrite (eq_not_gt _ _ E), (eq_not_lt _ _ E).
Qed.

(** [strip] stops where it would stop again. *)
Lemma strip_idempotent (fwd : bool) (s : string) :
  strip fwd (strip fwd s) = strip fwd s.
Proof.
  remember (String.length s) as n eqn:Hn.
  revert s Hn. induction n as [n IH] using lt_wf_ind. intros s Hn.
  destruct s as [|c1 r1]; [reflexivity |].
  change (strip fwd (String c1 r1)) with
    (if ws1 c1 then strip fwd r1 else
     match r1 with
     | EmptyString => String c1 r1
     | String c2 r2 =>
       if (if fwd then ws2 c1 c2 else ws2 c2 c1) then strip fwd r2 else
       match r2 with
       | EmptyString => String c1 r1
       | String c3 r3 =>
         if (if fwd then ws3 c1 c2 c3 else ws3 c3 c2 c1)
         then strip fwd r3 else String c1 r1
       end
     end).
  destruct (ws1 c1) eqn:W1.
  { apply (IH (String.length r1)); [subst; cbn; lia | reflexivity]. }
  destruct r1 as [|c2 r2].
  { cbn [strip]. now rewrite W1. }
  destruct (if fwd then ws2 c1 c2 else ws2 c2 c1) eqn:W2.
  { apply (IH (String.length r2)); [subst; cbn; lia | reflexivity]. }
  destruct r2 as [|c3 r3].
  { cbn [strip]. now rewrite W1, W2. }
  destruct (if fwd then ws3 c1 c2 c3 else ws3 c3 c2 c1) eqn:W3.
  { apply (IH (String.length r3)); [subst; cbn; lia | reflexivity]. }
  cbn [strip]. now rewrite W1, W2, W3.
Qed.

Lemma parseFloat_trimStart (s : string) :
  parseFloat (trimStart s) = parseFloat s.
Proof. unfold parseFloat, trimStart. now rewrite strip_idempotent. Qed.

(** Two prices that parse to the same number are formatted alike. *)
Lemma formatPrice_numbers (a b : string) :
  parseFloat a = parseFloat b -> formatPrice a = formatPrice b.
Proof.
  intros E. unfold formatPrice.
  destruct (a =? "N/A")%string eqn:A.
  - apply String.eqb_eq in A. subst a. change (parseFloat "N/A") with NaN in E.
    rewrite <- E. cbn [isNaN]. now destruct (b =? "N/A")%string.
  - destruct (b =? "N/A")%string eqn:B.
    + apply String.eqb_eq in B. subst b. change (parseFloat "N/A") with NaN in E.
      rewrite E. reflexivity.
    + cbv zeta. now rewrite E.
Qed.

End TrendFacts.

(* ================================================================= *)
(** ** Facts about rounding *)

Module RoundingFacts.
Import JsString Float64 JsNumber ComedPricing Spec Notions.
Import StringFacts FloatFacts NumberFacts ComedFacts.

(** Dividing a number of at least [10^21] by 100 gives at least 1. *)
Lemma div_hundred_large_ge (m : positive) (e : Z) :
  Qle_bool (Qpower 10 21) (to_Q (S754_finite false m e)) = true ->
  num_ge (div (S754_finite false m e) (of_Z 100)) (of_Z 1) = true.
Proof.
  intros H. apply large_has_70_bits in H.
  destruct (div_core_large m e H) as (q & e' & l & E & Hq & He).
  rewrite hundred_eq, one_eq. unfold div, SFdiv. rewrite E.
  pose proof (binary_round_aux_lower (xorb false false) q e' l Hq He) as L.
  pose proof (binary_round_aux_sign (xorb false false) q e' l) as S.
  destruct (binary_round_aux prec emax (xorb false false) q e' l)
    as [s'|s'| |s' m2 e2]; try contradiction; cbn in S; subst s'.
  - reflexivity.
  - unfold num_ge, SFleb, SFcompare.
    destruct (Z.compare_spec (-52) e2)%Z; try lia; reflexivity.
Qed.

(** A price that is not formatted in dollars is below [10^21] cents. *)
Lemma below_dollar_small (cents : float) :
  is_finite cents = true ->
  num_ge (div cents (of_Z 100)) (of_Z 1) = false ->
  (- Qpower 10 21 < to_Q cents)%Q ->
  Qle_bool (Qpower 10 21) (Qabs (to_Q cents)) = false.
Proof.
  intros Fin G Low.
  destruct (Qle_bool (Qpower 10 21) (Qabs (to_Q cents))) eqn:B; [| reflexivity].
  exfalso. destruct cents as [s|s| |s m e]; try discriminate Fin.
  - discriminate B.
  - rewrite (Qleb_comp _ _ (Qeq_refl _) _ _ (Qabs_to_Q s m e)) in B.
    destruct s.
    + apply Qle_bool_iff in B. revert Low. apply Qle_not_lt.
      assert (E : (to_Q (S754_finite true m e) == - to_Q (S754_finite false m e))%Q).
      { cbn [to_Q]. ring. }
      rewrite E. now apply Qopp_le_compat.
    + rewrite (div_hundred_large_ge m e B) in G. discriminate G.
Qed.

(** At least one dollar is at least a dime. *)
Lemma dollar_is_dime (d : float) :
  num_ge d (of_Z 1) = true -> num_ge d (of_decimal false 1 (-1)) = true.
Proof.
  intros G. pose proof G as G'. rewrite one_eq in G'.
  apply ge_positive in G' as [E | (m & e & E)]; subst d; [reflexivity |].
  change (of_decimal false 1 (-1))
    with (S754_finite false 7205759403792794 (-56)).
  rewrite one_eq in G. unfold num_ge, SFleb, SFcompare in *.
  destruct (Z.compare_spec (-52) e)%Z as [E | L | L].
  - subst e. reflexivity.
  - destruct (Z.compare_spec (-56) e)%Z; try lia; reflexivity.
  - discriminate G.
Qed.

Local Open Scope Z_scope.

Lemma Zdigits2_nonneg (m : Z) : 0 <= Zdigits2 m.
Proof. destruct m; cbn; lia. Qed.

Lemma Zdigits2_upper (m k : Z) : 0 <= k -> 0 <= m < 2 ^ k -> Zdigits2 m <= k.
Proof.
  intros Hk [H0 Hm]. destruct (Z.eq_dec m 0) as [-> | N]; [cbn; lia |].
  destruct (Zdigits2_bounds m ltac:(lia)) as (Dp & Dl & _).
  assert (Zdigits2 m - 1 < k); [| lia].
  apply (Z.pow_lt_mono_r_iff 2); lia.
Qed.

Lemma Zdigits2_lt (m : Z) : 0 <= m -> m < 2 ^ Zdigits2 m.
Proof.
  intros H. destruct (Z.eq_dec m 0) as [-> | N]; [cbn; lia |].
  apply Zdigits2_bounds. lia.
Qed.

(** What [shr_fexp] returns for a mantissa that is not negative. *)
Lemma shr_fexp_spec (m e : Z) (l : location) (mrs : shr_record) (e' : Z) :
  0 <= m -> shr_fexp prec emax m e l = (mrs, e') ->
  e' = Z.max e (Z.max (Zdigits2 m + e - 53) (-1074)) /\
  shr_m mrs = m / 2 ^ (e' - e).
Proof.
  intros Hm. unfold shr_fexp, shr, fexp, emin, prec, emax.
  set (d := Zdigits2 m) in *.
  change (3 - 1024 - 53) with (-1074).
  destruct (Z.max (d + e - 53) (-1074) - e) as [|n|n] eqn:En;
    intros [= <- <-].
  - rewrite shr_record_of_loc_m. split; [lia |].
    replace (e - e) with 0 by lia. now rewrite Z.div_1_r.
  - rewrite iter_pos_shr_m by (rewrite shr_record_of_loc_m; lia).
    rewrite shr_record_of_loc_m. split; [lia |].
    f_equal. f_equal. lia.
  - rewrite shr_record_of_loc_m. split; [lia |].
    replace (e - e) with 0 by lia. now rewrite Z.div_1_r.
Qed.

Lemma shr_fexp_bounded (m e : Z) (l : location) (mrs : shr_record) (e' : Z) :
  0 <= m -> shr_fexp prec emax m e l = (mrs, e') ->
  0 <= shr_m mrs < 2 ^ 53 /\
  Zdigits2 (shr_m mrs) + e' <= Z.max (Zdigits2 m + e) e'.
Proof.
  intros Hm E. destruct (shr_fexp_spec m e l mrs e' Hm E) as [Ee Em].
  pose proof (Zdigits2_lt m Hm) as Du.
  pose proof (Zdigits2_nonneg m) as Dn.
  set (d := Zdigits2 m) in *.
  assert (Hn : 0 <= e' - e) by lia.
  assert (P : 0 < 2 ^ (e' - e)) by (apply Z.pow_pos_nonneg; lia).
  assert (Q0 : 0 <= shr_m mrs) by (rewrite Em; apply Z.div_pos; lia).
  assert (B : forall k, 0 <= k -> d <= k + (e' - e) -> shr_m mrs < 2 ^ k).
  { intros k Hk Hd. rewrite Em. apply Z.div_lt_upper_bound; [exact P |].
    rewrite <- Z.pow_add_r by lia.
    apply Z.lt_le_trans with (2 ^ d); [exact Du |].
    apply Z.pow_le_mono_r; lia. }
  split.
  - split; [exact Q0 |]. apply B; lia.
  - destruct (Z_le_gt_dec d (e' - e)) as [S | S].
    + assert (shr_m mrs < 2 ^ 0) by (apply B; lia).
      replace (shr_m mrs) with 0 by (cbn in *; lia). cbn. lia.
    + assert (Zdigits2 (shr_m mrs) <= d - (e' - e)).
      { apply Zdigits2_upper; [lia |]. split; [exact Q0 |]. apply B; lia. }
      lia.
Qed.

Lemma round_nearest_even_upper (m : Z) (l : location) :
  round_nearest_even m l <= m + 1.
Proof.
  unfold round_nearest_even. destruct l as [|[]]; try lia.
  destruct (Z.even m); lia.
Qed.

Lemma Zdigits2_succ (m r : Z) :
  0 <= m -> m <= r <= m + 1 -> Zdigits2 r <= Zdigits2 m + 1.
Proof.
  intros Hm Hr. pose proof (Zdigits2_lt m Hm). pose proof (Zdigits2_nonneg m).
  apply Zdigits2_upper; [lia |]. rewrite Z.pow_add_r by lia.
  change (2 ^ 1) with 2. lia.
Qed.

(** The mantissa of a rounded number has at most 53 bits. *)
Lemma binary_round_aux_bounded (s : bool) (m e : Z) (l : location) (s' : bool)
                               (m' : positive) (e' : Z) :
  0 <= m -> binary_round_aux prec emax s m e l = S754_finite s' m' e' ->
  Zpos m' < 2 ^ 53.
Proof.
  intros Hm. unfold binary_round_aux.
  destruct (shr_fexp prec emax m e l) as [mrs1 e1] eqn:E1.
  destruct (shr_fexp_bounded m e l mrs1 e1 Hm E1) as [[M1 _] _].
  set (r := round_nearest_even (shr_m mrs1) (loc_of_shr_record mrs1)).
  pose proof (round_nearest_even_lower (shr_m mrs1) (loc_of_shr_record mrs1)) as Hr.
  fold r in Hr.
  destruct (shr_fexp prec emax r e1 loc_Exact) as [mrs2 e2] eqn:E2.
  destruct (shr_fexp_bounded r e1 loc_Exact mrs2 e2 ltac:(lia) E2) as [[_ M2] _].
  destruct (shr_m mrs2) as [|p|p]; try discriminate.
  destruct (e2 <=? emax - prec); [| destruct s; discriminate].
  intros [= _ <- _]. exact M2.
Qed.

(** A value below one quarter rounds to a number with an exponent under
    that of one, or to zero. *)
Lemma binary_round_aux_upper (s : bool) (m e : Z) (l : location) :
  0 <= m -> Zdigits2 m + e <= -2 -> e <= -54 ->
  match binary_round_aux prec emax s m e l with
  | S754_zero _ => True
  | S754_finite _ _ e2 => e2 <= -54
  | _ => False
  end.
Proof.
  intros Hm Hd He. unfold binary_round_aux.
  destruct (shr_fexp prec emax m e l) as [mrs1 e1] eqn:E1.
  destruct (shr_fexp_spec m e l mrs1 e1 Hm E1) as [Ee1 _].
  destruct (shr_fexp_bounded m e l mrs1 e1 Hm E1) as [[M1 _] D1].
  set (r := round_nearest_even (shr_m mrs1) (loc_of_shr_record mrs1)).
  pose proof (round_nearest_even_lower (shr_m mrs1) (loc_of_shr_record mrs1)) as Hr.
  pose proof (round_nearest_even_upper (shr_m mrs1) (loc_of_shr_record mrs1)) as Hr'.
  fold r in Hr, Hr'.
  pose proof (Zdigits2_succ (shr_m mrs1) r M1 (conj Hr Hr')) as Dr.
  destruct (shr_fexp prec emax r e1 loc_Exact) as [mrs2 e2] eqn:E2.
  destruct (shr_fexp_spec r e1 loc_Exact mrs2 e2 ltac:(lia) E2) as [Ee2 _].
  destruct (shr_fexp_bounded r e1 loc_Exact mrs2 e2 ltac:(lia) E2) as [[M2 _] _].
  assert (L2 : e2 <= -54) by lia.
  destruct (shr_m mrs2) as [|p|p]; [exact I | | lia].
  replace (e2 <=? emax - prec) with true
    by (symmetry; apply Z.leb_le; unfold emax, prec; lia).
  exact L2.
Qed.

Lemma ten_eq : of_Z 10 = S754_finite false 5629499534213120 (-49).
Proof. reflexivity. Qed.

(** Dividing a number below sixteen by 100 gives less than 1. *)
Lemma div_hundred_small (m : positive) (e : Z) :
  Zpos m < 2 ^ 53 -> e <= -49 ->
  num_ge (div (S754_finite false m e) (of_Z 100)) (of_Z 1) = false.
Proof.
  intros Hm He.
  rewrite hundred_eq, one_eq. unfold div, SFdiv.
  destruct (SFdiv_core_binary prec emax (Zpos m) e 7036874417766400 (-46))
    as [[q e'] l] eqn:E.
  assert (H : 0 <= q /\ Zdigits2 q + e' <= -2 /\ e' <= -54).
  { revert E. unfold SFdiv_core_binary.
    change (Zdigits2 7036874417766400) with 53.
    assert (D : Zdigits2 (Zpos m) <= 53)
      by (apply Zdigits2_upper; lia).
    pose proof (Zdigits2_lt (Zpos m) ltac:(lia)) as Du.
    pose proof (Zdigits2_nonneg (Zpos m)) as Dn.
    set (d := Zdigits2 (Zpos m)) in *.
    unfold fexp, emin, prec, emax. change (3 - 1024 - 53) with (-1074).
    set (e0 := Z.min (Z.max (d + e - (53 + -46) - 53) (-1074)) (e - -46)).
    set (sft := e - -46 - e0).
    set (m0 := match sft with
               | 0 => Zpos m
               | Zpos _ => Z.shiftl (Zpos m) sft
               | Zneg _ => 0
               end).
    assert (S0 : 0 <= sft) by (unfold sft, e0; lia).
    assert (M0 : m0 = Zpos m * 2 ^ sft).
    { unfold m0. destruct sft as [|p|p] eqn:S; try lia.
      apply Z.shiftl_mul_pow2. lia. }
    destruct (Z.div_eucl m0 7036874417766400) as [q0 r0] eqn:Q.
    intros [= <- <- <-].
    assert (Eq : q0 = m0 / 7036874417766400) by (unfold Z.div; now rewrite Q).
    assert (P : 0 < 2 ^ sft) by (apply Z.pow_pos_nonneg; lia).
    assert (Q0 : 0 <= q0) by (rewrite Eq; apply Z.div_pos; lia).
    split; [exact Q0 |]. split; [| unfold e0; lia].
    assert (B : forall k, 0 <= k -> d + sft <= k + 52 -> q0 < 2 ^ k).
    { intros k Hk Hd. rewrite Eq. apply Z.div_lt_upper_bound; [lia |].
      apply Z.lt_le_trans with (2 ^ (d + sft)).
      - rewrite M0, Z.pow_add_r by lia. apply Z.mul_lt_mono_pos_r; lia.
      - apply Z.le_trans with (2 ^ (52 + k)); [apply Z.pow_le_mono_r; lia |].
        rewrite Z.pow_add_r by lia.
        apply Z.mul_le_mono_nonneg_r; [lia |]. cbn. lia. }
    destruct (Z_le_gt_dec (d + sft) 52) as [S | S].
    - assert (q0 < 2 ^ 0) by (apply B; lia).
      replace q0 with 0 by (cbn in *; lia). cbn. unfold e0. lia.
    - assert (Zdigits2 q0 <= d + sft - 52)
        by (apply Zdigits2_upper; [lia |]; split; [exact Q0 | apply B; lia]).
      unfold sft in *. lia. }
  destruct H as (Hq & Hd & He').
  pose proof (binary_round_aux_upper (xorb false false) q e' l Hq Hd He') as U.
  pose proof (binary_round_aux_sign (xorb false false) q e' l) as S.
  destruct (binary_round_aux prec emax (xorb false false) q e' l)
    as [s'|s'| |s' m2 e2]; try contradiction; cbn in S; subst s'.
  - reflexivity.
  - unfold num_ge, SFleb, SFcompare.
    destruct (Z.compare_spec (-52) e2); try lia; reflexivity.
Qed.

(** The numbers [parseFloat] returns have at most 53 bits. *)
Lemma of_decimal_bounded (neg : bool) (m e : Z) (s : bool) (m' : positive) (e' : Z) :
  of_decimal neg m e = S754_finite s m' e' -> Zpos m' < 2 ^ 53.
Proof.
  unfold of_decimal. destruct m as [|p|p]; try discriminate.
  destruct (0 <=? e) eqn:Ee.
  - unfold binary_round.
    destruct (shl_align _ _ _) as [mz ez]. intros H.
    eapply binary_round_aux_bounded; [| exact H]. lia.
  - destruct (SFdiv_core_binary prec emax (Zpos p) 0 (10 ^ (- e)) 0)
      as [[mz ez] lz] eqn:E.
    intros H. eapply binary_round_aux_bounded; [| exact H]. clear H.
    revert E. unfold SFdiv_core_binary.
    set (sft := 0 - 0 - _).
    set (m0 := match sft with
               | 0 => Zpos p
               | Zpos _ => Z.shiftl (Zpos p) sft
               | Zneg _ => 0
               end).
    assert (M0 : 0 <= m0).
    { unfold m0. destruct sft; try lia. apply Z.shiftl_nonneg. lia. }
    destruct (Z.div_eucl m0 (10 ^ (- e))) as [q0 r0] eqn:Q.
    intros [= <- _ _].
    replace q0 with (m0 / 10 ^ (- e)) by (unfold Z.div; now rewrite Q).
    apply Z.div_pos; [exact M0 |]. apply Z.leb_gt in Ee.
    apply Z.pow_pos_nonneg; lia.
Qed.

Lemma parseFloat_bounded (input : string) (s : bool) (m : positive) (e : Z) :
  parseFloat input = S754_finite s m e -> Zpos m < 2 ^ 53.
Proof.
  unfold parseFloat.
  destruct (match trimStart input with
            | EmptyString => (false, trimStart input)
            | String c r =>
              if (code c =? 45)%N then (true, r)
              else if (code c =? 43)%N then (false, r)
              else (false, trimStart input)
            end) as [neg body].
  destruct (prefix "Infinity" body); [discriminate |].
  destruct (read_decimal body) as [[m0 e0]|]; [| discriminate].
  apply of_decimal_bounded.
Qed.

(** A price that is formatted in dollars is above ten cents. *)
Lemma dollar_is_high (input : string) :
  num_ge (div (parseFloat input) (of_Z 100)) (of_Z 1) = true ->
  num_gt (parseFloat input) (of_Z 10) = true.
Proof.
  intros G. pose proof G as G'. rewrite one_eq in G'.
  apply ge_positive in G'.
  destruct (parseFloat input) as [s|s| |s m e] eqn:P.
  - destruct s; discriminate G.
  - destruct s; [discriminate G | reflexivity].
  - discriminate G.
  - pose proof (div_sign s m e 7036874417766400 (-46)) as S.
    change (S754_finite false 7036874417766400 (-46)) with (of_Z 100) in S.
    assert (s = false).
    { destruct G' as [E | (m' & e' & E)]; rewrite E in S; cbn in S; congruence. }
    subst s. rewrite ten_eq. unfold num_gt, SFltb, SFcompare.
    destruct (Z.compare_spec (-49) e) as [E | L | L]; [| reflexivity |].
    + exfalso. rewrite div_hundred_small in G; [discriminate G | | lia].
      exact (parseFloat_bounded _ _ _ _ P).
    + exfalso. rewrite div_hundred_small in G; [discriminate G | | lia].
      exact (parseFloat_bounded _ _ _ _ P).
Qed.

Local Close Scope Z_scope.

End RoundingFacts.

(* ================================================================= *)
(** ** Facts about the form of the numbers *)

Module CanonicalFacts.
Import JsString Float64 JsNumber ComedPricing Spec Notions.
Import StringFacts FloatFacts NumberFacts ComedFacts RoundingFacts.

Local Open Scope Z_scope.

Lemma Zdigits2_unique (x k : Z) :
  2 ^ (k - 1) <= x < 2 ^ k -> 0 < x -> Zdigits2 x = k.
Proof.
  intros [L U] Hx. destruct (Zdigits2_bounds x Hx) as (Dp & Dl & Du).
  assert (0 < k).
  { destruct (Z_lt_le_dec 0 k) as [|N]; [assumption |].
    rewrite (Z.pow_neg_r 2 (k - 1)) in L by lia.
    destruct (Z.eq_dec k 0) as [-> | N0]; [cbn in U; lia |].
    rewrite (Z.pow_neg_r 2 k) in U by lia. lia. }
  assert (Zdigits2 x - 1 < k) by (apply (Z.pow_lt_mono_r_iff 2); lia).
  assert (k - 1 < Zdigits2 x) by (apply (Z.pow_lt_mono_r_iff 2); lia).
  lia.
Qed.

Lemma Zdigits2_mono (a b : Z) : 0 <= a <= b -> Zdigits2 a <= Zdigits2 b.
Proof.
  intros [Ha Hab]. pose proof (Zdigits2_lt b ltac:(lia)).
  apply Zdigits2_upper; [apply Zdigits2_nonneg | lia].
Qed.

Lemma Zdigits2_shr (m n : Z) :
  0 < m -> 0 <= n -> 0 < m / 2 ^ n -> Zdigits2 (m / 2 ^ n) = Zdigits2 m - n.
Proof.
  intros Hm Hn Hq. destruct (Zdigits2_bounds m Hm) as (Dp & Dl & Du).
  set (d := Zdigits2 m) in *.
  assert (P : 0 < 2 ^ n) by (apply Z.pow_pos_nonneg; lia).
  assert (Hdn : n < d).
  { destruct (Z_lt_le_dec n d) as [|N]; [assumption |]. exfalso.
    assert (m / 2 ^ n = 0); [| lia].
    apply Z.div_small. split; [lia |].
    apply Z.lt_le_trans with (2 ^ d); [exact Du |]. apply Z.pow_le_mono_r; lia. }
  apply Zdigits2_unique; [| exact Hq]. split.
  - apply Z.div_le_lower_bound; [exact P |].
    rewrite <- Z.pow_add_r by lia. replace (n + (d - n - 1)) with (d - 1) by lia.
    exact Dl.
  - apply Z.div_lt_upper_bound; [exact P |].
    rewrite <- Z.pow_add_r by lia. replace (n + (d - n)) with d by lia.
    exact Du.
Qed.

Lemma canonical_exponent_mono (a b : Z) :
  a <= b -> canonical_exponent a <= canonical_exponent b.
Proof. unfold canonical_exponent. lia. Qed.

(** A mantissa with enough bits is shifted to the canonical exponent. *)
Lemma shr_fexp_canonical (m e : Z) (l : location) (mrs : shr_record) (e' : Z) :
  0 <= m -> e <= canonical_exponent (Zdigits2 m + e) ->
  shr_fexp prec emax m e l = (mrs, e') ->
  e' = canonical_exponent (Zdigits2 m + e) /\
  e' = canonical_exponent (Zdigits2 (shr_m mrs) + e') /\
  0 <= shr_m mrs.
Proof.
  intros Hm He E.
  destruct (shr_fexp_spec m e l mrs e' Hm E) as [Ee Em].
  destruct (shr_fexp_bounded m e l mrs e' Hm E) as [[M0 _] _].
  unfold canonical_exponent in *.
  assert (E1 : e' = Z.max (Zdigits2 m + e - 53) (-1074)) by lia.
  split; [exact E1 |]. split; [| exact M0].
  pose proof (Zdigits2_nonneg m) as Dn.
  destruct (Z.eq_dec (shr_m mrs) 0) as [Z0 | NZ].
  - rewrite Z0. cbn [Zdigits2].
    destruct (Z.eq_dec m 0) as [-> | Hm0]; [cbn [Zdigits2] in *; lia |].
    assert (Zdigits2 m <= e' - e); [| lia].
    destruct (Z_le_gt_dec (Zdigits2 m) (e' - e)) as [|G]; [assumption |].
    exfalso. destruct (Zdigits2_bounds m ltac:(lia)) as (_ & Dl & _).
    assert (0 < m / 2 ^ (e' - e)); [| lia].
    apply Z.div_str_pos. split; [apply Z.pow_pos_nonneg; lia |].
    apply Z.le_trans with (2 ^ (Zdigits2 m - 1)); [| exact Dl].
    apply Z.pow_le_mono_r; lia.
  - assert (Hm0 : 0 < m).
    { destruct (Z.eq_dec m 0) as [-> | ]; [| lia].
      rewrite Z.div_0_l in Em; [lia |].
      apply Z.pow_nonzero; lia. }
    rewrite Em, Zdigits2_shr by (try rewrite <- Em; lia). lia.
Qed.

(** Rounding a mantissa with enough bits gives a number in canonical
    form. *)
Lemma binary_round_aux_canonical (s : bool) (m e : Z) (l : location) :
  0 <= m -> e <= canonical_exponent (Zdigits2 m + e) ->
  canonical (binary_round_aux prec emax s m e l).
Proof.
  intros Hm He. unfold binary_round_aux.
  destruct (shr_fexp prec emax m e l) as [mrs1 e1] eqn:E1.
  destruct (shr_fexp_canonical m e l mrs1 e1 Hm He E1) as (_ & C1 & M1).
  set (r := round_nearest_even (shr_m mrs1) (loc_of_shr_record mrs1)).
  pose proof (round_nearest_even_lower (shr_m mrs1) (loc_of_shr_record mrs1)) as Hr.
  fold r in Hr.
  assert (Hr1 : e1 <= canonical_exponent (Zdigits2 r + e1)).
  { rewrite C1 at 1. apply canonical_exponent_mono.
    pose proof (Zdigits2_mono (shr_m mrs1) r ltac:(lia)). lia. }
  destruct (shr_fexp prec emax r e1 loc_Exact) as [mrs2 e2] eqn:E2.
  destruct (shr_fexp_canonical r e1 loc_Exact mrs2 e2 ltac:(lia) Hr1 E2)
    as (_ & C2 & M2).
  destruct (shr_m mrs2) as [|p|p]; [exact I | | exact I].
  destruct (e2 <=? emax - prec); [exact C2 | now destruct s].
Qed.

Lemma iter_xO_spec (m d : positive) :
  Zpos (Pos.iter xO m d) = Zpos m * 2 ^ Zpos d /\
  digits2_pos (Pos.iter xO m d) = (digits2_pos m + d)%positive.
Proof.
  induction d as [|d IH] using Pos.peano_ind.
  - cbn [Pos.iter]. split; [rewrite (Pos2Z.inj_xO m); lia |].
    cbn [digits2_pos]. lia.
  - rewrite Pos.iter_succ. destruct IH as [IH1 IH2]. split.
    + rewrite (Pos2Z.inj_xO (Pos.iter xO m d)), IH1, Pos2Z.inj_succ.
      rewrite Z.pow_succ_r by lia. lia.
    + cbn [digits2_pos]. rewrite IH2. lia.
Qed.

Lemma binary_round_canonical (s : bool) (m : positive) (e : Z) :
  canonical (binary_round prec emax s m e).
Proof.
  unfold binary_round, shl_align, fexp, emin, prec, emax.
  change (3 - 1024 - 53) with (-1074).
  destruct (Z.max (Zpos (digits2_pos m) + e - 53) (-1074) - e) as [|d|d] eqn:D.
  - apply binary_round_aux_canonical; [lia |].
    unfold canonical_exponent. cbn [Zdigits2]. lia.
  - apply binary_round_aux_canonical; [lia |].
    unfold canonical_exponent. cbn [Zdigits2]. lia.
  - destruct (iter_xO_spec m d) as [_ I2].
    apply binary_round_aux_canonical; [lia |].
    unfold canonical_exponent. cbn [Zdigits2]. rewrite I2.
    rewrite Pos2Z.inj_add. lia.
Qed.

Lemma Zdigits2_lower (x t : Z) : 0 <= t -> 2 ^ t <= x -> t < Zdigits2 x.
Proof.
  intros Ht H. assert (0 < x) by (pose proof (Z.pow_pos_nonneg 2 t); lia).
  pose proof (Zdigits2_lt x ltac:(lia)).
  apply (Z.pow_lt_mono_r_iff 2); [lia | apply Zdigits2_nonneg | lia].
Qed.

(** The quotient that [SFdiv_core_binary] returns has enough bits. *)
Lemma div_core_precise (m1 m2 : positive) (e1 e2 : Z) (q e' : Z) (l : location) :
  SFdiv_core_binary prec emax (Zpos m1) e1 (Zpos m2) e2 = (q, e', l) ->
  0 <= q /\ e' <= canonical_exponent (Zdigits2 q + e').
Proof.
  unfold SFdiv_core_binary.
  destruct (Zdigits2_bounds (Zpos m1) ltac:(lia)) as (D1p & D1l & D1u).
  destruct (Zdigits2_bounds (Zpos m2) ltac:(lia)) as (D2p & D2l & D2u).
  set (d1 := Zdigits2 (Zpos m1)) in *. set (d2 := Zdigits2 (Zpos m2)) in *.
  unfold fexp, emin, prec, emax. change (3 - 1024 - 53) with (-1074).
  set (e0 := Z.min (Z.max (d1 + e1 - (d2 + e2) - 53) (-1074)) (e1 - e2)).
  set (sft := e1 - e2 - e0).
  set (m0 := match sft with
             | 0 => Zpos m1
             | Zpos _ => Z.shiftl (Zpos m1) sft
             | Zneg _ => 0
             end).
  assert (S0 : 0 <= sft) by (unfold sft, e0; lia).
  assert (M0 : m0 = Zpos m1 * 2 ^ sft).
  { unfold m0. destruct sft as [|p|p] eqn:S; try lia.
    apply Z.shiftl_mul_pow2. lia. }
  destruct (Z.div_eucl m0 (Zpos m2)) as [q0 r0] eqn:Q.
  intros [= <- <- <-].
  assert (Eq : q0 = m0 / Zpos m2) by (unfold Z.div; now rewrite Q).
  assert (P : 0 < 2 ^ sft) by (apply Z.pow_pos_nonneg; lia).
  assert (Q0 : 0 <= q0) by (rewrite Eq; apply Z.div_pos; lia).
  split; [exact Q0 |].
  assert (D : d1 + sft - d2 <= Zdigits2 q0).
  { destruct (Z_le_gt_dec (d1 + sft - d2) 0) as [|G];
      [pose proof (Zdigits2_nonneg q0); lia |].
    assert (d1 - 1 + sft - d2 < Zdigits2 q0); [| lia].
    apply Zdigits2_lower; [lia |].
    rewrite Eq. apply Z.div_le_lower_bound; [lia |].
    apply Z.le_trans with (2 ^ d2 * 2 ^ (d1 - 1 + sft - d2)).
    - apply Z.mul_le_mono_nonneg_r; [apply Z.pow_nonneg; lia | lia].
    - rewrite <- Z.pow_add_r by lia.
      replace (d2 + (d1 - 1 + sft - d2)) with ((d1 - 1) + sft) by lia.
      rewrite Z.pow_add_r, M0 by lia.
      apply Z.mul_le_mono_nonneg_r; lia. }
  unfold canonical_exponent. unfold sft in D. unfold e0 in *. lia.
Qed.

Lemma of_decimal_canonical (neg : bool) (m e : Z) : canonical (of_decimal neg m e).
Proof.
  unfold of_decimal. destruct m as [|p|p]; try exact I.
  destruct (0 <=? e) eqn:Ee.
  - apply binary_round_canonical.
  - destruct (SFdiv_core_binary prec emax (Zpos p) 0 (10 ^ (- e)) 0)
      as [[mz ez] lz] eqn:E.
    apply Z.leb_gt in Ee.
    assert (T : 0 < 10 ^ (- e)) by (apply Z.pow_pos_nonneg; lia).
    destruct (10 ^ (- e)) as [|t|t] eqn:Et; try lia.
    destruct (div_core_precise p t 0 0 mz ez lz E) as [Q0 C].
    now apply binary_round_aux_canonical.
Qed.

Lemma parseFloat_canonical (input : string) : canonical (parseFloat input).
Proof.
  unfold parseFloat.
  destruct (match trimStart input with
            | EmptyString => (false, trimStart input)
            | String c r =>
              if (code c =? 45)%N then (true, r)
              else if (code c =? 43)%N then (false, r)
              else (false, trimStart input)
            end) as [neg body].
  destruct (prefix "Infinity" body); [exact I |].
  destruct (read_decimal body) as [[m0 e0]|]; [| exact I].
  apply of_decimal_canonical.
Qed.

Local Close Scope Z_scope.

End CanonicalFacts.

(* ================================================================= *)
(** ** Facts about the order of the numbers *)

Module OrderFacts.
Import JsString Float64 JsNumber ComedPricing Spec Notions.
Import StringFacts FloatFacts NumberFacts ComedFacts RoundingFacts.
Import CanonicalFacts TrendFacts.

Lemma to_Q_false (m : positive) (e : Z) :
  (to_Q (S754_finite false m e) == inject_Z (Zpos m) * Qpower 2 e)%Q.
Proof. cbn [to_Q]. ring. Qed.

Lemma pow2_pos (e : Z) : (0 < Qpower 2 e)%Q.
Proof. apply Qpower_0_lt. reflexivity. Qed.

(** The mantissa of a canonical number has at most 53 bits, and exactly
    53 above the least exponent. *)
Lemma canonical_bits (s : bool) (m : positive) (e : Z) :
  canonical (S754_finite s m e) ->
  (Zpos m < 2 ^ 53)%Z /\ (-1074 <= e)%Z /\ ((-1074 < e)%Z -> (2 ^ 52 <= Zpos m)%Z).
Proof.
  cbn [canonical]. unfold canonical_exponent. intros C.
  destruct (Zdigits2_bounds (Zpos m) ltac:(lia)) as (Dp & Dl & Du).
  set (d := Zdigits2 (Zpos m)) in *.
  split; [| split; [lia |]].
  - apply Z.lt_le_trans with (2 ^ d)%Z; [exact Du |].
    apply Z.pow_le_mono_r; lia.
  - intros L. assert (d = 53%Z) by lia.
    replace 52%Z with (d - 1)%Z by lia. exact Dl.
Qed.

Lemma value_lt (m1 m2 : positive) (e1 e2 : Z) :
  canonical (S754_finite false m1 e1) -> canonical (S754_finite false m2 e2) ->
  (e1 < e2)%Z ->
  (to_Q (S754_finite false m1 e1) < to_Q (S754_finite false m2 e2))%Q.
Proof.
  intros C1 C2 L.
  destruct (canonical_bits _ _ _ C1) as (B1 & L1 & _).
  destruct (canonical_bits _ _ _ C2) as (_ & _ & N2).
  specialize (N2 ltac:(lia)).
  rewrite !to_Q_false.
  replace e2 with (e1 + (e2 - e1))%Z at 1 by lia.
  rewrite Qpower_plus by discriminate.
  rewrite <- (Zpower_Qpower 2 (e2 - e1)) by lia.
  rewrite (Qmult_comm (Qpower 2 e1)), Qmult_assoc, <- inject_Z_mult.
  apply Qmult_lt_r; [apply pow2_pos |].
  rewrite <- Zlt_Qlt.
  apply Z.lt_le_trans with (2 ^ 53)%Z; [exact B1 |].
  change (2 ^ 53)%Z with (2 ^ 52 * 2 ^ 1)%Z.
  apply Z.mul_le_mono_nonneg; try lia.
  apply Z.pow_le_mono_r; lia.
Qed.

Lemma value_compare_same_exponent (m1 m2 : positive) (e : Z) :
  (to_Q (S754_finite false m1 e) ?= to_Q (S754_finite false m2 e))%Q
  = Pos.compare m1 m2.
Proof.
  destruct (Pos.compare_spec m1 m2) as [E | L | G].
  - subst. apply (proj1 (Qeq_alt _ _)). reflexivity.
  - apply (proj1 (Qlt_alt _ _)). rewrite !to_Q_false.
    apply Qmult_lt_r; [apply pow2_pos |]. rewrite <- Zlt_Qlt. lia.
  - apply (proj1 (Qgt_alt _ _)). rewrite !to_Q_false.
    apply Qmult_lt_r; [apply pow2_pos |]. rewrite <- Zlt_Qlt. lia.
Qed.

Lemma compare_positive (m1 m2 : positive) (e1 e2 : Z) :
  canonical (S754_finite false m1 e1) -> canonical (S754_finite false m2 e2) ->
  (to_Q (S754_finite false m1 e1) ?= to_Q (S754_finite false m2 e2))%Q =
  match Z.compare e1 e2 with
  | Lt => Lt
  | Gt => Gt
  | Eq => Pos.compare_cont Eq m1 m2
  end.
Proof.
  intros C1 C2. destruct (Z.compare_spec e1 e2) as [E | L | G].
  - subst. apply value_compare_same_exponent.
  - apply (proj1 (Qlt_alt _ _)). now apply value_lt.
  - apply (proj1 (Qgt_alt _ _)). now apply value_lt.
Qed.

Lemma Qcompare_opp (a b : Q) : (- a ?= - b)%Q = CompOpp (a ?= b)%Q.
Proof.
  destruct (a ?= b)%Q eqn:E; cbn [CompOpp].
  - apply (proj1 (Qeq_alt _ _)). apply Qeq_alt in E. now rewrite E.
  - apply (proj1 (Qgt_alt _ _)). apply Qlt_alt in E. now apply Qopp_lt_compat.
  - apply (proj1 (Qlt_alt _ _)). apply Qgt_alt in E. now apply Qopp_lt_compat.
Qed.

(** On finite numbers in canonical form, the comparison of binary64 is
    the comparison of the values. *)
Lemma SFcompare_values (x y : float) :
  is_finite x = true -> is_finite y = true -> canonical x -> canonical y ->
  SFcompare x y = Some (to_Q x ?= to_Q y)%Q.
Proof.
  intros Fx Fy Cx Cy.
  destruct x as [sx|sx| |sx mx ex]; try discriminate Fx;
    destruct y as [sy|sy| |sy my ey]; try discriminate Fy; cbn [SFcompare].
  - reflexivity.
  - f_equal. symmetry. destruct sy.
    + apply (proj1 (Qgt_alt _ _)). rewrite to_Q_negative.
      pose proof (to_Q_positive my ey). change (to_Q (S754_zero sx)) with 0%Q. lra.
    + apply (proj1 (Qlt_alt _ _)). exact (to_Q_positive my ey).
  - f_equal. symmetry. destruct sx.
    + apply (proj1 (Qlt_alt _ _)). rewrite to_Q_negative.
      pose proof (to_Q_positive mx ex). change (to_Q (S754_zero sy)) with 0%Q. lra.
    + apply (proj1 (Qgt_alt _ _)). exact (to_Q_positive mx ex).
  - f_equal. symmetry. destruct sx, sy.
    + rewrite (Qcompare_comp _ _ (to_Q_negative mx ex) _ _ (to_Q_negative my ey)).
      rewrite Qcompare_opp, compare_positive by assumption.
      now destruct (Z.compare ex ey).
    + apply (proj1 (Qlt_alt _ _)). rewrite to_Q_negative.
      pose proof (to_Q_positive mx ex). pose proof (to_Q_positive my ey). lra.
    + apply (proj1 (Qgt_alt _ _)). rewrite to_Q_negative.
      pose proof (to_Q_positive mx ex). pose proof (to_Q_positive my ey). lra.
    + now apply compare_positive.
Qed.

Lemma ten_canonical : canonical (of_Z 10).
Proof. reflexivity. Qed.

Lemma to_Q_ten : (to_Q (of_Z 10) == 10)%Q.
Proof. reflexivity. Qed.

Lemma num_lt_values (x y : float) :
  is_finite x = true -> is_finite y = true -> canonical x -> canonical y ->
  num_lt x y = true <-> (to_Q x < to_Q y)%Q.
Proof.
  intros Fx Fy Cx Cy. unfold num_lt, SFltb.
  rewrite (SFcompare_values x y Fx Fy Cx Cy). split.
  - intros H. apply (proj2 (Qlt_alt _ _)).
    destruct (to_Q x ?= to_Q y)%Q; [discriminate H | reflexivity | discriminate H].
  - intros H. apply (proj1 (Qlt_alt _ _)) in H. now rewrite H.
Qed.

Lemma num_eq_values (x y : float) :
  is_finite x = true -> is_finite y = true -> canonical x -> canonical y ->
  num_eq x y = true <-> (to_Q x == to_Q y)%Q.
Proof.
  intros Fx Fy Cx Cy. unfold num_eq, SFeqb.
  rewrite (SFcompare_values x y Fx Fy Cx Cy). split.
  - intros H. apply (proj2 (Qeq_alt _ _)).
    destruct (to_Q x ?= to_Q y)%Q; [reflexivity | discriminate H | discriminate H].
  - intros H. apply (proj1 (Qeq_alt _ _)) in H. now rewrite H.
Qed.

(** [<] on the numbers that [parseFloat] returns is transitive. *)
Lemma num_lt_trans (x y z : float) :
  canonical x -> canonical y -> canonical z ->
  num_lt x y = true -> num_lt y z = true -> num_lt x z = true.
Proof.
  intros Cx Cy Cz Hxy Hyz.
  destruct x as [[]|[]| |[] mx ex], y as [[]|[]| |[] my ey],
           z as [[]|[]| |[] mz ez];
    try discriminate Hxy; try discriminate Hyz; try reflexivity;
    match goal with
    | |- num_lt ?a ?c = true =>
      match type of Hxy with
      | num_lt _ ?b = true =>
        apply (num_lt_values a c eq_refl eq_refl Cx Cz);
        apply (num_lt_values a b eq_refl eq_refl Cx Cy) in Hxy;
        apply (num_lt_values b c eq_refl eq_refl Cy Cz) in Hyz;
        exact (Qlt_trans _ _ _ Hxy Hyz)
      end
    end.
Qed.

Lemma trend_up (p c : float) :
  trend_of_numbers p c = up <-> num_lt p c = true.
Proof.
  unfold trend_of_numbers, num_gt, num_lt.
  destruct (isNaN p) eqn:Np.
  { destruct p; try discriminate Np. cbn. split; discriminate. }
  destruct (isNaN c) eqn:Nc.
  { destruct c; try discriminate Nc. cbn [orb].
    split; [discriminate |]. unfold SFltb. destruct p; discriminate. }
  cbn [orb]. destruct (SFltb p c); [split; reflexivity |].
  destruct (SFltb c p); split; discriminate.
Qed.

Lemma trend_down (p c : float) :
  trend_of_numbers p c = down <-> num_lt c p = true.
Proof.
  unfold trend_of_numbers, num_gt, num_lt.
  destruct (isNaN p) eqn:Np.
  { destruct p; try discriminate Np. cbn [orb]. split; [discriminate |].
    unfold SFltb. destruct c; discriminate. }
  destruct (isNaN c) eqn:Nc.
  { destruct c; try discriminate Nc. rewrite orb_true_r.
    split; discriminate. }
  cbn [orb]. destruct (SFltb p c) eqn:L.
  - split; [discriminate |]. intros G.
    pose proof (gt_lt_exclusive c p) as X. unfold num_gt, num_lt in X.
    rewrite (X L) in G. discriminate G.
  - destruct (SFltb c p); split; try reflexivity; discriminate.
Qed.

End OrderFacts.

(* ================================================================= *)
(** ** Facts about the texts *)

Module TextFacts.
Import JsString Float64 JsNumber ComedPricing Spec Notions.
Import StringFacts FloatFacts NumberFacts ComedFacts UriFacts.

Lemma is_digit_numeral (c : ascii) : is_digit c = true -> numeral_char c = true.
Proof. unfold numeral_char. now intros ->. Qed.

Lemma digits_of_numeral (n : Z) : all_chars numeral_char (digits_of n) = true.
Proof.
  apply (all_chars_impl is_digit); [exact is_digit_numeral | apply digits_of_digits].
Qed.

Lemma zeros_numeral (k : nat) : all_chars numeral_char (zeros k) = true.
Proof.
  apply (all_chars_impl is_digit); [exact is_digit_numeral | apply zeros_digits].
Qed.

Ltac numeral_chars :=
  repeat first
    [ reflexivity
    | apply digits_of_numeral
    | apply zeros_numeral
    | apply all_chars_substring
    | rewrite all_chars_app
    | apply andb_true_iff; split ].

Lemma Number_toString_numeral (x : float) :
  all_chars numeral_char (Number_toString x) = true.
Proof.
  unfold Number_toString.
  destruct x as [s|s| |s m e]; try reflexivity; [now destruct s |].
  destruct (shortest _ _ _ _ _) as [[n k] d].
  repeat match goal with
         | |- context [if ?b then _ else _] => destruct b
         end; numeral_chars.
Qed.

Lemma fixed_digits_numeral (n : Z) (f : nat) :
  all_chars numeral_char (fixed_digits n f) = true.
Proof.
  unfold fixed_digits. destruct f as [|f]; [apply digits_of_numeral |].
  cbv zeta.
  match goal with
  | |- context [if ?b then _ else _] => destruct b
  end; numeral_chars.
Qed.

Lemma toFixed_numeral (x : float) (f : Z) (r : string) :
  toFixed x f = Ok r -> all_chars numeral_char r = true.
Proof.
  unfold toFixed.
  destruct ((f <? 0)%Z || (100 <? f)%Z); [discriminate |].
  destruct (negb (is_finite x)); intros [= <-].
  - apply Number_toString_numeral.
  - repeat match goal with
           | |- context [if ?b then _ else _] => destruct b
           end; numeral_chars;
      try apply Number_toString_numeral; try apply fixed_digits_numeral.
Qed.

Lemma numeral_is_price_char (c : ascii) :
  numeral_char c = true -> price_char c = true.
Proof. unfold price_char. now intros ->. Qed.

Lemma price_char_no_markup (c : ascii) :
  price_char c = true -> markup_char c = false.
Proof.
  destruct c as [[] [] [] [] [] [] [] []]; vm_compute; intros H;
    solve [reflexivity | discriminate H].
Qed.

(** The three shapes of a formatted price. *)
Lemma formatPrice_shape (s r : string) :
  formatPrice s = Ok r ->
  r = "N/A" \/
  (num_ge (div (parseFloat s) (of_Z 100)) (of_Z 1) = true /\
   exists d, r = "$" ++ d /\ all_chars numeral_char d = true) \/
  (exists c, r = c ++ "¢" /\ all_chars numeral_char c = true).
Proof.
  unfold formatPrice.
  destruct (s =? "N/A")%string; [intros [= <-]; now left |].
  destruct (isNaN (parseFloat s)); [intros [= <-]; now left |].
  destruct (num_ge _ _).
  - destruct (toFixed _ 2) as [d|] eqn:E; [| discriminate]. intros [= <-].
    right. left. split; [reflexivity |]. exists d. split; [reflexivity |].
    exact (toFixed_numeral _ _ _ E).
  - destruct (toFixed _ 1) as [c|] eqn:E; [| discriminate]. intros [= <-].
    right. right. exists c. split; [reflexivity |].
    exact (toFixed_numeral _ _ _ E).
Qed.

Lemma formatPrice_price_chars (s r : string) :
  formatPrice s = Ok r -> all_chars price_char r = true.
Proof.
  intros F.
  destruct (formatPrice_shape s r F) as [-> | [(_ & d & -> & D) | (c & -> & C)]].
  - reflexivity.
  - change ("$" ++ d) with (String "$" d). cbn [all_chars].
    rewrite (all_chars_impl numeral_char price_char d numeral_is_price_char D).
    reflexivity.
  - rewrite all_chars_app.
    rewrite (all_chars_impl numeral_char price_char c numeral_is_price_char C).
    reflexivity.
Qed.

Lemma append_cancel_l (p a b : string) : p ++ a = p ++ b -> a = b.
Proof.
  induction p as [|c p IH]; cbn; [auto |]. intros H. injection H as H. auto.
Qed.

(** One decimal and two decimals never print alike. *)
Lemma rounded_decimals_differ (x : float) (r1 r2 : string) :
  rounded x 1 r1 -> rounded x 2 r2 -> r1 <> r2.
Proof.
  intros (_ & n1 & N1 & E1) (_ & n2 & N2 & E2) E. subst r1 r2.
  apply append_cancel_l in E.
  pose proof (fixed_digits_reads_back n1 1
                (nearest_nonneg _ _ _ (Qabs_nonneg _) N1)) as R1.
  pose proof (fixed_digits_reads_back n2 2
                (nearest_nonneg _ _ _ (Qabs_nonneg _) N2)) as R2.
  rewrite E, R2 in R1. discriminate R1.
Qed.

Lemma filter_chars_app (p : ascii -> bool) (a b : string) :
  filter_chars p (a ++ b) = filter_chars p a ++ filter_chars p b.
Proof.
  induction a as [|c a IH]; [reflexivity |]. cbn. rewrite IH. now destruct (p c).
Qed.

Lemma filter_chars_none (p : ascii -> bool) (s : string) :
  all_chars (fun c => negb (p c)) s = true -> filter_chars p s = EmptyString.
Proof.
  induction s as [|c s IH]; [reflexivity |]. cbn.
  intros H. apply andb_true_iff in H as [H1 H2].
  apply negb_true_iff in H1. rewrite H1. auto.
Qed.

Lemma test_generatePricingSVG_eq (f5 fh raw : string) (t : Trend) :
  TestSuiteCopies.generatePricingSVG f5 fh raw t =
  TestSuiteCopies.svgHead ++ primaryColor raw ++ TestSuiteCopies.svgPrimary
  ++ f5 ++ TestSuiteCopies.svgTrend ++ TestSuiteCopies.trendText t
  ++ TestSuiteCopies.svgSecondary ++ fh ++ TestSuiteCopies.svgTail.
Proof.
  unfold TestSuiteCopies.generatePricingSVG.
  pose (h := substring 1 (String.length TestSuiteCopies.svgHead - 1)
                       TestSuiteCopies.svgHead).
  pose (tl := substring 0 (String.length TestSuiteCopies.svgTail - 1)
                        TestSuiteCopies.svgTail).
  assert (EH : TestSuiteCopies.svgHead = "<" ++ h) by (vm_compute; reflexivity).
  assert (ET : TestSuiteCopies.svgTail = tl ++ ">") by (vm_compute; reflexivity).
  rewrite EH, ET. clearbody h tl.
  pose (body := h ++ primaryColor raw ++ TestSuiteCopies.svgPrimary ++ f5
                  ++ TestSuiteCopies.svgTrend ++ TestSuiteCopies.trendText t
                  ++ TestSuiteCopies.svgSecondary ++ fh ++ tl).
  transitivity (trim (nl ++ "<" ++ body ++ ">")).
  - f_equal. f_equal. unfold body. rewrite !append_assoc. reflexivity.
  - rewrite trim_markup. unfold body. rewrite !append_assoc. reflexivity.
Qed.

End TextFacts.

(* ================================================================= *)
(** ** Facts about the timer *)

Module LifecycleFacts.
Import Lifecycle.

Lemma filter_handle_fresh (h : Timeout) (l : list Interval) :
  (forall i, In i l -> (handle i < h)%nat) ->
  filter (fun i => negb (Nat.eqb (handle i) h)) l = l.
Proof.
  induction l as [|i l IH]; [reflexivity |]. intros H. cbn.
  assert (E : Nat.eqb (handle i) h = false).
  { apply Nat.eqb_neq. specialize (H i (or_introl eq_refl)). lia. }
  rewrite E. cbn. f_equal. apply IH. intros j Hj. apply H. now right.
Qed.

Lemma NoDup_map_filter (f : Interval -> bool) (l : list Interval) :
  NoDup (map handle l) -> NoDup (map handle (filter f l)).
Proof.
  induction l as [|i l IH]; cbn; [auto |].
  intros N. inversion N as [|? ? Hn N']; subst.
  destruct (f i); cbn; [constructor |]; auto.
  intros Hin. apply Hn. apply in_map_iff in Hin as (j & Ej & Hj).
  apply filter_In in Hj as [Hj _]. apply in_map_iff. now exists j.
Qed.

Lemma step_consistent (p : Plugin) (e : Event) :
  consistent p -> consistent (step p e).
Proof.
  intros (N & B & H). destruct e as [a|a| |a|h]; cbn [step].
  - exact (conj N (conj B H)).
  - unfold onWillAppear_resumed.
    destruct (existsb (Nat.eqb a) (awaiting p)); [| exact (conj N (conj B H))].
    unfold consistent. cbn. split; [| split].
    + rewrite map_app. cbn. apply NoDup_app; [exact N | repeat constructor; auto | ].
      intros x Hx [<- | []]. apply in_map_iff in Hx as (i & Ei & Hi).
      specialize (B i Hi). lia.
    + intros i Hi. apply in_app_iff in Hi as [Hi | [<- | []]].
      * specialize (B i Hi). lia.
      * cbn. split; [lia | reflexivity].
    + intros h' E. injection E as <-. rewrite map_app. apply in_app_iff.
      right. now left.
  - unfold onWillDisappear. destruct (updateInterval p) as [h|] eqn:U;
      [| split; [exact N | split; [exact B |]]; rewrite U; exact H].
    unfold consistent. cbn. split; [| split].
    + now apply NoDup_map_filter.
    + intros i Hi. apply filter_In in Hi as [Hi _]. exact (B i Hi).
    + discriminate.
  - exact (conj N (conj B H)).
  - unfold elapsed. destruct (find _ _); exact (conj N (conj B H)).
Qed.

Lemma run_consistent (es : list Event) (p : Plugin) :
  consistent p -> consistent (run es p).
Proof.
  revert p. induction es as [|e es IH]; intros p C; [exact C |].
  cbn. apply IH. now apply step_consistent.
Qed.

Lemma init_consistent : consistent init.
Proof.
  split; [constructor |]. split; [intros i [] | discriminate].
Qed.

Lemma run_app (es1 es2 : list Event) (p : Plugin) :
  run (es1 ++ es2) p = run es2 (run es1 p).
Proof. apply fold_left_app. Qed.

(** An interval that is not the one held stays as it is. *)
Lemma step_keeps_orphan (p : Plugin) (e : Event) (i : Interval) :
  consistent p -> In i (intervals p) -> updateInterval p <> Some (handle i) ->
  In i (intervals (step p e)) /\ updateInterval (step p e) <> Some (handle i).
Proof.
  intros (N & B & H) Hi U. destruct e as [a|a| |a|h]; cbn [step].
  - now split.
  - unfold onWillAppear_resumed.
    destruct (existsb (Nat.eqb a) (awaiting p)); [| now split].
    cbn. split; [apply in_app_iff; now left |].
    intros E. injection E as E. specialize (B i Hi). lia.
  - unfold onWillDisappear. destruct (updateInterval p) as [h|] eqn:Uh;
      [| split; [exact Hi | now rewrite Uh]].
    cbn. split; [| discriminate].
    apply filter_In. split; [exact Hi |].
    apply negb_true_iff, Nat.eqb_neq. intros E. apply U. now rewrite E.
  - now split.
  - unfold elapsed. destruct (find _ _); now split.
Qed.

Lemma run_keeps_orphan (es : list Event) (p : Plugin) (i : Interval) :
  consistent p -> In i (intervals p) -> updateInterval p <> Some (handle i) ->
  In i (intervals (run es p)) /\ updateInterval (run es p) <> Some (handle i).
Proof.
  revert p. induction es as [|e es IH]; intros p C Hi U; [now split |].
  cbn. destruct (step_keeps_orphan p e i C Hi U) as [Hi' U'].
  apply IH; [now apply step_consistent | exact Hi' | exact U'].
Qed.

Lemma find_handle (l : list Interval) (i : Interval) :
  NoDup (map handle l) -> In i l ->
  find (fun j => Nat.eqb (handle j) (handle i)) l = Some i.
Proof.
  induction l as [|j l IH]; [intros _ [] |]. cbn.
  intros N [-> | Hi].
  - now rewrite Nat.eqb_refl.
  - inversion N as [|? ? Hn N']; subst.
    destruct (Nat.eqb (handle j) (handle i)) eqn:E.
    + exfalso. apply Nat.eqb_eq in E. apply Hn. rewrite E.
      apply in_map_iff. now exists i.
    + now apply IH.
Qed.

Lemma existsb_head (a : Action) (l : list Action) :
  existsb (Nat.eqb a) (a :: l) = true.
Proof. cbn. now rewrite Nat.eqb_refl. Qed.

(** One key appears and its first run settles. *)
Lemma run_appear (a : Action) (p : Plugin) :
  let p' := run [WillAppear a; Resumed a] p in
  intervals p' = (intervals p ++ [{| handle := next_timeout p; target := a;
                                     period := UPDATE_INTERVAL_MS |}])%list /\
  next_timeout p' = S (next_timeout p) /\
  updateInterval p' = Some (next_timeout p) /\
  awaiting p' = awaiting p.
Proof.
  cbn. unfold onWillAppear_resumed, onWillAppear.
  cbn [awaiting set_awaiting updatePricing_begins].
  rewrite existsb_head. cbn. rewrite Nat.eqb_refl. repeat split.
Qed.

Lemma run_appear_all (keys : list Action) (p : Plugin) :
  let p' := run (appear_all keys) p in
  exists new,
    intervals p' = (intervals p ++ new)%list /\
    map target new = keys /\
    (forall i, In i new -> (next_timeout p <= handle i < next_timeout p')%nat) /\
    (next_timeout p <= next_timeout p')%nat.
Proof.
  revert p. induction keys as [|a keys IH]; intros p.
  - exists []. cbn. rewrite app_nil_r.
    split; [reflexivity |]. split; [reflexivity |]. split; [intros i [] | lia].
  - cbn zeta. change (appear_all (a :: keys))
      with ([WillAppear a; Resumed a] ++ appear_all keys)%list.
    rewrite run_app.
    destruct (run_appear a p) as (I & Nx & _ & _).
    set (p1 := run [WillAppear a; Resumed a] p) in *.
    destruct (IH p1) as (new & I' & T & H & L). cbn zeta in *.
    exists ({| handle := next_timeout p; target := a;
               period := UPDATE_INTERVAL_MS |} :: new).
    split; [rewrite I', I, <- app_assoc; reflexivity |].
    split; [cbn; now rewrite T |].
    split; [| lia].
    intros i [<- | Hi]; [cbn [handle]; lia |]. specialize (H i Hi). lia.
Qed.

Lemma run_disappear_idle (k : nat) (p : Plugin) :
  updateInterval p = None -> run (repeat WillDisappear k) p = p.
Proof.
  intros U. induction k as [|k IH]; [reflexivity |].
  cbn. unfold onWillDisappear. rewrite U. exact IH.
Qed.

End LifecycleFacts.

(* ================================================================= *)
(** ** Facts about runs in an environment that can fail *)

Module EnvironmentFacts.
Import JsString Float64 JsNumber ComedPricing Spec Notions.
Import StringFacts FloatFacts NumberFacts ComedFacts.
Import Environment.

(** The run is the part without calls, then the four calls, with the
    [catch] block around both. *)
Lemma updatePricing_eq (env : Env) (t : list Call) :
  Environment.updatePricing env t =
  Environment.try_catch
    (Environment.bind (gather env) (show env)) (report env) t.
Proof.
  unfold Environment.updatePricing, gather, Environment.try_catch,
    Environment.bind, Environment.await, Environment.throw, eval,
    Environment.ret, Environment.Promise_all.
  destruct (Environment.fetch env FIVE_MIN_API) as [r5|e5|],
           (Environment.fetch env HOURLY_API) as [rh|eh|]; try reflexivity.
  destruct (negb (Environment.ok r5) || negb (Environment.ok rh)); [reflexivity |].
  destruct (Environment.json r5) as [[|d5]|e5|]; try reflexivity;
    destruct (Environment.json rh) as [[|dh]|eh|]; try reflexivity.
  cbn [price_of].
  destruct (formatPrice (or_else (price_at d5 0) "N/A")) as [f5|x5];
    [| reflexivity].
  destruct (formatPrice (or_else (price_at dh 0) "N/A")) as [fh|xh];
    reflexivity.
Qed.

Lemma gather_no_call (env : Env) (t : list Call) : snd (gather env t) = t.
Proof.
  unfold gather, Environment.bind, Environment.await, Environment.throw, eval,
    Environment.ret, Environment.Promise_all.
  destruct (Environment.fetch env FIVE_MIN_API) as [r5|e5|],
           (Environment.fetch env HOURLY_API) as [rh|eh|]; try reflexivity.
  destruct (negb (Environment.ok r5) || negb (Environment.ok rh)); [reflexivity |].
  destruct (Environment.json r5) as [[|d5]|e5|]; try reflexivity;
    destruct (Environment.json rh) as [[|dh]|eh|]; try reflexivity.
  cbn [price_of].
  destruct (formatPrice (or_else (price_at d5 0) "N/A")) as [f5|x5];
    [| reflexivity].
  destruct (formatPrice (or_else (price_at dh 0) "N/A")) as [fh|xh];
    reflexivity.
Qed.

(** What [gather] comes to when both requests deliver. *)
Lemma gather_delivered (env : Env) (d5 dh : list ComedPriceData) (t : list Call) :
  delivered env FIVE_MIN_API d5 -> delivered env HOURLY_API dh ->
  exists s,
    gather env t = (fulfilled s, t) /\
    fiveMinPrice s = or_else (price_at d5 0) "N/A" /\
    hourlyPrice s = or_else (price_at dh 0) "N/A" /\
    formatPrice (fiveMinPrice s) = Ok (fiveMinFormatted s) /\
    formatPrice (hourlyPrice s) = Ok (hourlyFormatted s) /\
    trend s = calculateTrend (price_at d5 1) (fiveMinPrice s) /\
    lastUpdate s = Environment.Date_now env.
Proof.
  intros (r5 & F5 & O5 & J5) (rh & Fh & Oh & Jh).
  destruct (formatPrice_total (or_else (price_at d5 0) "N/A")) as [f5 E5].
  destruct (formatPrice_total (or_else (price_at dh 0) "N/A")) as [fh Eh].
  eexists {| fiveMinPrice := _; hourlyPrice := _; fiveMinFormatted := f5;
             hourlyFormatted := fh; trend := _; lastUpdate := _ |}.
  split.
  - unfold gather, Environment.bind, Environment.await, Environment.throw, eval,
      Environment.ret, Environment.Promise_all.
    rewrite F5, Fh, O5, Oh. cbn [negb orb]. rewrite J5, Jh. cbn [price_of].
    rewrite E5, Eh. reflexivity.
  - cbn. repeat split; assumption.
Qed.


(** With requests and bodies that settle, [gather] settles. *)
Lemma gather_settles (env : Env) (t : list Call) :
  settled env FIVE_MIN_API -> settled env HOURLY_API ->
  fst (gather env t) <> pending.
Proof.
  intros [S5 B5] [Sh Bh].
  unfold gather, Environment.bind, Environment.await, Environment.throw, eval,
    Environment.ret, Environment.Promise_all.
  destruct (Environment.fetch env FIVE_MIN_API) as [r5|e5|] eqn:F5;
    [| | contradiction];
    destruct (Environment.fetch env HOURLY_API) as [rh|eh|] eqn:Fh;
    try discriminate; try contradiction.
  specialize (B5 r5 eq_refl). specialize (Bh rh eq_refl).
  destruct (negb (Environment.ok r5) || negb (Environment.ok rh)); [discriminate |].
  destruct (Environment.json r5) as [[|d5]|e5|]; try discriminate;
    try contradiction;
    destruct (Environment.json rh) as [[|dh]|eh|]; try discriminate;
    try contradiction.
  cbn [price_of].
  destruct (formatPrice (or_else (price_at d5 0) "N/A")) as [f5|x5];
    [| discriminate].
  destruct (formatPrice (or_else (price_at dh 0) "N/A")) as [fh|xh];
    discriminate.
Qed.

Lemma show_answered (env : Env) (s : Settings) (t : list Call) :
  host_answers env -> show env s t = (fulfilled tt, (t ++ display_calls s)%list).
Proof.
  intros H. unfold show, Environment.bind, Environment.call.
  rewrite !H. unfold display_calls. rewrite <- !app_assoc. reflexivity.
Qed.

Lemma report_answered (env : Env) (e : exn) (t : list Call) :
  host_answers env -> report env e t = (fulfilled tt, (t ++ error_calls e)%list).
Proof.
  intros H. unfold report, Environment.bind, Environment.call, log.
  rewrite !H. unfold error_calls. rewrite <- !app_assoc. reflexivity.
Qed.

(** The calls of the [try] block are an initial part of the display;
    when one is rejected, it is the last one made. *)
Lemma show_shape (env : Env) (s : Settings) (t : list Call) :
  exists shown,
    snd (show env s t) = (t ++ shown)%list /\
    initial shown (display_calls s) /\
    (fst (show env s t) = fulfilled tt -> shown = display_calls s) /\
    (forall e, fst (show env s t) = rejected e -> shown <> []).
Proof.
  unfold show, Environment.bind, Environment.call, display_calls, initial.
  destruct (host env t _) as [[]|e1|].
  2,3: eexists [_]; cbn [fst snd]; split; [reflexivity |];
       split; [eexists; reflexivity |]; split; discriminate.
  destruct (host env (t ++ [_]) _) as [[]|e2|].
  2,3: eexists [_; _]; cbn [fst snd]; rewrite <- !app_assoc;
       split; [reflexivity |];
       split; [eexists; reflexivity |]; split; discriminate.
  destruct (host env ((t ++ [_]) ++ [_]) _) as [[]|e3|].
  2,3: eexists [_; _; _]; cbn [fst snd]; rewrite <- !app_assoc;
       split; [reflexivity |];
       split; [eexists; reflexivity |]; split; discriminate.
  eexists [_; _; _; _]; cbn [fst snd]; rewrite <- !app_assoc.
  split; [reflexivity |]. split; [exists []; reflexivity |].
  split; [reflexivity | discriminate].
Qed.

(** The calls of the [catch] block are an initial part of the report;
    the block is rejected only when the host rejects its last call. *)
Lemma report_shape (env : Env) (e0 : exn) (t : list Call) :
  exists reported,
    snd (report env e0 t) = (t ++ reported)%list /\
    initial reported (error_calls e0) /\
    In (console_error e0) reported /\
    (fst (report env e0 t) = fulfilled tt -> reported = error_calls e0) /\
    (forall e, fst (report env e0 t) = rejected e ->
       exists pre c,
         reported = (pre ++ [c])%list /\
         In (console_error e0) pre /\
         (c = setTitle "Error" \/ c = setImage (dataURI generateErrorSVG)) /\
         host env (t ++ pre) c = rejected e).
Proof.
  unfold report, Environment.bind, Environment.call, log, error_calls, initial.
  destruct (host env (t ++ [console_error e0]) (setTitle "Error")) as [[]|e1|] eqn:H1.
  - destruct (host env ((t ++ [console_error e0]) ++ [setTitle "Error"])
                   (setImage (dataURI generateErrorSVG))) as [[]|e2|] eqn:H2;
      eexists [_; _; _]; cbn [fst snd]; rewrite <- !app_assoc;
      (split; [reflexivity |]); (split; [exists []; reflexivity |]);
      (split; [left; reflexivity |]); (split; [try discriminate; reflexivity |]);
      try discriminate.
    intros e [= <-]. exists [console_error e0; setTitle "Error"]. eexists.
    split; [reflexivity |]. split; [left; reflexivity |].
    split; [right; reflexivity |].
    rewrite <- H2. f_equal. rewrite <- app_assoc. reflexivity.
  - eexists [_; _]; cbn [fst snd]; rewrite <- !app_assoc.
    split; [reflexivity |]. split; [eexists; reflexivity |].
    split; [left; reflexivity |]. split; [discriminate |].
    intros e [= <-]. exists [console_error e0]. eexists.
    split; [reflexivity |]. split; [left; reflexivity |].
    split; [left; reflexivity |]. exact H1.
  - eexists [_; _]; cbn [fst snd]; rewrite <- !app_assoc.
    split; [reflexivity |]. split; [eexists; reflexivity |].
    split; [left; reflexivity |]. split; discriminate.
Qed.

End EnvironmentFacts.

(* ================================================================= *)
(** ** Further properties of the code *)

Import Notions Lifecycle.
Import RunFacts TrendFacts RoundingFacts CanonicalFacts OrderFacts TextFacts
       LifecycleFacts.

(** *** One run of [updatePricing] *)

(** X3.  What a failed run logs.  When one request is rejected and the
    other is answered, the reason of the rejection is logged.  When both
    are answered and one status is not a success, the error logged is
    [Error("API request failed")], whatever the bodies hold.  When both
    statuses are a success, a 5-minute body that cannot be read is
    logged with its own error, and so is an hourly body that cannot be
    read once the 5-minute body was. *)
Theorem logged_error (w : World) :
  (forall e rh, fetch w FIVE_MIN_API = Throw e -> fetch w HOURLY_API = Ok rh ->
                tick w = error_calls e) /\
  (forall r5 e, fetch w FIVE_MIN_API = Ok r5 -> fetch w HOURLY_API = Throw e ->
                tick w = error_calls e) /\
  (forall r5 rh, fetch w FIVE_MIN_API = Ok r5 -> fetch w HOURLY_API = Ok rh ->
     (ok r5 && ok rh = false ->
      tick w = error_calls (Error "API request failed")) /\
     (ok r5 && ok rh = true ->
      (forall e, json r5 = Throw e -> tick w = error_calls e) /\
      (forall d5 e, json r5 = Ok d5 -> json rh = Throw e ->
                    tick w = error_calls e))).
Proof.
  unfold tick, updatePricing, try_catch, bind, await, Promise_all, throw, call.
  split; [| split].
  - intros e rh -> _. reflexivity.
  - intros r5 e -> ->. reflexivity.
  - intros r5 rh -> ->. split.
    + intros O. replace (negb (ok r5) || negb (ok rh)) with true
        by (now destruct (ok r5), (ok rh)).
      reflexivity.
    + intros O. apply andb_true_iff in O as [-> ->]. cbn [negb orb]. split.
      * intros e ->. reflexivity.
      * intros d5 e -> ->. reflexivity.
Qed.

Lemma logged_error_witness :
  tick (world (feed ["8.5"]) (Ok {| ok := true; json := Throw SyntaxError |}) 0)
  = error_calls SyntaxError /\
  tick (world (feed ["8.5"]) (Ok {| ok := false; json := Throw SyntaxError |}) 0)
  = error_calls (Error "API request failed").
Proof.
  split.
  - destruct (logged_error
                (world (feed ["8.5"])
                       (Ok {| ok := true; json := Throw SyntaxError |}) 0))
      as (_ & _ & H).
    destruct (H _ _ eq_refl eq_refl) as [_ H'].
    destruct (H' eq_refl) as [_ H''].
    exact (H'' _ _ eq_refl eq_refl).
  - destruct (logged_error
                (world (feed ["8.5"])
                       (Ok {| ok := false; json := Throw SyntaxError |}) 0))
      as (_ & _ & H).
    destruct (H _ _ eq_refl eq_refl) as [H' _].
    exact (H' eq_refl).
Defined.

(** X4.  On a run where both requests succeed, the settings stored
    describe what is displayed: the image is the icon of the four fields
    [fiveMinFormatted], [hourlyFormatted], [fiveMinPrice] and [trend] of
    the stored record, and the state is the state of its [fiveMinPrice].
    The two formatted fields are [formatPrice] of the two raw fields,
    the trend is [calculateTrend] of the second 5-minute entry and the
    raw 5-minute price, [lastUpdate] is the clock, and no raw price is
    stored empty. *)
Theorem settings_describe_display (w : World) (d5 dh : list ComedPriceData) :
  fetched w FIVE_MIN_API d5 -> fetched w HOURLY_API dh ->
  exists s,
    tick w = display_calls s /\
    fiveMinPrice s = or_else (price_at d5 0) "N/A" /\
    hourlyPrice s = or_else (price_at dh 0) "N/A" /\
    formatPrice (fiveMinPrice s) = Ok (fiveMinFormatted s) /\
    formatPrice (hourlyPrice s) = Ok (hourlyFormatted s) /\
    trend s = calculateTrend (price_at d5 1) (fiveMinPrice s) /\
    lastUpdate s = Date_now w /\
    fiveMinPrice s <> EmptyString /\ hourlyPrice s <> EmptyString.
Proof.
  intros H5 Hh.
  destruct (tick_success w d5 dh H5 Hh) as (f5 & fh & E5 & Eh & E).
  eexists {| fiveMinPrice := _; hourlyPrice := _; fiveMinFormatted := f5;
             hourlyFormatted := fh; trend := _; lastUpdate := _ |}.
  split; [unfold tick; rewrite E; reflexivity |].
  cbn [fiveMinPrice hourlyPrice fiveMinFormatted hourlyFormatted trend lastUpdate].
  repeat (split; [first [reflexivity | assumption] |]).
  assert (NE : forall v, or_else v "N/A" <> EmptyString).
  { intros [[|c r]|]; cbn; discriminate. }
  split; apply NE.
Qed.

Lemma settings_describe_display_witness :
  exists s,
    tick (world (feed ["8.5"; "7.2"]) (feed ["7.0"]) 1640995260000)
    = display_calls s /\
    fiveMinPrice s = "8.5" /\ hourlyPrice s = "7.0" /\
    lastUpdate s = 1640995260000%Z.
Proof.
  pose (w := world (feed ["8.5"; "7.2"]) (feed ["7.0"]) 1640995260000).
  assert (H5 : fetched w FIVE_MIN_API (map sample ["8.5"; "7.2"]))
    by (eexists; split; [reflexivity | split; reflexivity]).
  assert (Hh : fetched w HOURLY_API (map sample ["7.0"]))
    by (eexists; split; [reflexivity | split; reflexivity]).
  destruct (settings_describe_display w _ _ H5 Hh)
    as (s & E & P5 & Ph & _ & _ & _ & L & _).
  exists s. split; [exact E |]. split; [exact P5 |]. split; [exact Ph | exact L].
Defined.

(** X5.  Of the two feeds a run reads three prices and nothing else:
    the first and the second of the 5-minute feed and the first of the
    hourly feed.  Two runs at the same clock whose feeds agree on these
    three make the same calls, whatever the time stamps and the later
    entries are. *)
Theorem only_latest_prices_are_read
    (w1 w2 : World) (d5 d5' dh dh' : list ComedPriceData) :
  fetched w1 FIVE_MIN_API d5 -> fetched w1 HOURLY_API dh ->
  fetched w2 FIVE_MIN_API d5' -> fetched w2 HOURLY_API dh' ->
  price_at d5 0 = price_at d5' 0 -> price_at d5 1 = price_at d5' 1 ->
  price_at dh 0 = price_at dh' 0 -> Date_now w1 = Date_now w2 ->
  tick w1 = tick w2.
Proof.
  intros A5 Ah B5 Bh E0 E1 Eh En.
  destruct (tick_success w1 d5 dh A5 Ah) as (f5 & fh & F5 & Fh & E).
  destruct (tick_success w2 d5' dh' B5 Bh) as (g5 & gh & G5 & Gh & E').
  unfold tick. rewrite E, E'. cbn [snd].
  rewrite <- E0, <- E1, <- Eh, <- En in *.
  rewrite F5 in G5. rewrite Fh in Gh.
  injection G5 as <-. injection Gh as <-. reflexivity.
Qed.

Lemma only_latest_prices_are_read_witness :
  tick (world (stamped [("1640995200000", "8.5"); ("1640994900000", "7.2");
                        ("1640994600000", "6.8")])
              (stamped [("1640995200000", "7.0")]) 1640995260000) =
  tick (world (stamped [("5", "8.5"); ("4", "7.2"); ("3", "99"); ("2", "1")])
              (stamped [("5", "7.0"); ("4", "3.1")]) 1640995260000).
Proof.
  pose (a5 := [("1640995200000", "8.5"); ("1640994900000", "7.2");
               ("1640994600000", "6.8")]).
  pose (ah := [("1640995200000", "7.0")]).
  pose (b5 := [("5", "8.5"); ("4", "7.2"); ("3", "99"); ("2", "1")]).
  pose (bh := [("5", "7.0"); ("4", "3.1")]).
  destruct (stamped_fetched a5 ah 1640995260000) as [A5 Ah].
  destruct (stamped_fetched b5 bh 1640995260000) as [B5 Bh].
  exact (only_latest_prices_are_read _ _ _ _ _ _ A5 Ah B5 Bh
           eq_refl eq_refl eq_refl eq_refl).
Defined.

(** X6.  Every image a run sets is ["data:image/svg+xml,"] followed by
    the percent-encoding of an icon: the part after the comma is made of
    the characters that [encodeURIComponent] leaves alone and of [%XX]
    groups, decoding it gives the icon back byte for byte, and the icon
    is either the error icon or the pricing icon of the settings stored
    by the same run. *)
Theorem every_image_is_a_data_URI (w : World) (image : string) :
  In (setImage image) (tick w) ->
  exists svg body,
    image = "data:image/svg+xml," ++ body /\
    all_chars uri_char body = true /\
    percent_decode body = svg /\
    (svg = generateErrorSVG \/
     exists s, In (setSettings s) (tick w) /\
               svg = generatePricingSVG (fiveMinFormatted s) (hourlyFormatted s)
                                        (fiveMinPrice s) (trend s)).
Proof.
  unfold tick.
  destruct (tick_cases w) as [(d5 & dh & s & _ & _ & E & _) | (e & _ & E)];
    rewrite E; cbn [snd]; intros H.
  - destruct H as [H | [H | [H | [H | []]]]]; try discriminate H.
    injection H as <-.
    exists (generatePricingSVG (fiveMinFormatted s) (hourlyFormatted s)
                               (fiveMinPrice s) (trend s)).
    eexists. split; [reflexivity |].
    split; [apply encodeURIComponent_uri |].
    split; [apply percent_decode_encode |].
    right. exists s. split; [| reflexivity]. right. right. now left.
  - destruct H as [H | [H | [H | []]]]; try discriminate H.
    injection H as <-.
    exists generateErrorSVG. eexists. split; [reflexivity |].
    split; [apply encodeURIComponent_uri |].
    split; [apply percent_decode_encode |]. now left.
Qed.

Lemma every_image_is_a_data_URI_witness :
  exists body,
    dataURI generateErrorSVG = "data:image/svg+xml," ++ body /\
    all_chars uri_char body = true /\
    percent_decode body = generateErrorSVG.
Proof.
  destruct (every_image_is_a_data_URI
              (world (Throw TypeError) (feed ["7.0"]) 0)
              (dataURI generateErrorSVG))
    as (svg & body & E & U & D & _).
  - right. right. left. reflexivity.
  - exists body. split; [exact E |]. split; [exact U |].
    apply append_cancel_l in E. rewrite <- E. apply percent_decode_encode.
Defined.

(** *** The readers of a price *)

(** X7.  [formatPrice], the state index, the colour of the 5-minute
    price and [calculateTrend] read a price through [parseFloat] and
    through nothing else: two strings that parse to the same number are
    formatted alike, give the same state and colour, and the same trend
    against any other price.  The tests on ["N/A"] and on the empty
    string change nothing, since those strings do not parse. *)
Theorem prices_are_read_as_numbers (a a' b b' : string) :
  parseFloat a = parseFloat a' -> parseFloat b = parseFloat b' ->
  formatPrice a = formatPrice a' /\
  state a = state a' /\
  primaryColor a = primaryColor a' /\
  calculateTrend (Some a) b = calculateTrend (Some a') b'.
Proof.
  intros Ea Eb. split; [now apply formatPrice_numbers |].
  split; [unfold state; now rewrite Ea |].
  split; [unfold primaryColor, isHighPrice; now rewrite Ea |].
  rewrite !calculateTrend_numbers. now rewrite Ea, Eb.
Qed.

Lemma prices_are_read_as_numbers_witness :
  formatPrice "5.20" = formatPrice "+5.2 cents" /\
  calculateTrend (Some "5.20") "007" = calculateTrend (Some "+5.2 cents") "7e0".
Proof.
  destruct (prices_are_read_as_numbers "5.20" "+5.2 cents" "007" "7e0")
    as (F & _ & _ & T); [vm_compute; reflexivity | vm_compute; reflexivity |].
  split; [exact F | exact T].
Defined.

(** X8.  White space in front of a price is ignored by all of them:
    removing it changes neither the formatted text, nor the state, nor
    the colour, nor the trend. *)
Theorem leading_white_space_is_ignored (a b : string) :
  formatPrice (trimStart a) = formatPrice a /\
  state (trimStart a) = state a /\
  primaryColor (trimStart a) = primaryColor a /\
  calculateTrend (Some (trimStart a)) (trimStart b) = calculateTrend (Some a) b.
Proof.
  split; [apply formatPrice_numbers, parseFloat_trimStart |].
  split; [unfold state; now rewrite parseFloat_trimStart |].
  split; [unfold primaryColor, isHighPrice; now rewrite parseFloat_trimStart |].
  rewrite !calculateTrend_numbers. now rewrite !parseFloat_trimStart.
Qed.

(** *** [calculateTrend] *)

(** X9.  Exchanging the two prices reverses the trend: [up] becomes
    [down], [down] becomes [up], and [neutral] stays.  This holds for
    every pair of strings, parsable or not. *)
Theorem calculateTrend_antisymmetric (a b : string) :
  calculateTrend (Some a) b = opposite (calculateTrend (Some b) a).
Proof. rewrite !calculateTrend_numbers. apply trend_of_numbers_swap. Qed.

(** X10.  Two prices that parse to the same number have the trend
    [neutral], however they are written; in particular a price against
    itself. *)
Theorem calculateTrend_same_number (a b : string) :
  parseFloat a = parseFloat b -> calculateTrend (Some a) b = neutral.
Proof.
  intros E. rewrite calculateTrend_numbers, E. apply trend_of_numbers_same.
Qed.

Lemma calculateTrend_same_number_witness :
  calculateTrend (Some "7.5") "7.50" = neutral.
Proof. apply calculateTrend_same_number. vm_compute. reflexivity. Defined.

(** X11.  For two prices that parse to finite numbers, the trend is the
    comparison of their values as real numbers: [up] exactly when the
    current value is greater than the previous one, [down] exactly when
    it is smaller, [neutral] exactly when the two are equal.  The
    comparison of binary64 does not err on the numbers that [parseFloat]
    returns. *)
Theorem trend_in_real_numbers (previous current : string) :
  let p := parseFloat previous in
  let c := parseFloat current in
  is_finite p = true -> is_finite c = true ->
  (calculateTrend (Some previous) current = up <-> (to_Q p < to_Q c)%Q) /\
  (calculateTrend (Some previous) current = down <-> (to_Q c < to_Q p)%Q) /\
  (calculateTrend (Some previous) current = neutral <-> (to_Q c == to_Q p)%Q).
Proof.
  intros p c Fp Fc.
  pose proof (parseFloat_canonical previous) as Cp.
  pose proof (parseFloat_canonical current) as Cc.
  fold p in Cp. fold c in Cc.
  rewrite calculateTrend_numbers. fold p. fold c.
  pose proof (num_lt_values p c Fp Fc Cp Cc) as Vu.
  pose proof (num_lt_values c p Fc Fp Cc Cp) as Vd.
  split; [rewrite trend_up; exact Vu |].
  split; [rewrite trend_down; exact Vd |].
  split.
  - intros N.
    destruct (Qcompare_spec (to_Q c) (to_Q p)) as [E | L | G]; [exact E | |].
    + apply Vd in L. apply trend_down in L. congruence.
    + apply Vu in G. apply trend_up in G. congruence.
  - intros E.
    destruct (trend_of_numbers p c) eqn:T; [| | reflexivity].
    + apply trend_up, Vu in T. rewrite E in T. now apply Qlt_irrefl in T.
    + apply trend_down, Vd in T. rewrite E in T. now apply Qlt_irrefl in T.
Qed.

Lemma trend_in_real_numbers_witness :
  calculateTrend (Some "5.0") "5.5" = up /\
  calculateTrend (Some "7.5") "7.50" = neutral.
Proof.
  split.
  - destruct (trend_in_real_numbers "5.0" "5.5") as (H & _);
      [reflexivity | reflexivity |].
    apply H. vm_compute. reflexivity.
  - destruct (trend_in_real_numbers "7.5" "7.50") as (_ & _ & H);
      [reflexivity | reflexivity |].
    apply H. vm_compute. reflexivity.
Defined.

(** X12.  Trends chain: when the trend from a first price to a second is
    [up] and the trend from the second to a third is [up], the trend
    from the first to the third is [up]; and the same for [down].  This
    holds for all strings, infinite prices included. *)
Theorem trend_is_transitive (a b c : string) :
  (calculateTrend (Some a) b = up -> calculateTrend (Some b) c = up ->
   calculateTrend (Some a) c = up) /\
  (calculateTrend (Some a) b = down -> calculateTrend (Some b) c = down ->
   calculateTrend (Some a) c = down).
Proof.
  rewrite !calculateTrend_numbers, !trend_up, !trend_down.
  pose proof (parseFloat_canonical a). pose proof (parseFloat_canonical b).
  pose proof (parseFloat_canonical c).
  split; intros X Y.
  - now apply num_lt_trans with (parseFloat b).
  - now apply num_lt_trans with (parseFloat b).
Qed.

Lemma trend_is_transitive_witness :
  calculateTrend (Some "5") "7" = up /\ calculateTrend (Some "7") "5" = down.
Proof.
  split.
  - destruct (trend_is_transitive "5" "6" "7") as [H _].
    apply H; vm_compute; reflexivity.
  - destruct (trend_is_transitive "7" "6" "5") as [_ H].
    apply H; vm_compute; reflexivity.
Defined.

(** *** [formatPrice] and the state *)

(** X13.  Every price that parses to a finite number above [-10^21]
    and is not formatted in dollars is printed in cents with one decimal:
    the cents rounded to one decimal, followed by the cent sign.  This
    covers prices under ten cents and negative prices. *)
Theorem formatPrice_below_dollar (priceStr : string) :
  let cents := parseFloat priceStr in
  isNaN cents = false ->
  num_ge (div cents (of_Z 100)) (of_Z 1) = false ->
  is_finite cents = true -> (- Qpower 10 21 < to_Q cents)%Q ->
  exists r, rounded cents 1 r /\ formatPrice priceStr = Ok (r ++ "¢").
Proof.
  intros cents N G Fin Low.
  destruct (formatPrice_cents priceStr N G) as (c & T & F).
  pose proof (below_dollar_small cents Fin G Low) as Small.
  destruct (toFixed_rounded cents 1 ltac:(lia) Fin Small) as (r & T' & R).
  change (Z.of_nat 1) with 1%Z in T'. fold cents in T. rewrite T in T'.
  injection T' as ->. now exists r.
Qed.

Lemma formatPrice_below_dollar_witness :
  (exists r, rounded (parseFloat "3.25") 1 r /\ formatPrice "3.25" = Ok (r ++ "¢")) /\
  (exists r, rounded (parseFloat "-12") 1 r /\ formatPrice "-12" = Ok (r ++ "¢")).
Proof.
  split.
  - apply (formatPrice_below_dollar "3.25"); vm_compute; reflexivity.
  - apply (formatPrice_below_dollar "-12"); vm_compute; reflexivity.
Defined.

(** X14.  What [formatPrice] returns has one of three shapes: ["N/A"];
    a dollar sign followed by a numeral; or a numeral followed by the
    cent sign, where a numeral is made of digits, [. - + e] and the
    letters of [NaN] and [Infinity].  It is never empty, and it holds no
    white space, no angle bracket, no ampersand and no quote: whatever
    the feed sends, the text put into the icon cannot open or close
    markup. *)
Theorem formatPrice_text_is_plain (priceStr r : string) :
  formatPrice priceStr = Ok r ->
  (r = "N/A" \/
   (exists d, r = "$" ++ d /\ all_chars numeral_char d = true) \/
   (exists c, r = c ++ "¢" /\ all_chars numeral_char c = true)) /\
  r <> EmptyString /\
  all_chars (fun c => negb (markup_char c)) r = true.
Proof.
  intros F. split; [| split].
  - destruct (formatPrice_shape _ _ F) as [H | [(_ & H) | H]]; auto.
  - destruct (formatPrice_shape _ _ F) as [-> | [(_ & d & -> & _) | (c & -> & _)]];
      try discriminate.
    destruct c; discriminate.
  - apply (all_chars_impl price_char); [| exact (formatPrice_price_chars _ _ F)].
    intros c H. now rewrite (price_char_no_markup c H).
Qed.

Lemma formatPrice_text_is_plain_witness :
  all_chars (fun c => negb (markup_char c)) "15.7¢" = true.
Proof.
  destruct (formatPrice_text_is_plain "15.7<b>" "15.7¢") as (_ & _ & H);
    [vm_compute; reflexivity | exact H].
Defined.

(** X15.  A price that is shown in dollars is shown as a high price:
    when [formatPrice] returns a text that starts with the dollar sign,
    the state index of the same price is 1 and its colour is [#ff4444].
    A green price is never printed in dollars. *)
Theorem dollars_are_red (priceStr d : string) :
  formatPrice priceStr = Ok ("$" ++ d) ->
  state priceStr = 1%Z /\ primaryColor priceStr = "#ff4444".
Proof.
  intros F.
  assert (H : num_gt (parseFloat priceStr) (of_Z 10) = true).
  { apply dollar_is_high.
    destruct (formatPrice_shape _ _ F) as [E | [(G & _) | (c & E & C)]].
    - discriminate E.
    - exact G.
    - exfalso. destruct c as [|x c]; [discriminate E |].
      injection E as <- _. discriminate C. }
  unfold state, primaryColor, isHighPrice. rewrite H. split; reflexivity.
Qed.

Lemma dollars_are_red_witness :
  state "250.5" = 1%Z /\ primaryColor "250.5" = "#ff4444".
Proof. apply (dollars_are_red "250.5" "2.50"). vm_compute. reflexivity. Defined.

(** X16.  The threshold of the state index and of the colour is a
    threshold on the value: the state is 1 exactly when the price parses
    to plus infinity or to a finite number whose value, as a real
    number, is greater than 10.  A price that does not parse, minus
    infinity, and every finite value up to 10 give the state 0. *)
Theorem state_threshold_in_real_numbers (current : string) :
  let cents := parseFloat current in
  state current = 1%Z <->
  cents = S754_infinity false \/ (is_finite cents = true /\ (10 < to_Q cents)%Q).
Proof.
  cbn zeta. unfold state.
  pose proof (parseFloat_canonical current) as C.
  destruct (is_finite (parseFloat current)) eqn:F.
  - pose proof (num_lt_values (of_Z 10) (parseFloat current) eq_refl F
                  ten_canonical C) as V.
    unfold num_gt. unfold num_lt in V.
    destruct (SFltb (of_Z 10) (parseFloat current)); split.
    + intros _. right. split; [reflexivity |].
      apply (Qle_lt_trans _ (to_Q (of_Z 10))); [discriminate | now apply V].
    + reflexivity.
    + discriminate.
    + intros [E | [_ L]]; [rewrite E in F; discriminate F |].
      exfalso. assert (X : false = true); [| discriminate X].
      apply V. apply (Qle_lt_trans _ 10); [discriminate | exact L].
  - destruct (parseFloat current) as [s|[]| |s m e]; try discriminate F; cbn; split;
      try reflexivity; try discriminate.
    + intros [E | [E _]]; discriminate E.
    + intros _. now left.
    + intros [E | [E _]]; discriminate E.
Qed.

Lemma state_threshold_in_real_numbers_witness :
  state "10.5" = 1%Z.
Proof.
  apply (proj2 (state_threshold_in_real_numbers "10.5")).
  right. split; vm_compute; reflexivity.
Defined.

(** *** The icon *)

(** X17.  The feed adds no markup to the icon.  For two formatted
    prices, the markup characters and the white space of the icon, taken
    in order, are those of the icon with both price texts left empty:
    every [<], [>], [&], quote and blank of the icon comes from the
    template. *)
Theorem feed_adds_no_markup (p5 ph f5 fh raw : string) (t : Trend) :
  formatPrice p5 = Ok f5 -> formatPrice ph = Ok fh ->
  filter_chars markup_char (generatePricingSVG f5 fh raw t) =
  filter_chars markup_char (generatePricingSVG EmptyString EmptyString raw t).
Proof.
  intros F5 Fh. rewrite !generatePricingSVG_eq.
  assert (P : forall p r, formatPrice p = Ok r ->
                          filter_chars markup_char r = EmptyString).
  { intros p r F. apply filter_chars_none.
    apply (all_chars_impl price_char).
    - intros c H. now rewrite (price_char_no_markup c H).
    - exact (formatPrice_price_chars _ _ F). }
  rewrite !filter_chars_app, (P _ _ F5), (P _ _ Fh). reflexivity.
Qed.

Lemma feed_adds_no_markup_witness :
  filter_chars markup_char (generatePricingSVG "$2.50" "N/A" "250.5" up) =
  filter_chars markup_char (generatePricingSVG EmptyString EmptyString "250.5" up).
Proof.
  apply (feed_adds_no_markup "250.5" "<svg>"); vm_compute; reflexivity.
Defined.

(** X18.  For all four arguments, [generatePricingSVG] returns a text
    that starts with the opening of the [svg] element and ends with its
    closing tag (trimming removes the newline in front of the template
    and nothing else), and that includes the fill attribute with the
    colour of the price, the 5-minute text as given, and the hourly text
    as given followed by [ avg]. *)
Theorem icon_shows_what_it_is_given (f5 fh raw : string) (t : Trend) :
  let svg := generatePricingSVG f5 fh raw t in
  (exists body, svg = "<svg " ++ body ++ "</svg>") /\
  includes svg ("fill=" ++ q (primaryColor raw)) = true /\
  includes svg f5 = true /\
  includes svg (fh ++ " avg") = true.
Proof.
  cbn zeta. rewrite generatePricingSVG_eq.
  pose (h := substring 5 (String.length svgHead - 5) svgHead).
  pose (h' := substring 0 (String.length svgHead - 6) svgHead).
  pose (p := substring 1 (String.length svgPrimary - 1) svgPrimary).
  pose (tl := substring 4 (String.length svgTail - 10) svgTail).
  assert (EH : svgHead = "<svg " ++ h) by (vm_compute; reflexivity).
  assert (EH' : svgHead = h' ++ "fill=" ++ dq) by (vm_compute; reflexivity).
  assert (EP : svgPrimary = dq ++ p) by (vm_compute; reflexivity).
  assert (ET : svgTail = " avg" ++ tl ++ "</svg>") by (vm_compute; reflexivity).
  split; [| split; [| split]].
  - rewrite EH, ET. clearbody h tl.
    exists (h ++ primaryColor raw ++ svgPrimary ++ f5 ++ svgTrend ++ trendText t
              ++ svgSecondary ++ fh ++ " avg" ++ tl).
    rewrite !append_assoc. reflexivity.
  - rewrite EH', EP. clearbody h' p. unfold q.
    replace ((h' ++ "fill=" ++ dq) ++ primaryColor raw ++ (dq ++ p) ++ f5
             ++ svgTrend ++ trendText t ++ svgSecondary ++ fh ++ svgTail)
      with (h' ++ ("fill=" ++ dq ++ primaryColor raw ++ dq)
               ++ (p ++ f5 ++ svgTrend ++ trendText t ++ svgSecondary ++ fh
                     ++ svgTail))
      by (rewrite !append_assoc; reflexivity).
    apply includes_here.
  - replace (svgHead ++ primaryColor raw ++ svgPrimary ++ f5 ++ svgTrend
             ++ trendText t ++ svgSecondary ++ fh ++ svgTail)
      with ((svgHead ++ primaryColor raw ++ svgPrimary) ++ f5
            ++ (svgTrend ++ trendText t ++ svgSecondary ++ fh ++ svgTail))
      by (rewrite !append_assoc; reflexivity).
    apply includes_here.
  - rewrite ET. clearbody tl.
    replace (svgHead ++ primaryColor raw ++ svgPrimary ++ f5 ++ svgTrend
             ++ trendText t ++ svgSecondary ++ fh ++ " avg" ++ tl ++ "</svg>")
      with ((svgHead ++ primaryColor raw ++ svgPrimary ++ f5 ++ svgTrend
             ++ trendText t ++ svgSecondary) ++ (fh ++ " avg")
            ++ (tl ++ "</svg>"))
      by (rewrite !append_assoc; reflexivity).
    apply includes_here.
Qed.

(** *** The copies in the test suite *)

(** X19.  The copy of [formatPrice] in the test suite and the one of
    the class return the same text for a price that does not parse and
    for a price of at least ten cents.  For a finite price under ten
    cents (and above [-10^21]) they never do: the class prints the cents
    rounded to one decimal, the copy prints them rounded to two, and the
    two texts differ. *)
Theorem test_copy_of_formatPrice (priceStr : string) :
  let cents := parseFloat priceStr in
  let dollars := div cents (of_Z 100) in
  (isNaN cents = true \/ num_ge dollars (of_decimal false 1 (-1)) = true ->
   TestSuite.formatPrice priceStr = formatPrice priceStr) /\
  (isNaN cents = false -> num_ge dollars (of_decimal false 1 (-1)) = false ->
   is_finite cents = true -> (- Qpower 10 21 < to_Q cents)%Q ->
   exists r1 r2,
     rounded cents 1 r1 /\ rounded cents 2 r2 /\ r1 <> r2 /\
     formatPrice priceStr = Ok (r1 ++ "¢") /\
     TestSuite.formatPrice priceStr = Ok (r2 ++ "¢")).
Proof.
  intros cents dollars. split.
  - intros H. unfold TestSuite.formatPrice, formatPrice.
    destruct (priceStr =? "N/A")%string; [reflexivity |]. cbv zeta.
    fold cents. fold dollars.
    destruct (isNaN cents); [reflexivity |].
    destruct H as [H | H]; [discriminate H |].
    rewrite H. reflexivity.
  - intros N G Fin Low.
    assert (G1 : num_ge dollars (of_Z 1) = false).
    { destruct (num_ge dollars (of_Z 1)) eqn:E; [| reflexivity].
      apply dollar_is_dime in E. congruence. }
    pose proof (below_dollar_small cents Fin G1 Low) as Small.
    destruct (toFixed_rounded cents 1 ltac:(lia) Fin Small) as (r1 & T1 & R1).
    destruct (toFixed_rounded cents 2 ltac:(lia) Fin Small) as (r2 & T2 & R2).
    change (Z.of_nat 1) with 1%Z in T1. change (Z.of_nat 2) with 2%Z in T2.
    exists r1, r2. split; [exact R1 |]. split; [exact R2 |].
    split; [now apply (rounded_decimals_differ cents) |].
    unfold TestSuite.formatPrice, formatPrice.
    rewrite (parsed_not_NA priceStr N). cbv zeta. fold cents. fold dollars.
    rewrite N, G1, G, T1, T2. split; reflexivity.
Qed.

Lemma test_copy_of_formatPrice_witness :
  TestSuite.formatPrice "15.7" = formatPrice "15.7" /\
  (exists r1 r2, r1 <> r2 /\ formatPrice "3.25" = Ok (r1 ++ "¢") /\
                 TestSuite.formatPrice "3.25" = Ok (r2 ++ "¢")).
Proof.
  split.
  - destruct (test_copy_of_formatPrice "15.7") as [H _].
    apply H. right. vm_compute. reflexivity.
  - destruct (test_copy_of_formatPrice "3.25") as [_ H].
    destruct H as (r1 & r2 & _ & _ & D & F & T); try (vm_compute; reflexivity).
    exists r1, r2. split; [exact D |]. split; [exact F | exact T].
Defined.

(** X20.  The icon template that the test suite asserts on is not the
    template of the class: for every four arguments the two functions
    return different texts. *)
Theorem test_copy_of_template_differs (f5 fh raw : string) (t : Trend) :
  (TestSuiteCopies.generatePricingSVG f5 fh raw t
   =? generatePricingSVG f5 fh raw t)%string = false.
Proof.
  apply String.eqb_neq.
  rewrite test_generatePricingSVG_eq, generatePricingSVG_eq. intros E.
  apply (f_equal (get 152)) in E.
  rewrite <- !append_correct1 in E by (vm_compute; lia).
  vm_compute in E. discriminate E.
Qed.

(** X21.  The trend that the test suite computes from a feed with
    [calculateTrendFromApi] is the trend that a run of the class stores
    in the settings for the same 5-minute feed.  It is [neutral] for a
    feed with fewer than two entries. *)
Theorem test_trend_is_stored_trend (w : World) (d5 dh : list ComedPriceData) :
  fetched w FIVE_MIN_API d5 -> fetched w HOURLY_API dh ->
  (exists s, In (setSettings s) (tick w) /\
             trend s = TestSuiteCopies.calculateTrendFromApi d5) /\
  ((length d5 < 2)%nat -> TestSuiteCopies.calculateTrendFromApi d5 = neutral).
Proof.
  intros H5 Hh. split.
  - destruct (tick_success w d5 dh H5 Hh) as (f5 & fh & _ & _ & E).
    eexists. unfold tick. rewrite E. cbn [snd]. split.
    + right. right. left. reflexivity.
    + reflexivity.
  - intros L. unfold TestSuiteCopies.calculateTrendFromApi, price_at.
    destruct d5 as [|x [|y r]]; [reflexivity | reflexivity | cbn in L; lia].
Qed.

Lemma test_trend_is_stored_trend_witness :
  exists s,
    In (setSettings s)
       (tick (world (feed ["8.5"; "7.2"; "6.8"]) (feed ["7.0"]) 1640995260000)) /\
    trend s = up.
Proof.
  pose (w := world (feed ["8.5"; "7.2"; "6.8"]) (feed ["7.0"]) 1640995260000).
  assert (H5 : fetched w FIVE_MIN_API (map sample ["8.5"; "7.2"; "6.8"]))
    by (eexists; split; [reflexivity | split; reflexivity]).
  assert (Hh : fetched w HOURLY_API (map sample ["7.0"]))
    by (eexists; split; [reflexivity | split; reflexivity]).
  destruct (test_trend_is_stored_trend w _ _ H5 Hh) as [(s & I & T) _].
  exists s. split; [exact I |]. rewrite T. vm_compute. reflexivity.
Defined.

(** *** The timer *)

(** X22.  Whatever events the action has received, the intervals that
    run have distinct handles and the period [UPDATE_INTERVAL_MS], and
    the handle kept in [updateInterval], when there is one, is the
    handle of an interval that runs: [onWillDisappear] never clears a
    stale handle. *)
Theorem held_timer_is_running (es : list Event) :
  let p := run es init in
  NoDup (map handle (intervals p)) /\
  (forall i, In i (intervals p) -> period i = UPDATE_INTERVAL_MS) /\
  (forall h, updateInterval p = Some h -> In h (map handle (intervals p))).
Proof.
  destruct (run_consistent es init init_consistent) as (N & B & H).
  split; [exact N |]. split; [| exact H].
  intros i Hi. apply (B i Hi).
Qed.

Lemma held_timer_is_running_witness :
  In 1%nat (map handle (intervals (run (appear_all [7; 8]%nat) init))).
Proof.
  destruct (held_timer_is_running (appear_all [7; 8]%nat)) as (_ & _ & H).
  apply H. reflexivity.
Defined.

(** X23.  An interval whose handle is not the one kept in
    [updateInterval] is never cleared: after any further events it still
    runs, its handle is still not the one kept, and each time it fires a
    run of [updatePricing] begins for its key.  Such an interval exists
    as soon as a second call of [onWillAppear] has set its interval
    before [onWillDisappear] was called. *)
Theorem orphaned_timer_is_never_cleared
    (before after : list Event) (i : Interval) :
  let p := run before init in
  In i (intervals p) -> updateInterval p <> Some (handle i) ->
  In i (intervals (run after p)) /\
  updateInterval (run after p) <> Some (handle i) /\
  started (run (after ++ [Elapsed (handle i)]) p) =
    (started (run after p) ++ [target i])%list.
Proof.
  intros p Hi U.
  assert (C : consistent p) by apply run_consistent, init_consistent.
  destruct (run_keeps_orphan after p i C Hi U) as [Hi' U'].
  split; [exact Hi' |]. split; [exact U' |].
  rewrite run_app. cbn. unfold elapsed.
  destruct (run_consistent after p C) as (N & _).
  now rewrite (find_handle _ i N Hi').
Qed.

Lemma orphaned_timer_is_never_cleared_witness :
  In {| handle := 0%nat; target := 7%nat; period := UPDATE_INTERVAL_MS |}
     (intervals (run [WillDisappear; WillDisappear; KeyDown 8%nat]
                     (run (appear_all [7; 8]%nat) init))).
Proof.
  destruct (orphaned_timer_is_never_cleared
              (appear_all [7; 8]%nat)
              [WillDisappear; WillDisappear; KeyDown 8%nat]
              {| handle := 0%nat; target := 7%nat; period := UPDATE_INTERVAL_MS |})
    as (H & _).
  - left. reflexivity.
  - discriminate.
  - exact H.
Defined.

(** X24.  When several keys appear one after the other and the action
    then disappears, once or several times, only the interval of the key
    that appeared last is cleared: the intervals that ran before and
    those of all the other keys keep running, and no handle is kept. *)
Theorem only_last_timer_is_cleared
    (es : list Event) (keys : list Action) (a : Action) (k : nat) :
  let p := run es init in
  let p' := run (appear_all (keys ++ [a]) ++ repeat WillDisappear (S k)) p in
  map target (intervals p') = (map target (intervals p) ++ keys)%list /\
  updateInterval p' = None.
Proof.
  intros p p'. subst p'.
  assert (C : consistent p) by apply run_consistent, init_consistent.
  unfold appear_all. rewrite flat_map_app. fold (appear_all keys).
  cbn [flat_map]. rewrite app_nil_r, !run_app.
  destruct (run_appear_all keys p) as (new & I & T & H & L). cbn zeta in *.
  set (p1 := run (appear_all keys) p) in *.
  assert (C1 : consistent p1) by now apply run_consistent.
  destruct (run_appear a p1) as (I2 & _ & U2 & _). cbn zeta in *.
  set (p2 := run [WillAppear a; Resumed a] p1) in *.
  change (repeat WillDisappear (S k))
    with ([WillDisappear] ++ repeat WillDisappear k)%list.
  rewrite run_app.
  assert (E : intervals (run [WillDisappear] p2) = intervals p1 /\
              updateInterval (run [WillDisappear] p2) = None).
  { unfold run at 1 2. cbn [fold_left step]. unfold onWillDisappear. rewrite U2.
    cbn [intervals updateInterval set_updateInterval clearInterval]. rewrite I2.
    split; [| reflexivity].
    rewrite filter_app. cbn. rewrite Nat.eqb_refl. cbn. rewrite app_nil_r.
    apply filter_handle_fresh. intros i Hi. destruct C1 as (_ & B & _).
    apply (B i Hi). }
  destruct E as [E1 E2].
  rewrite (run_disappear_idle k _ E2). split; [| exact E2].
  rewrite E1, I, map_app, T. reflexivity.
Qed.

(** X25.  When a key disappears while its first run is still in flight,
    [onWillDisappear] comes too early to clear anything of that key: the
    interval is set afterwards, for the key that is gone, and its handle
    is the one kept. *)
Theorem timer_set_after_disappear (es : list Event) (a : Action) :
  let p := run es init in
  let p' := run [WillAppear a; WillDisappear; Resumed a] p in
  updateInterval p' = Some (next_timeout p) /\
  In {| handle := next_timeout p; target := a; period := UPDATE_INTERVAL_MS |}
     (intervals p').
Proof.
  intros p p'. subst p'. cbn. unfold onWillDisappear, onWillAppear.
  cbn [updateInterval set_awaiting updatePricing_begins].
  destruct (updateInterval p) as [h|];
    unfold onWillAppear_resumed; cbn; rewrite Nat.eqb_refl; cbn;
    (split; [reflexivity |]); apply in_app_iff; right; now left.
Qed.

(* ================================================================= *)
(** ** Runs in an environment that can fail: the properties *)

Import Environment EnvironmentFacts.

(** X1.  When the host answers every call and the two requests and the
    bodies that are read settle, a run of [updatePricing] resolves,
    whatever the feeds hold ([null] included), and its calls are the
    four of a display or the three of a failure, never a part of one
    or a mix of both. *)
Theorem answered_run_resolves (env : Env) (t : list Call) :
  host_answers env ->
  settled env FIVE_MIN_API -> settled env HOURLY_API ->
  exists calls,
    Environment.updatePricing env t = (fulfilled tt, (t ++ calls)%list) /\
    ((exists s, calls = display_calls s) \/ (exists e, calls = error_calls e)).
Proof.
  intros H S5 Sh. rewrite updatePricing_eq.
  unfold Environment.try_catch, Environment.bind.
  pose proof (gather_no_call env t) as N.
  pose proof (gather_settles env t S5 Sh) as P.
  destruct (gather env t) as [[s|e|] t1]; cbn [fst snd] in N, P; subst t1.
  - rewrite show_answered by exact H.
    eexists. split; [reflexivity |]. left. eexists. reflexivity.
  - rewrite report_answered by exact H.
    eexists. split; [reflexivity |]. right. eexists. reflexivity.
  - contradiction.
Qed.

Lemma answered_run_resolves_witness :
  exists calls,
    Environment.updatePricing
      (environment (answer null) (answer (entries (map sample ["7.0"]))) 1640995260000
                   (fun _ _ => fulfilled tt)) []
    = (fulfilled tt, ([] ++ calls)%list) /\
    ((exists s, calls = display_calls s) \/ (exists e, calls = error_calls e)).
Proof.
  apply (answered_run_resolves
           (environment (answer null) (answer (entries (map sample ["7.0"])))
                        1640995260000 (fun _ _ => fulfilled tt)) []).
  - intros t c. reflexivity.
  - split; [discriminate |]. intros r [= <-]. discriminate.
  - split; [discriminate |]. intros r [= <-]. discriminate.
Defined.




(** X27.  Whatever the network and the host do, the calls of a run are an
    initial part of a display followed by an initial part of a failure
    report: nothing is called out of order, nothing after the error
    icon, and the settings and the state are never touched once the
    report has begun.  A run that resolves made the whole display and
    no more, or ended with the whole report. *)
Theorem run_is_display_then_report (env : Env) (t : list Call) :
  exists s e shown reported,
    snd (Environment.updatePricing env t) = (t ++ shown ++ reported)%list /\
    initial shown (display_calls s) /\
    initial reported (error_calls e) /\
    (fst (Environment.updatePricing env t) = fulfilled tt ->
     (shown = display_calls s /\ reported = []) \/ reported = error_calls e).
Proof.
  rewrite updatePricing_eq. unfold Environment.try_catch, Environment.bind.
  pose proof (gather_no_call env t) as N.
  destruct (gather env t) as [[s|e|] t1]; cbn [fst snd] in N; subst t1.
  - destruct (show_shape env s t) as (shown & T & I & F & _).
    destruct (show env s t) as [[[]|e|] t1]; cbn [fst snd] in T, F; subst t1.
    + exists s, TypeError, shown, []. cbn [fst snd]. rewrite app_nil_r.
      split; [reflexivity |]. split; [exact I |].
      split; [eexists; reflexivity |]. intros _. left. auto.
    + destruct (report_shape env e (t ++ shown)%list) as (reported & T' & I' & _ & F' & _).
      exists s, e, shown, reported. rewrite T', app_assoc.
      split; [reflexivity |]. split; [exact I |]. split; [exact I' |].
      intros E. right. exact (F' E).
    + exists s, TypeError, shown, []. cbn [fst snd]. rewrite app_nil_r.
      split; [reflexivity |]. split; [exact I |].
      split; [eexists; reflexivity |]. discriminate.
  - destruct (report_shape env e t) as (reported & T' & I' & _ & F' & _).
    exists {| fiveMinPrice := "N/A"; hourlyPrice := "N/A";
              fiveMinFormatted := "N/A"; hourlyFormatted := "N/A";
              trend := neutral; lastUpdate := 0 |}, e, [], reported.
    rewrite T'. split; [reflexivity |].
    split; [eexists; reflexivity |]. split; [exact I' |].
    intros E. right. exact (F' E).
  - exists {| fiveMinPrice := "N/A"; hourlyPrice := "N/A";
              fiveMinFormatted := "N/A"; hourlyFormatted := "N/A";
              trend := neutral; lastUpdate := 0 |}, TypeError, [], [].
    cbn [fst snd]. rewrite app_nil_r.
    split; [reflexivity |]. split; [eexists; reflexivity |].
    split; [eexists; reflexivity |]. discriminate.
Qed.

(** X28.  A run is rejected only out of the [catch] block: an error was
    logged before, and the call the host rejected is the last one made,
    [setTitle('Error')] or the [setImage] of the error icon.  What the
    run is rejected with is what the host rejected that call with. *)
Theorem run_rejects_only_from_the_catch (env : Env) (t : list Call) (e : exn) :
  fst (Environment.updatePricing env t) = rejected e ->
  exists pre c logged,
    snd (Environment.updatePricing env t) = (t ++ pre ++ [c])%list /\
    In (console_error logged) pre /\
    (c = setTitle "Error" \/ c = setImage (dataURI generateErrorSVG)) /\
    host env (t ++ pre) c = rejected e.
Proof.
  rewrite updatePricing_eq. unfold Environment.try_catch, Environment.bind.
  pose proof (gather_no_call env t) as N.
  destruct (gather env t) as [[s|e0|] t1]; cbn [fst snd] in N; subst t1.
  - destruct (show_shape env s t) as (shown & T & _).
    destruct (show env s t) as [[[]|e0|] t1]; cbn [fst snd] in T; subst t1;
      try discriminate.
    intros E.
    destruct (report_shape env e0 (t ++ shown)%list) as (reported & T' & _ & _ & _ & R).
    destruct (R e E) as (pre & c & -> & L & C & Hc).
    exists (shown ++ pre)%list, c, e0. rewrite T'.
    split; [now rewrite <- !app_assoc |].
    split; [apply in_or_app; right; exact L |].
    split; [exact C |]. rewrite app_assoc. exact Hc.
  - intros E.
    destruct (report_shape env e0 t) as (reported & T' & _ & _ & _ & R).
    destruct (R e E) as (pre & c & -> & L & C & Hc).
    exists pre, c, e0. rewrite T'. auto.
  - discriminate.
Qed.

Lemma run_rejects_only_from_the_catch_witness :
  exists pre c logged,
    snd (Environment.updatePricing
           (environment (answer (entries (map sample ["7.0"; "6.5"])))
                        (answer (entries (map sample ["7.2"]))) 1640995260000
                        (no_image (Error "host"))) [])
    = ([] ++ pre ++ [c])%list /\
    In (console_error logged) pre /\
    (c = setTitle "Error" \/ c = setImage (dataURI generateErrorSVG)) /\
    host (environment (answer (entries (map sample ["7.0"; "6.5"])))
                      (answer (entries (map sample ["7.2"]))) 1640995260000
                      (no_image (Error "host"))) ([] ++ pre) c
    = rejected (Error "host").
Proof.
  apply (run_rejects_only_from_the_catch
           (environment (answer (entries (map sample ["7.0"; "6.5"])))
                        (answer (entries (map sample ["7.2"]))) 1640995260000
                        (no_image (Error "host"))) [] (Error "host")).
  vm_compute. reflexivity.
Defined.

(** X29.  When both feeds are delivered and the host rejects [setImage],
    the run makes four calls, the image of the prices, the log, the
    title [Error] and the error icon, and is rejected: the key keeps
    the title [Error] with no error icon, and neither the settings nor
    the state are written. *)
Theorem rejected_image_leaves_a_mix
    (env : Env) (e : exn) (d5 dh : list ComedPriceData) (t : list Call) :
  delivered env FIVE_MIN_API d5 -> delivered env HOURLY_API dh ->
  (forall t c, host env t c = no_image e t c) ->
  exists s,
    fiveMinPrice s = or_else (price_at d5 0) "N/A" /\
    formatPrice (fiveMinPrice s) = Ok (fiveMinFormatted s) /\
    Environment.updatePricing env t =
    (rejected e,
     (t ++ [ setImage (dataURI (generatePricingSVG
                                  (fiveMinFormatted s) (hourlyFormatted s)
                                  (fiveMinPrice s) (trend s)));
             console_error e;
             setTitle "Error";
             setImage (dataURI generateErrorSVG) ])%list).
Proof.
  intros D5 Dh H.
  destruct (gather_delivered env d5 dh t D5 Dh) as (s & G & P5 & _ & F5 & _).
  exists s. split; [exact P5 |]. split; [exact F5 |].
  rewrite updatePricing_eq. unfold Environment.try_catch, Environment.bind.
  rewrite G. unfold show, report, Environment.bind, Environment.call, log.
  repeat (rewrite H; cbn [no_image]). rewrite <- !app_assoc. reflexivity.
Qed.

Lemma rejected_image_leaves_a_mix_witness :
  exists s,
    fiveMinPrice s = "7.0" /\
    formatPrice (fiveMinPrice s) = Ok (fiveMinFormatted s) /\
    Environment.updatePricing
      (environment (answer (entries (map sample ["7.0"; "6.5"])))
                   (answer (entries (map sample ["7.2"]))) 1640995260000
                   (no_image (Error "host"))) []
    = (rejected (Error "host"),
       ([] ++ [ setImage (dataURI (generatePricingSVG
                                     (fiveMinFormatted s) (hourlyFormatted s)
                                     (fiveMinPrice s) (trend s)));
                console_error (Error "host");
                setTitle "Error";
                setImage (dataURI generateErrorSVG) ])%list).
Proof.
  apply (rejected_image_leaves_a_mix
           (environment (answer (entries (map sample ["7.0"; "6.5"])))
                        (answer (entries (map sample ["7.2"]))) 1640995260000
                        (no_image (Error "host")))
           (Error "host") (map sample ["7.0"; "6.5"]) (map sample ["7.2"]) []).
  - eexists. split; [reflexivity |]. split; reflexivity.
  - eexists. split; [reflexivity |]. split; reflexivity.
  - intros t c. reflexivity.
Defined.

(** X30.  The requests carry no timeout: when one of them never settles
    and the other is not rejected, the run makes no call at all and
    never resolves, so the key shows neither new prices nor an error. *)
Theorem pending_request_shows_nothing (env : Env) (t : list Call) :
  (Environment.fetch env FIVE_MIN_API = pending /\
   forall e, Environment.fetch env HOURLY_API <> rejected e) \/
  (Environment.fetch env HOURLY_API = pending /\
   forall e, Environment.fetch env FIVE_MIN_API <> rejected e) ->
  Environment.updatePricing env t = (pending, t).
Proof.
  unfold Environment.updatePricing, Environment.try_catch,
    Environment.bind, Environment.await, Environment.Promise_all.
  intros [[P N] | [P N]]; rewrite P.
  - destruct (Environment.fetch env HOURLY_API) as [rh|eh|]; try reflexivity.
    now destruct (N eh).
  - destruct (Environment.fetch env FIVE_MIN_API) as [r5|e5|]; try reflexivity.
    now destruct (N e5).
Qed.

Lemma pending_request_shows_nothing_witness :
  Environment.updatePricing
    (environment pending (answer (entries (map sample ["7.2"]))) 1640995260000
                 (fun _ _ => fulfilled tt)) []
  = (pending, []).
Proof.
  apply (pending_request_shows_nothing
           (environment pending (answer (entries (map sample ["7.2"])))
                        1640995260000 (fun _ _ => fulfilled tt)) []).
  left. split; [reflexivity |]. intros e. discriminate.
Defined.
